(** * vibe-stats-overlay: the telemetry sampler, the GPU backends and the
      pane switching of [overlay_fixed_complete_final.py]

    The development embeds the parts of [OverlayWindow] and [StatRow] that
    compute what is shown: [StatRow.update_value], [update_battery],
    [detect_gpus_and_populate], the GPU and network parts of [update_stats],
    [_update_gpus_gputil], [toggle_tab], [show_live_from_tab] and
    [open_settings].  Python floats are IEEE binary64 numbers
    ([spec_float] with precision 53 and maximal exponent 1024), Python
    integers are [Z], exceptions are values of [exn], and every result of a
    call into psutil, pynvml, GPUtil or [time] is an input of the tick. *)

From Stdlib Require Import ZArith List String Ascii Bool Lia DecimalString.
From Stdlib Require Import Floats.SpecFloat.
From Stdlib Require QArith.QArith QArith.Qround.
Import ListNotations.

Local Open Scope string_scope.
Local Open Scope Z_scope.

(** ** Python values and arithmetic *)

Module Py.

(** The exceptions the modelled code can meet; all derive from
    [Exception], so every [except Exception] clause catches them. *)
Inductive exn : Set :=
| ValueError
| TypeError
| OverflowError
| ZeroDivisionError
| IndexError
| BackendError.

Definition result (A : Type) : Type := (exn + A)%type.

Definition ret {A} (a : A) : result A := inr a.
Definition raise {A} (e : exn) : result A := inl e.

Definition bind {A B} (r : result A) (k : A -> result B) : result B :=
  match r with
  | inl e => inl e
  | inr a => k a
  end.

(** binary64 *)
Definition prec : Z := 53.
Definition emax : Z := 1024.
Definition float : Set := spec_float.

Definition fadd : float -> float -> float := SFadd prec emax.
Definition fsub : float -> float -> float := SFsub prec emax.
Definition fmul : float -> float -> float := SFmul prec emax.
Definition fdiv : float -> float -> float := SFdiv prec emax.

(** The double nearest to an integer (round to nearest, ties to even);
    an integer beyond the largest double becomes an infinity here and
    is refused by [float_of_int]. *)
Definition Z2F (z : Z) : float := binary_normalize prec emax z 0 false.

(** [PyLong_AsDouble]: "int too large to convert to float". *)
Definition float_of_int (z : Z) : result float :=
  match Z2F z with
  | S754_infinity _ => raise OverflowError
  | f => ret f
  end.

Definition is_zero (f : float) : bool :=
  match f with
  | S754_zero _ => true
  | _ => false
  end.

(** [x / y] on floats: Python raises on a zero divisor instead of
    returning an infinity or a NaN. *)
Definition truediv (x y : float) : result float :=
  if is_zero y then raise ZeroDivisionError else ret (fdiv x y).

(** [int(f)]: truncation toward zero; NaN and the infinities raise. *)
Definition int_of_float (f : float) : result Z :=
  match f with
  | S754_zero _ => ret 0
  | S754_nan => raise ValueError
  | S754_infinity _ => raise OverflowError
  | S754_finite s m e =>
      ret (cond_Zopp s (if 0 <=? e then Zpos m * 2 ^ e
                        else Zpos m / 2 ^ (- e)))
  end.

(** [f <= 0] and [f > 0] (the integer [0] compares as the double
    [0.0]); comparisons with NaN are false. *)
Definition le0 (f : float) : bool := SFleb f (S754_zero false).
Definition gt0 (f : float) : bool := SFltb (S754_zero false) f.

(** The literals [1.0] and [1024.0]. *)
Definition f1 : float := Eval cbv in Z2F 1.
Definition f1024 : float := Eval cbv in Z2F 1024.

(** What can reach [StatRow.update_value].  [Obj r] stands for any other
    object (a [str], a list, ...), given by what [int()] does on it:
    [int("42")] is [42], [int("abc")] raises [ValueError], [int([])]
    raises [TypeError]. *)
Inductive value : Type :=
| None_
| Bool (b : bool)
| Int (z : Z)
| Float (f : float)
| Obj (conv : result Z).

(** The builtin [int(x)]. *)
Definition int (x : value) : result Z :=
  match x with
  | None_ => raise TypeError
  | Bool b => ret (if b then 1 else 0)
  | Int z => ret z
  | Float f => int_of_float f
  | Obj conv => conv
  end.

(** [xs[i]] for a list and an index that is not negative. *)
Definition index {A} (xs : list A) (i : nat) : result A :=
  match nth_error xs i with
  | Some x => ret x
  | None => raise IndexError
  end.

(** [f"{p}"] for an integer. *)
Definition str_of_int (z : Z) : string := NilZero.string_of_int (Z.to_int z).

End Py.

Notation "'let*' x ':=' c 'in' k" := (Py.bind c (fun x => k))
  (at level 10, x name, c at level 100, k at level 200).

(** ** [StatRow]: label, progress bar, percent text *)

Record StatRow : Type := mkStatRow {
  label : string;          (* self.label's text *)
  bar : Z;                 (* self.bar.value(), the range is 0..100 *)
  value_label : string     (* self.value_label's text *)
}.

(** [QProgressBar.setValue] on the range set by [setRange(0, 100)]: a
    value outside the range is ignored. *)
Definition setValue (old v : Z) : Z :=
  if (0 <=? v) && (v <=? 100) then v else old.

(** [StatRow.__init__]: a fresh [QProgressBar] holds -1 (no value yet)
    and the percent text starts as "0%". *)
Definition StatRow_init (label_text : string) : StatRow :=
  {| label := label_text; bar := -1; value_label := "0%" |}.

Definition clamp_percent (n : Z) : Z := Z.max 0 (Z.min 100 n).

(** [StatRow.update_value] *)
Definition update_value (self : StatRow) (percent : Py.value) : StatRow :=
  let percent := match percent with
                 | Py.None_ => Py.Int 0
                 | _ => percent
                 end in
  let p := match Py.int percent with
           | inr n => clamp_percent n
           | inl _ => 0
           end in
  {| label := label self;
     bar := setValue (bar self) p;
     value_label := Py.str_of_int p ++ "%" |}.

Definition setText (self : StatRow) (text : string) : StatRow :=
  {| label := text; bar := bar self; value_label := value_label self |}.

(** ** What the host answers

    Every call into psutil, pynvml, GPUtil and [time] made by one run of
    [detect_gpus_and_populate] or by one tick is answered by a [Host]:
    either a value or the exception the call raises. *)

(** The module-level flags, fixed when the module is imported. *)
Record Caps : Set := mkCaps {
  NVML : bool;               (* pynvml imported and nvmlInit() succeeded *)
  GPUtil_available : bool    (* GPUtil imported *)
}.

(** A GPUtil [GPU] object: the attributes the code reads. *)
Record GPU : Type := mkGPU {
  gpu_name : string;
  gpu_load : Py.float
}.

(** What [nvmlDeviceGetName] returns: [bytes] with older pynvml, [str]
    with newer ones. *)
Inductive nvml_name : Type :=
| NameBytes (raw : list Byte.byte)
| NameStr (s : string).

(** psutil's [sbattery]; [power_plugged] is [None] when unknown. *)
Record sbattery : Type := mkBattery {
  percent : Py.value;
  power_plugged : option bool
}.

(** psutil's [snetio]: the two counters the code reads. *)
Record snetio : Set := mkNetio {
  bytes_sent : Z;
  bytes_recv : Z
}.

Definition handle : Set := nat.

Record Host : Type := mkHost {
  sensors_battery : Py.result (option sbattery);
  cpu_percent : Py.result Py.value;
  virtual_memory_percent : Py.result Py.value;
  disk_usage_percent : Py.result Py.value;
  nvmlDeviceGetCount : Py.result nat;
  nvmlDeviceGetHandleByIndex : nat -> Py.result handle;
  nvmlDeviceGetName : handle -> Py.result nvml_name;
  nvmlDeviceGetUtilizationRates : handle -> Py.result Z;   (* the [.gpu] field *)
  getGPUs : Py.result (list GPU);
  net_io_counters : Py.result (list (string * snetio));    (* [.items()], in order *)
  time : Py.float
}.

(** The calls into the two GPU libraries, recorded in the order made. *)
Inductive call : Set :=
| CallNvmlDeviceGetCount
| CallNvmlDeviceGetHandleByIndex (i : nat)
| CallNvmlDeviceGetName (h : handle)
| CallNvmlDeviceGetUtilizationRates (h : handle)
| CallGetGPUs.

(** ** The sampler's part of [OverlayWindow] *)

(** The dict [self.previous_net]. *)
Record NetState : Set := mkNetState {
  net_name : string;
  net_sent : Z;
  net_recv : Z;
  net_time : Py.float
}.

Record Overlay : Type := mkOverlay {
  previous_net : option NetState;
  batt_label : string;
  row_cpu : StatRow;
  row_ram : StatRow;
  row_disk : StatRow;
  row_net : StatRow;
  gpu_rows : list (string * StatRow);   (* the rows shown in gpus_container *)
  calls : list call                     (* ghost: GPU library calls so far *)
}.

Definition set_previous_net (v : option NetState) (s : Overlay) : Overlay :=
  mkOverlay v (batt_label s) (row_cpu s) (row_ram s) (row_disk s) (row_net s)
            (gpu_rows s) (calls s).

Definition set_batt_label (v : string) (s : Overlay) : Overlay :=
  mkOverlay (previous_net s) v (row_cpu s) (row_ram s) (row_disk s) (row_net s)
            (gpu_rows s) (calls s).

Definition set_row_cpu (v : StatRow) (s : Overlay) : Overlay :=
  mkOverlay (previous_net s) (batt_label s) v (row_ram s) (row_disk s) (row_net s)
            (gpu_rows s) (calls s).

Definition set_row_ram (v : StatRow) (s : Overlay) : Overlay :=
  mkOverlay (previous_net s) (batt_label s) (row_cpu s) v (row_disk s) (row_net s)
            (gpu_rows s) (calls s).

Definition set_row_disk (v : StatRow) (s : Overlay) : Overlay :=
  mkOverlay (previous_net s) (batt_label s) (row_cpu s) (row_ram s) v (row_net s)
            (gpu_rows s) (calls s).

Definition set_row_net (v : StatRow) (s : Overlay) : Overlay :=
  mkOverlay (previous_net s) (batt_label s) (row_cpu s) (row_ram s) (row_disk s) v
            (gpu_rows s) (calls s).

Definition set_gpu_rows (v : list (string * StatRow)) (s : Overlay) : Overlay :=
  mkOverlay (previous_net s) (batt_label s) (row_cpu s) (row_ram s) (row_disk s)
            (row_net s) v (calls s).

Definition log_call (c : call) (s : Overlay) : Overlay :=
  mkOverlay (previous_net s) (batt_label s) (row_cpu s) (row_ram s) (row_disk s)
            (row_net s) (gpu_rows s) (calls s ++ [c])%list.

(** ** Commands: state that survives an exception

    A method body is a [Cmd]: it transforms the object and either returns
    or raises.  What was assigned before a [raise] stays assigned, as in
    Python. *)

Definition Cmd (A : Type) : Type := Overlay -> Overlay * Py.result A.

Definition cret {A} (a : A) : Cmd A := fun s => (s, inr a).

Definition cbind {A B} (c : Cmd A) (k : A -> Cmd B) : Cmd B :=
  fun s => match c s with
           | (s', inr a) => k a s'
           | (s', inl e) => (s', inl e)
           end.

Notation "x <- c ;; k" := (cbind c (fun x => k))
  (at level 61, c at next level, right associativity).
Notation "c ;; k" := (cbind c (fun _ => k))
  (at level 61, right associativity).

(** [try: body  except Exception: handler] *)
Definition try_except {A} (body handler : Cmd A) : Cmd A :=
  fun s => match body s with
           | (s', inr a) => (s', inr a)
           | (s', inl _) => handler s'
           end.

Definition lift {A} (r : Py.result A) : Cmd A := fun s => (s, r).
Definition gets {A} (f : Overlay -> A) : Cmd A := fun s => (s, inr (f s)).
Definition modify (f : Overlay -> Overlay) : Cmd unit := fun s => (f s, inr tt).

(** A call into a GPU library: recorded, then answered by the host. *)
Definition ask {A} (c : call) (answer : Py.result A) : Cmd A :=
  fun s => (log_call c s, answer).

(** [for x in xs: body] *)
Fixpoint for_each {X} (xs : list X) (body : X -> Cmd unit) : Cmd unit :=
  match xs with
  | [] => cret tt
  | x :: xs' => body x ;; for_each xs' body
  end.

(** A loop that appends one result per element to a local list. *)
Fixpoint collect {X Y} (xs : list X) (body : X -> Cmd Y) : Cmd (list Y) :=
  match xs with
  | [] => cret []
  | x :: xs' => y <- body x ;; ys <- collect xs' body ;; cret (y :: ys)
  end.

(** The final object of a command that is run for its effect. *)
Definition exec {A} (c : Cmd A) (s : Overlay) : Overlay := fst (c s).

(** ** [update_battery] *)

Definition update_battery (h : Host) : Cmd unit :=
  try_except
    (batt <- lift (sensors_battery h) ;;
     match batt with
     | None => modify (set_batt_label "No battery")
     | Some batt =>
         percent <- lift (Py.int (percent batt)) ;;
         let plugged := power_plugged batt in
         let '(plug_symbol, status) :=
           match plugged with
           | Some true => ("🔌", "Charging")
           | _ => ("🔋", "On Battery")
           end in
         modify (set_batt_label
                   (plug_symbol ++ " " ++ Py.str_of_int percent ++ "% (" ++ status ++ ")"))
     end)
    (modify (set_batt_label "Battery: --")).

(** ** GPU rows: enumeration *)

Section Detection.

(** [bytes.decode(errors="ignore")] *)
Variable decode_ignore : list Byte.byte -> string.

Definition name_text (n : nvml_name) : string :=
  match n with
  | NameBytes raw => decode_ignore raw
  | NameStr s => s
  end.

(** [f"GPU{idx} ({name})"] *)
Definition gpu_label (idx : nat) (name : string) : string :=
  "GPU" ++ Py.str_of_int (Z.of_nat idx) ++ " (" ++ name ++ ")".

(** [enumerate(gpu_names)] turned into rows, counting from [idx]. *)
Fixpoint named_rows (idx : nat) (gpu_names : list string) : list (string * StatRow) :=
  match gpu_names with
  | [] => []
  | name :: rest => (name, StatRow_init (gpu_label idx name)) :: named_rows (S idx) rest
  end.

(** The first [try] of [detect_gpus_and_populate]: the local variables
    [(gpu_names, gpu_count)] after it. *)
Definition detect_native (caps : Caps) (h : Host) : Cmd (list string * nat) :=
  if NVML caps then
    try_except
      (gpu_count <- ask CallNvmlDeviceGetCount (nvmlDeviceGetCount h) ;;
       gpu_names <- collect (seq 0 gpu_count) (fun i =>
         hd <- ask (CallNvmlDeviceGetHandleByIndex i) (nvmlDeviceGetHandleByIndex h i) ;;
         name <- ask (CallNvmlDeviceGetName hd) (nvmlDeviceGetName h hd) ;;
         cret (name_text name)) ;;
       cret (gpu_names, gpu_count))
      (cret ([], 0%nat))
  else cret ([], 0%nat).

(** The second [try]: entered only with [gpu_names] empty. *)
Definition detect_fallback (caps : Caps) (h : Host) (found : list string * nat)
  : Cmd (list string * nat) :=
  let '(gpu_names, gpu_count) := found in
  if (match gpu_names with [] => true | _ => false end) && GPUtil_available caps then
    try_except
      (gpus <- ask CallGetGPUs (getGPUs h) ;;
       cret ((gpu_names ++ map gpu_name gpus)%list, List.length gpus))
      (cret ([], 0%nat))
  else cret (gpu_names, gpu_count).

Definition detect_gpus_and_populate (caps : Caps) (h : Host) : Cmd unit :=
  found <- detect_native caps h ;;
  found <- detect_fallback caps h found ;;
  let '(gpu_names, gpu_count) := found in
  modify (set_gpu_rows []) ;;
  if Nat.eqb gpu_count 0 then
    modify (fun s => set_gpu_rows (gpu_rows s ++ [("GPU", StatRow_init "GPU")])%list s)
  else
    modify (fun s => set_gpu_rows (gpu_rows s ++ named_rows 0 gpu_names)%list s).

End Detection.

(** ** GPU rows: sampling at a tick *)

(** [self.gpu_rows[idx][1].update_value(v)] *)
Fixpoint update_nth (idx : nat) (v : Py.value) (rows : list (string * StatRow))
  : list (string * StatRow) :=
  match rows, idx with
  | [], _ => []
  | (name, row) :: rest, O => (name, update_value row v) :: rest
  | r :: rest, S i => r :: update_nth i v rest
  end.

Definition update_row (idx : nat) (v : Py.value) : Cmd unit :=
  modify (fun s => set_gpu_rows (update_nth idx v (gpu_rows s)) s).

(** [for name, row in self.gpu_rows: row.update_value(0)] *)
Definition zero_all_rows : Cmd unit :=
  n <- gets (fun s => List.length (gpu_rows s)) ;;
  for_each (seq 0 n) (fun idx => update_row idx (Py.Int 0)).

Definition f100 : Py.float := Eval cbv in Py.Z2F 100.

Definition _update_gpus_gputil (caps : Caps) (h : Host) : Cmd unit :=
  if GPUtil_available caps then
    try_except
      (gpus <- ask CallGetGPUs (getGPUs h) ;;
       n <- gets (fun s => List.length (gpu_rows s)) ;;
       for_each (seq 0 n) (fun idx =>
         if (idx <? List.length gpus)%nat then
           g <- lift (Py.index gpus idx) ;;
           load <- lift (Py.int_of_float (Py.fmul (gpu_load g) f100)) ;;
           update_row idx (Py.Int load)
         else update_row idx (Py.Int 0)))
      zero_all_rows
  else zero_all_rows.

(** The GPU part of [update_stats]. *)
Definition update_gpus (caps : Caps) (h : Host) : Cmd unit :=
  if NVML caps then
    try_except
      (count <- ask CallNvmlDeviceGetCount (nvmlDeviceGetCount h) ;;
       n <- gets (fun s => List.length (gpu_rows s)) ;;
       for_each (seq 0 (Nat.max n count)) (fun idx =>
         len <- gets (fun s => List.length (gpu_rows s)) ;;
         if (idx <? count)%nat && (idx <? len)%nat then
           hd <- ask (CallNvmlDeviceGetHandleByIndex idx) (nvmlDeviceGetHandleByIndex h idx) ;;
           util <- ask (CallNvmlDeviceGetUtilizationRates hd)
                       (nvmlDeviceGetUtilizationRates h hd) ;;
           update_row idx (Py.Int util)
         else if (idx <? len)%nat then update_row idx (Py.Int 0)
         else cret tt))
      (_update_gpus_gputil caps h)
  else _update_gpus_gputil caps h.

(** ** Network throughput *)

(** One step of the loop that keeps the interface with the largest
    [bytes_sent + bytes_recv]; the state is [(top_nic, top_total)]. *)
Definition pick_top (acc : option (string * snetio) * Z) (item : string * snetio)
  : option (string * snetio) * Z :=
  let total := bytes_sent (snd item) + bytes_recv (snd item) in
  if total >? snd acc then (Some item, total) else acc.

Definition select_top (pernic : list (string * snetio)) : option (string * snetio) :=
  fst (fold_left pick_top pernic (None, 0)).

(** [dt = now - previous["time"]; if dt <= 0: dt = 1.0] *)
Definition elapsed (now : Py.float) (prev : NetState) : Py.float :=
  Py.fsub now (net_time prev).

Definition divisor (dt : Py.float) : Py.float :=
  if Py.le0 dt then Py.f1 else dt.

(** [int((kbps / 102400) * 100)] for
    [kbps = (sent_delta + recv_delta) / 1024.0], where the two deltas are
    the counter differences divided by [dt]. *)
Definition throughput_percent (sent_diff recv_diff : Z) (dt : Py.float) : Py.result Z :=
  let* fs := Py.float_of_int sent_diff in
  let* sent_delta := Py.truediv fs dt in
  let* fr := Py.float_of_int recv_diff in
  let* recv_delta := Py.truediv fr dt in
  let* kbps := Py.truediv (Py.fadd sent_delta recv_delta) Py.f1024 in
  let* c := Py.float_of_int 102400 in
  let* ratio := Py.truediv kbps c in
  let* hundred := Py.float_of_int 100 in
  Py.int_of_float (Py.fmul ratio hundred).

(** The [pct] of the branch taken when the interface is the one of
    [self.previous_net]. *)
Definition net_pct (prev : NetState) (curr : snetio) (now : Py.float) : Py.result Z :=
  let dt := divisor (elapsed now prev) in
  let* n := throughput_percent (bytes_sent curr - net_sent prev)
                               (bytes_recv curr - net_recv prev) dt in
  Py.ret (Z.min 100 n).

Definition row_net_update (v : Py.value) : Cmd unit :=
  modify (fun s => set_row_net (update_value (row_net s) v) s).

(** The network part of [update_stats]. *)
Definition update_net (h : Host) : Cmd unit :=
  try_except
    (pernic <- lift (net_io_counters h) ;;
     match select_top pernic with
     | Some (nic_name, curr) =>
         let now := time h in
         previous <- gets previous_net ;;
         match previous with
         | Some prev =>
             if String.eqb (net_name prev) nic_name then
               pct <- lift (net_pct prev curr now) ;;
               modify (fun s => set_row_net
                                  (setText (row_net s) ("NETWORK (" ++ nic_name ++ ")")) s) ;;
               row_net_update (Py.Int pct)
             else row_net_update (Py.Int 0)
         | None => row_net_update (Py.Int 0)
         end ;;
         modify (set_previous_net
                   (Some {| net_name := nic_name;
                            net_sent := bytes_sent curr;
                            net_recv := bytes_recv curr;
                            net_time := now |}))
     | None => row_net_update (Py.Int 0)
     end)
    (row_net_update (Py.Int 0)).

(** ** [update_stats]: one tick *)

Definition or_zero (r : Py.result Py.value) : Py.value :=
  match r with
  | inr v => v
  | inl _ => Py.Float (S754_zero false)
  end.

Definition update_stats (caps : Caps) (h : Host) : Cmd unit :=
  update_battery h ;;
  modify (fun s => set_row_cpu (update_value (row_cpu s) (or_zero (cpu_percent h))) s) ;;
  modify (fun s => set_row_ram (update_value (row_ram s) (or_zero (virtual_memory_percent h))) s) ;;
  modify (fun s => set_row_disk (update_value (row_disk s) (or_zero (disk_usage_percent h))) s) ;;
  update_gpus caps h ;;
  update_net h.

(** The object after a tick, and after a sequence of ticks. *)
Definition tick (caps : Caps) (s : Overlay) (h : Host) : Overlay :=
  exec (update_stats caps h) s.

Definition ticks (caps : Caps) (s : Overlay) (hs : list Host) : Overlay :=
  fold_left (tick caps) hs s.

(** [OverlayWindow.__init__], as far as the sampler is concerned: no
    previous network sample, the four fixed rows, then the GPU rows. *)
Definition Overlay_built : Overlay :=
  {| previous_net := None;
     batt_label := "";
     row_cpu := StatRow_init "CPU";
     row_ram := StatRow_init "RAM";
     row_disk := StatRow_init "DISK";
     row_net := StatRow_init "NETWORK";
     gpu_rows := [];
     calls := [] |}.

Definition Overlay_init (decode_ignore : list Byte.byte -> string)
           (caps : Caps) (h : Host) : Overlay :=
  exec (detect_gpus_and_populate decode_ignore caps h) Overlay_built.

(** What the rows show, as numbers and as names. *)
Definition gpu_values (s : Overlay) : list Z := map (fun r => bar (snd r)) (gpu_rows s).
Definition gpu_names_of (s : Overlay) : list string := map fst (gpu_rows s).

(** ** Panes: [toggle_tab], [show_live_from_tab], [open_settings] *)

Inductive ViewPane : Set := Live | Info | About | Settings.

(** The widgets the three methods read and write: the checked state of
    the three checkable buttons, the visibility of the home button and of
    the pane areas.  [settings_area] is [None] until [open_settings] has
    created the attribute ([hasattr(self, "settings_area")] is false). *)
Record Panes : Set := mkPanes {
  tab_info : bool;
  tab_about : bool;
  btn_settings : bool;
  home_btn : bool;
  live_area : bool;
  info_area : bool;
  about_area : bool;
  settings_area : option bool
}.

(** After [build_ui]. *)
Definition Panes_init : Panes :=
  {| tab_info := false; tab_about := false; btn_settings := false;
     home_btn := false; live_area := true; info_area := false;
     about_area := false; settings_area := None |}.

(** [if hasattr(self, "settings_area"): self.settings_area.setVisible(False)] *)
Definition hide_settings (a : option bool) : option bool :=
  match a with
  | Some _ => Some false
  | None => None
  end.

Definition toggle_tab (which : string) (self : Panes) : Panes :=
  if String.eqb which "info" then
    if tab_info self then
      {| tab_info := tab_info self; tab_about := false;
         btn_settings := btn_settings self;
         home_btn := true; live_area := false; info_area := true;
         about_area := false; settings_area := hide_settings (settings_area self) |}
    else
      {| tab_info := tab_info self; tab_about := tab_about self;
         btn_settings := btn_settings self;
         home_btn := false; live_area := true; info_area := false;
         about_area := about_area self; settings_area := settings_area self |}
  else if String.eqb which "about" then
    if tab_about self then
      {| tab_info := false; tab_about := tab_about self;
         btn_settings := btn_settings self;
         home_btn := true; live_area := false; info_area := false;
         about_area := true; settings_area := hide_settings (settings_area self) |}
    else
      {| tab_info := tab_info self; tab_about := tab_about self;
         btn_settings := btn_settings self;
         home_btn := false; live_area := true; info_area := info_area self;
         about_area := false; settings_area := settings_area self |}
  else self.

Definition show_live_from_tab (self : Panes) : Panes :=
  {| tab_info := false; tab_about := false; btn_settings := btn_settings self;
     home_btn := false; live_area := true; info_area := false;
     about_area := false; settings_area := hide_settings (settings_area self) |}.

Definition open_settings (self : Panes) : Panes :=
  {| tab_info := false; tab_about := false; btn_settings := btn_settings self;
     home_btn := true; live_area := false; info_area := false;
     about_area := false; settings_area := Some true |}.

(** A click on a checkable button flips its checked state before the
    [clicked] signal runs the connected method. *)
Definition check_info (self : Panes) : Panes :=
  mkPanes (negb (tab_info self)) (tab_about self) (btn_settings self) (home_btn self)
          (live_area self) (info_area self) (about_area self) (settings_area self).

Definition check_about (self : Panes) : Panes :=
  mkPanes (tab_info self) (negb (tab_about self)) (btn_settings self) (home_btn self)
          (live_area self) (info_area self) (about_area self) (settings_area self).

Definition check_settings (self : Panes) : Panes :=
  mkPanes (tab_info self) (tab_about self) (negb (btn_settings self)) (home_btn self)
          (live_area self) (info_area self) (about_area self) (settings_area self).

(** The user's requests, as wired in [build_ui]: the Info and About tabs
    to [toggle_tab], the settings button to [open_settings], the home
    button to [show_live_from_tab]. *)
Definition requestPane (p : ViewPane) (self : Panes) : Panes :=
  match p with
  | Info => toggle_tab "info" (check_info self)
  | About => toggle_tab "about" (check_about self)
  | Settings => open_settings (check_settings self)
  | Live => show_live_from_tab self
  end.

(** The panes on screen. *)
Definition is_shown (self : Panes) (p : ViewPane) : bool :=
  match p with
  | Live => live_area self
  | Info => info_area self
  | About => about_area self
  | Settings => match settings_area self with
                | Some v => v
                | None => false
                end
  end.

Definition shown_panes (self : Panes) : list ViewPane :=
  filter (is_shown self) [Live; Info; About; Settings].

(** [p] is the active pane: it is the only one on screen. *)
Definition active (self : Panes) (p : ViewPane) : Prop := shown_panes self = [p].

(** The states the window can be in: after [build_ui] and any number of
    requests. *)
Inductive reachable : Panes -> Prop :=
| reach_init : reachable Panes_init
| reach_request p self : reachable self -> reachable (requestPane p self).

Definition ViewPane_eqb (p q : ViewPane) : bool :=
  match p, q with
  | Live, Live | Info, Info | About, About | Settings, Settings => true
  | _, _ => false
  end.

(** The value a row shows after an update, as a number. *)
Definition shown (percent : Py.value) : Z :=
  match percent with
  | Py.None_ => 0
  | _ => match Py.int percent with
         | inr n => clamp_percent n
         | inl _ => 0
         end
  end.

(** What holds in every state the window can reach: exactly one pane is on
    screen, the two tab buttons are checked exactly when their pane is, and
    the home button is visible exactly when the live pane is not. *)
Definition panes_inv (s : Panes) : Prop :=
  (exists p, active s p) /\
  tab_info s = info_area s /\
  tab_about s = about_area s /\
  home_btn s = negb (live_area s).

(** ** Hosts used in examples

    A host on which nothing is installed and nothing moves; the other
    hosts of the examples change the answers that matter. *)
Definition quiet_host : Host :=
  {| sensors_battery := inr None;
     cpu_percent := inr (Py.Float (S754_zero false));
     virtual_memory_percent := inr (Py.Float (S754_zero false));
     disk_usage_percent := inr (Py.Float (S754_zero false));
     nvmlDeviceGetCount := inl Py.BackendError;
     nvmlDeviceGetHandleByIndex := fun _ => inl Py.BackendError;
     nvmlDeviceGetName := fun _ => inl Py.BackendError;
     nvmlDeviceGetUtilizationRates := fun _ => inl Py.BackendError;
     getGPUs := inl Py.BackendError;
     net_io_counters := inr [];
     time := S754_zero false |}.

Definition with_battery (b : Py.result (option sbattery)) (h : Host) : Host :=
  mkHost b (cpu_percent h) (virtual_memory_percent h) (disk_usage_percent h)
         (nvmlDeviceGetCount h) (nvmlDeviceGetHandleByIndex h) (nvmlDeviceGetName h)
         (nvmlDeviceGetUtilizationRates h) (getGPUs h) (net_io_counters h) (time h).

Definition with_net (pernic : Py.result (list (string * snetio))) (now : Py.float)
           (h : Host) : Host :=
  mkHost (sensors_battery h) (cpu_percent h) (virtual_memory_percent h)
         (disk_usage_percent h) (nvmlDeviceGetCount h) (nvmlDeviceGetHandleByIndex h)
         (nvmlDeviceGetName h) (nvmlDeviceGetUtilizationRates h) (getGPUs h) pernic now.

(** NVML answering with [count] devices, device [i] having handle [i],
    the name given by [names] and the utilization given by [utils]. *)
Definition with_nvml (count : Py.result nat) (names : handle -> Py.result nvml_name)
           (utils : handle -> Py.result Z) (h : Host) : Host :=
  mkHost (sensors_battery h) (cpu_percent h) (virtual_memory_percent h)
         (disk_usage_percent h) count (fun i => inr i) names utils (getGPUs h)
         (net_io_counters h) (time h).

Definition with_gputil (gpus : Py.result (list GPU)) (h : Host) : Host :=
  mkHost (sensors_battery h) (cpu_percent h) (virtual_memory_percent h)
         (disk_usage_percent h) (nvmlDeviceGetCount h) (nvmlDeviceGetHandleByIndex h)
         (nvmlDeviceGetName h) (nvmlDeviceGetUtilizationRates h) gpus
         (net_io_counters h) (time h).

(** ** Statements about commands *)

(** [c] relates every state to the state it leaves, whether it returns or
    raises. *)
Definition keeps {A} (R : Overlay -> Overlay -> Prop) (c : Cmd A) : Prop :=
  forall s, R s (fst (c s)).

(** [c] never raises. *)
Definition returns {A} (c : Cmd A) : Prop :=
  forall s, exists a, snd (c s) = inr a.

(** The network fields are untouched. *)
Definition same_net (s s' : Overlay) : Prop :=
  previous_net s' = previous_net s /\ row_net s' = row_net s.

(** The GPU rows are untouched. *)
Definition same_gpu_rows (s s' : Overlay) : Prop := gpu_rows s' = gpu_rows s.

(** The GPU rows are the same rows (names and labels, in order); what
    they show may differ. *)
Definition row_ids (rows : list (string * StatRow)) : list (string * string) :=
  map (fun r => (fst r, label (snd r))) rows.

Definition same_row_ids (s s' : Overlay) : Prop :=
  row_ids (gpu_rows s') = row_ids (gpu_rows s).

(** What [update_net] leaves in [self.previous_net] and [self.row_net],
    from what it finds there. *)
Definition net_step (h : Host) (previous : option NetState) (row : StatRow)
  : option NetState * StatRow :=
  match net_io_counters h with
  | inl _ => (previous, update_value row (Py.Int 0))
  | inr pernic =>
      match select_top pernic with
      | None => (previous, update_value row (Py.Int 0))
      | Some (nic_name, curr) =>
          let sample := {| net_name := nic_name; net_sent := bytes_sent curr;
                           net_recv := bytes_recv curr; net_time := time h |} in
          match previous with
          | None => (Some sample, update_value row (Py.Int 0))
          | Some prev =>
              if String.eqb (net_name prev) nic_name then
                match net_pct prev curr (time h) with
                | inr pct =>
                    (Some sample,
                     update_value (setText row ("NETWORK (" ++ nic_name ++ ")")) (Py.Int pct))
                | inl _ => (previous, update_value row (Py.Int 0))
                end
              else (Some sample, update_value row (Py.Int 0))
          end
      end
  end.

(** The cumulative traffic of an interface, as the selection loop
    computes it. *)
Definition total (item : string * snetio) : Z :=
  bytes_sent (snd item) + bytes_recv (snd item).

(** The sample a tick stores for the interface it selected. *)
Definition sample_of (nic_name : string) (curr : snetio) (now : Py.float) : NetState :=
  {| net_name := nic_name; net_sent := bytes_sent curr;
     net_recv := bytes_recv curr; net_time := now |}.

(** ** Magnitudes of doubles

    [abs_lt B f]: [f] is a zero or a finite double below [2^B] in absolute
    value, with an exponent in the range of the format.  [abs_ge L f]: [f]
    is a finite double of absolute value at least [2^L], or an infinity. *)
Definition abs_lt (B : Z) (f : Py.float) : Prop :=
  match f with
  | S754_zero _ => True
  | S754_finite _ m e => Zpos m < 2 ^ (B - e) /\ e <= Py.emax - Py.prec
  | _ => False
  end.

Definition abs_ge (L : Z) (f : Py.float) : Prop :=
  match f with
  | S754_finite _ m e => e <= L -> 2 ^ (L - e) <= Zpos m
  | S754_infinity _ => True
  | _ => False
  end.

(** The sign of a double that has one. *)
Definition has_sign (sx : bool) (f : Py.float) : Prop :=
  match f with
  | S754_zero s | S754_infinity s | S754_finite s _ _ => s = sx
  | S754_nan => False
  end.

(** A byte counter as psutil reports it: an unsigned 64-bit number. *)
Definition counter (z : Z) : Prop := 0 <= z < 2 ^ 64.

(** An elapsed time the rate can be computed from: zero or negative (the
    guard then divides by 1.0), or at least [2^-64] seconds.  A NaN is
    neither. *)
Definition usable_elapsed (dt : Py.float) : Prop :=
  Py.le0 dt = true \/ abs_ge (-64) dt.

(** The double [(((S/T + R/T) / 1024.0) / 102400) * 100] the code passes to
    [int()], for counter differences [S] and [R] and a divisor [T]. *)
Definition throughput_value (S R : Z) (T : Py.float) : Py.float :=
  Py.fmul
    (Py.fdiv (Py.fdiv (Py.fadd (Py.fdiv (Py.Z2F S) T) (Py.fdiv (Py.Z2F R) T)) Py.f1024)
             (Py.Z2F 102400))
    (Py.Z2F 100).

(** ** The spec's network formula

    [min(100, round(((S+R)/T/1024)/102400*100))] over the rationals, with
    Python's [round] (to the nearest integer, ties to the even one). *)
Definition py_round (q : QArith_base.Q) : Z :=
  let f := Qround.Qfloor q in
  match QArith_base.Qcompare (QArith_base.Qminus q (QArith_base.inject_Z f))
                             (QArith_base.Qmake 1 2) with
  | Lt => f
  | Gt => f + 1
  | Eq => if Z.even f then f else f + 1
  end.

Definition spec_net_percent (S R : Z) (T : QArith_base.Q) : Z :=
  Z.min 100
    (py_round
       (QArith_base.Qmult
          (QArith_base.Qdiv
             (QArith_base.Qdiv (QArith_base.Qdiv (QArith_base.inject_Z (S + R)) T)
                               (QArith_base.inject_Z 1024))
             (QArith_base.inject_Z 102400))
          (QArith_base.inject_Z 100))).

(** ** What the GPU rows show after sampling

    The utilization NVML reports for device [idx] at a tick, and the load
    GPUtil reports for it, as the two loops obtain them. *)
Definition nvml_util (h : Host) (idx : nat) : Py.result Z :=
  let* hd := nvmlDeviceGetHandleByIndex h idx in
  nvmlDeviceGetUtilizationRates h hd.

Definition gputil_load (gpus : list GPU) (idx : nat) : Py.result Z :=
  let* g := Py.index gpus idx in
  Py.int_of_float (Py.fmul (gpu_load g) f100).

Definition is_ok {A} (r : Py.result A) : bool :=
  match r with
  | inr _ => true
  | inl _ => false
  end.

Definition percent_of (r : Py.result Z) : Z :=
  match r with
  | inr n => clamp_percent n
  | inl _ => 0
  end.

(** The numbers [_update_gpus_gputil] leaves on [n] rows. *)
Definition fallback_values (caps : Caps) (h : Host) (n : nat) : list Z :=
  if GPUtil_available caps then
    match getGPUs h with
    | inr gpus =>
        if forallb (fun idx => is_ok (gputil_load gpus idx))
                   (seq 0 (Nat.min n (List.length gpus)))
        then map (fun idx => if (idx <? List.length gpus)%nat
                             then percent_of (gputil_load gpus idx) else 0)
                 (seq 0 n)
        else repeat 0 n
    | inl _ => repeat 0 n
    end
  else repeat 0 n.

(** The numbers the NVML loop leaves on [n] rows when every query it makes
    succeeds. *)
Definition native_values (h : Host) (count n : nat) : option (list Z) :=
  if forallb (fun idx => is_ok (nvml_util h idx)) (seq 0 (Nat.min count n))
  then Some (map (fun idx => if (idx <? count)%nat
                             then percent_of (nvml_util h idx) else 0)
                 (seq 0 n))
  else None.

(** The numbers the GPU part of a tick leaves on [n] rows. *)
Definition sampled_values (caps : Caps) (h : Host) (n : nat) : list Z :=
  if NVML caps then
    match nvmlDeviceGetCount h with
    | inr count =>
        match native_values h count n with
        | Some vs => vs
        | None => fallback_values caps h n
        end
    | inl _ => fallback_values caps h n
    end
  else fallback_values caps h n.

(** One iteration of a loop over the rows: with [length rows = n], the
    body either updates row [idx] with a value or raises and leaves the
    rows alone. *)
Definition row_step (n : nat) (body : Cmd unit) (idx : nat) (r : Py.result Py.value)
  : Prop :=
  forall s, List.length (gpu_rows s) = n ->
    match r with
    | inr v => snd (body s) = inr tt /\
               gpu_rows (fst (body s)) = update_nth idx v (gpu_rows s)
    | inl e => snd (body s) = inl e /\ gpu_rows (fst (body s)) = gpu_rows s
    end.

Definition value_of (r : Py.result Py.value) : Py.value :=
  match r with
  | inr v => v
  | inl _ => Py.None_
  end.

Definition update_rows (val : nat -> Py.result Py.value) (idxs : list nat)
           (rows : list (string * StatRow)) : list (string * StatRow) :=
  fold_left (fun rows idx => update_nth idx (value_of (val idx)) rows) idxs rows.

Definition show_value (v : Py.value) (r : string * StatRow) : string * StatRow :=
  (fst r, update_value (snd r) v).

(** The value the NVML loop gives row [idx] among [n] rows, and the value
    the GPUtil loop gives it. *)
Definition nvml_row_value (h : Host) (count n idx : nat) : Py.result Py.value :=
  if ((idx <? count) && (idx <? n))%nat then
    match nvml_util h idx with
    | inr u => inr (Py.Int u)
    | inl e => inl e
    end
  else inr (Py.Int 0).

Definition gputil_row_value (gpus : list GPU) (idx : nat) : Py.result Py.value :=
  if (idx <? List.length gpus)%nat then
    match gputil_load gpus idx with
    | inr l => inr (Py.Int l)
    | inl e => inl e
    end
  else inr (Py.Int 0).

(** Hosts of the GPU examples: two NVML devices named GTX and RTX. *)
Definition two_gpus (utils : handle -> Py.result Z) : Host :=
  with_nvml (inr 2%nat)
            (fun hd => inr (NameStr (if Nat.eqb hd 0 then "GTX" else "RTX")))
            utils quiet_host.

(** ** What enumeration finds

    The names the native loop of [detect_gpus_and_populate] gathers for the
    devices [idxs], and for all the devices NVML counts. *)
Definition native_name (decode_ignore : list Byte.byte -> string) (h : Host) (i : nat)
  : Py.result string :=
  let* hd := nvmlDeviceGetHandleByIndex h i in
  let* name := nvmlDeviceGetName h hd in
  inr (name_text decode_ignore name).

Fixpoint native_names_from (decode_ignore : list Byte.byte -> string) (h : Host)
         (idxs : list nat) : Py.result (list string) :=
  match idxs with
  | [] => inr []
  | i :: rest =>
      let* name := native_name decode_ignore h i in
      let* names := native_names_from decode_ignore h rest in
      inr (name :: names)
  end.

Definition native_names (decode_ignore : list Byte.byte -> string) (h : Host)
  : Py.result (list string) :=
  let* count := nvmlDeviceGetCount h in
  native_names_from decode_ignore h (seq 0 count).

(** [(gpu_names, gpu_count)] after the first [try], and after the second. *)
Definition native_found (decode_ignore : list Byte.byte -> string) (caps : Caps)
           (h : Host) : list string * nat :=
  if NVML caps then
    match nvmlDeviceGetCount h with
    | inr count =>
        match native_names_from decode_ignore h (seq 0 count) with
        | inr names => (names, count)
        | inl _ => ([], 0%nat)
        end
    | inl _ => ([], 0%nat)
    end
  else ([], 0%nat).

Definition fallback_consulted (caps : Caps) (found : list string * nat) : bool :=
  match fst found with
  | [] => GPUtil_available caps
  | _ => false
  end.

Definition fallback_found (caps : Caps) (h : Host) (found : list string * nat)
  : list string * nat :=
  if fallback_consulted caps found then
    match getGPUs h with
    | inr gpus => ((fst found ++ map gpu_name gpus)%list, List.length gpus)
    | inl _ => ([], 0%nat)
    end
  else found.

(** No call into GPUtil is made between two states. *)
Definition no_gputil_call (s s' : Overlay) : Prop :=
  In CallGetGPUs (calls s') -> In CallGetGPUs (calls s).

(** ** The placeholder row *)



(** A row whose text is the percentage its bar holds (a bar never set
    holds -1 under the text "0%"). *)
Definition in_step (r : StatRow) : Prop :=
  value_label r = Py.str_of_int (bar r) ++ "%" \/ (bar r = -1 /\ value_label r = "0%").

Definition rows_in_step (s s' : Overlay) : Prop :=
  Forall (fun r => in_step (snd r)) (gpu_rows s) ->
  Forall (fun r => in_step (snd r)) (gpu_rows s').


(** ** Sequences of requests *)

(** The window after the user's requests [ps], made in order from the
    state [self]. *)
Definition requests (ps : list ViewPane) (self : Panes) : Panes :=
  fold_left (fun s p => requestPane p s) ps self.

(** How many of the requests [ps] are for the pane [p]. *)
Definition requested (p : ViewPane) (ps : list ViewPane) : nat :=
  List.length (filter (ViewPane_eqb p) ps).

(** ** The network sample over many ticks *)

(** A reading of [time.time()]: zero, or a finite double whose exponent is
    at least -64 (every double of magnitude [2^-11] or more is one; the
    seconds since 1970 are). *)
Definition timestamp (t : Py.float) : Prop :=
  match t with
  | S754_zero _ => True
  | S754_finite _ _ e => -64 <= e
  | _ => False
  end.

(** A carried sample made of two 64-bit counters and a timestamp; a
    window whose carried sample, if any, is such; a host whose clock and
    interface counters are such. *)
Definition sample_ok (prev : NetState) : Prop :=
  counter (net_sent prev) /\ counter (net_recv prev) /\ timestamp (net_time prev).

Definition carried_ok (s : Overlay) : Prop :=
  forall prev, previous_net s = Some prev -> sample_ok prev.

Definition host_ok (h : Host) : Prop :=
  timestamp (time h) /\
  forall pernic, net_io_counters h = inr pernic ->
    Forall (fun it => counter (bytes_sent (snd it)) /\ counter (bytes_recv (snd it))) pernic.

(** The sample carried after a tick on which nothing raises: the tick's
    selection if there is one, the sample carried before otherwise. *)
Definition carried_after (previous : option NetState) (h : Host) : option NetState :=
  match net_io_counters h with
  | inr pernic =>
      match select_top pernic with
      | Some (nic_name, curr) => Some (sample_of nic_name curr (time h))
      | None => previous
      end
  | inl _ => previous
  end.

(** A double that is not above zero: a zero, a negative number or the
    negative infinity; [nan_or_not_positive] also admits NaN. *)
Definition not_positive (f : Py.float) : Prop :=
  match f with
  | S754_zero _ => True
  | S754_infinity s | S754_finite s _ _ => s = true
  | S754_nan => False
  end.

Definition nan_or_not_positive (f : Py.float) : Prop :=
  f = S754_nan \/ not_positive f.

(** ** What a row displays *)

(** A row that displays a percentage: the bar holds a number between 0 and
    100 and the text is that number followed by "%". *)
Definition displays_percent (r : StatRow) : Prop :=
  0 <= bar r <= 100 /\ value_label r = Py.str_of_int (bar r) ++ "%".

(** The three system rows are untouched. *)
Definition same_system_rows (s s' : Overlay) : Prop :=
  row_cpu s' = row_cpu s /\ row_ram s' = row_ram s /\ row_disk s' = row_disk s.

(** No call into a GPU library is made between two states. *)
Definition same_calls (s s' : Overlay) : Prop := calls s' = calls s.

(** ** [enable_layered] *)

Definition gwl_exstyle : Z := -20.
Definition ws_ex_layered : Z := 0x80000.
Definition ws_ex_toolwindow : Z := 0x80.

(** [enable_layered(hwnd)]: the arguments of the call to
    [user32.SetWindowLongW], if it is made.  [GetWindowLongW] answers the
    call [user32.GetWindowLongW(hwnd, index)]. *)
Definition enable_layered (is_windows : bool) (GetWindowLongW : Z -> Z -> Z) (hwnd : Z)
  : option (Z * Z * Z) :=
  if negb is_windows then None
  else
    let style := GetWindowLongW hwnd gwl_exstyle in
    let style := Z.lor style (Z.lor ws_ex_layered ws_ex_toolwindow) in
    Some (hwnd, gwl_exstyle, style).

(** A window whose extended style is [style]. *)
Definition window_with_style (style : Z) : Z -> Z -> Z := fun _ _ => style.

(** ** Dragging: [mousePressEvent], [mouseMoveEvent], [mouseReleaseEvent] *)

(** Qt's [int]: 32 bits, two's complement. *)
Definition wrap32 (z : Z) : Z := (z + 2 ^ 31) mod 2 ^ 32 - 2 ^ 31.

Record QPoint : Set := mkQPoint { px : Z; py : Z }.

(** [a - b] on points. *)
Definition QPoint_sub (a b : QPoint) : QPoint :=
  mkQPoint (wrap32 (px a - px b)) (wrap32 (py a - py b)).

(** The truth value of a point: [QPoint.__bool__] is [not isNull()]. *)
Definition QPoint_bool (p : QPoint) : bool := negb ((px p =? 0) && (py p =? 0)).

Inductive CursorShape : Set := OpenHandCursor | ClosedHandCursor.

(** What the handlers read of a [QMouseEvent]: whether [button()] is
    [Qt.LeftButton], whether [buttons()] holds [Qt.LeftButton], whether the
    drag handle's geometry contains [pos()], and [globalPos()]. *)
Record QMouseEvent : Set := mkMouseEvent {
  button_is_left : bool;
  buttons_has_left : bool;
  pos_in_handle : bool;
  globalPos : QPoint
}.

(** What the handlers read and write of the window.  [frame_topLeft] is
    [frameGeometry().topLeft()], the point [move()] sets. *)
Record Drag : Set := mkDrag {
  _drag_pos : option QPoint;
  _dragging : bool;
  frame_topLeft : QPoint;
  drag_handle_cursor : CursorShape
}.

(** After [__init__]: not dragging, the handle showing the open hand, the
    window at (20, 20). *)
Definition Drag_init : Drag :=
  {| _drag_pos := None; _dragging := false;
     frame_topLeft := mkQPoint 20 20; drag_handle_cursor := OpenHandCursor |}.

Definition mousePressEvent (event : QMouseEvent) (self : Drag) : Drag :=
  if button_is_left event then
    if pos_in_handle event then
      {| _drag_pos := Some (QPoint_sub (globalPos event) (frame_topLeft self));
         _dragging := true;
         frame_topLeft := frame_topLeft self;
         drag_handle_cursor := ClosedHandCursor |}
    else
      {| _drag_pos := None; _dragging := false;
         frame_topLeft := frame_topLeft self;
         drag_handle_cursor := drag_handle_cursor self |}
  else self.

Definition mouseMoveEvent (event : QMouseEvent) (self : Drag) : Drag :=
  match _drag_pos self with
  | Some p =>
      if QPoint_bool p && buttons_has_left event && _dragging self then
        {| _drag_pos := _drag_pos self; _dragging := _dragging self;
           frame_topLeft := QPoint_sub (globalPos event) p;
           drag_handle_cursor := drag_handle_cursor self |}
      else self
  | None => self
  end.

Definition mouseReleaseEvent (self : Drag) : Drag :=
  {| _drag_pos := None; _dragging := false;
     frame_topLeft := frame_topLeft self;
     drag_handle_cursor := if _dragging self then OpenHandCursor
                           else drag_handle_cursor self |}.

(** The mouse events the window receives. *)
Inductive MouseEvent : Set :=
| Press (event : QMouseEvent)
| Move (event : QMouseEvent)
| Release.

Definition mouse (self : Drag) (ev : MouseEvent) : Drag :=
  match ev with
  | Press event => mousePressEvent event self
  | Move event => mouseMoveEvent event self
  | Release => mouseReleaseEvent self
  end.

(** A press of the left button on the drag handle. *)
Definition grabs (ev : MouseEvent) : bool :=
  match ev with
  | Press event => button_is_left event && pos_in_handle event
  | _ => false
  end.

(** A point on a screen: both coordinates below [2^29] in absolute value. *)
Definition on_screen (p : QPoint) : Prop :=
  - 2 ^ 29 < px p < 2 ^ 29 /\ - 2 ^ 29 < py p < 2 ^ 29.

(** ** [populate_info_text]: the GPU lines of the Info page *)

(** The section of [populate_info_text] that builds the local list
    [gpu_lines] is a command on that list: what was appended before a
    [raise] stays appended. *)
Definition Lines (A : Type) : Type := list string -> list string * Py.result A.

Definition lines_ret {A} (a : A) : Lines A := fun ls => (ls, inr a).

Definition lines_bind {A B} (c : Lines A) (k : A -> Lines B) : Lines B :=
  fun ls => match c ls with
            | (ls', inr a) => k a ls'
            | (ls', inl e) => (ls', inl e)
            end.

(** [try: body  except Exception: pass] *)
Definition lines_try_pass (body : Lines unit) : Lines unit :=
  fun ls => match body ls with
            | (ls', _) => (ls', inr tt)
            end.

Definition lines_call {A} (answer : Py.result A) : Lines A := fun ls => (ls, answer).

(** [gpu_lines.append(line)] *)
Definition append_line (line : string) : Lines unit := fun ls => ((ls ++ [line])%list, inr tt).

Fixpoint lines_for {X} (xs : list X) (body : X -> Lines unit) : Lines unit :=
  match xs with
  | [] => lines_ret tt
  | x :: xs' => lines_bind (body x) (fun _ => lines_for xs' body)
  end.

(** What the Info page asks beyond the sampler's calls: the [total] field
    of [nvmlDeviceGetMemoryInfo(h)], in bytes, and the [memoryTotal]
    attribute of a GPUtil device. *)
Record InfoHost : Type := mkInfoHost {
  nvmlDeviceGetMemoryInfo_total : handle -> Py.result Z;
  memoryTotal : GPU -> Py.float
}.

(** [total / (1024**3)] for an integer [total]: the double nearest to the
    quotient ([1024**3] is [2^30]); a quotient beyond the doubles raises. *)
Definition gib_of_bytes (total : Z) : Py.result Py.float :=
  match binary_normalize Py.prec Py.emax total (-30) false with
  | S754_infinity _ => Py.raise Py.OverflowError
  | f => Py.ret f
  end.

Section InfoText.

Variable decode_ignore : list Byte.byte -> string.
(** [f"{mem:.1f}"] and [f"{x}"] for a float. *)
Variable format_1f : Py.float -> string.
Variable str_float : Py.float -> string.

(** One iteration of the NVML loop, up to the line it appends. *)
Definition info_nvml_line (h : Host) (ih : InfoHost) (i : nat) : Py.result string :=
  let* hd := nvmlDeviceGetHandleByIndex h i in
  let* name := nvmlDeviceGetName h hd in
  let name := name_text decode_ignore name in
  let* total := nvmlDeviceGetMemoryInfo_total ih hd in
  let* mem := gib_of_bytes total in
  Py.ret (name ++ " — " ++ format_1f mem ++ " GB").

Definition info_gputil_line (ih : InfoHost) (g : GPU) : string :=
  gpu_name g ++ " — " ++ str_float (memoryTotal ih g) ++ " MB".

(** The [if NVML: ... elif GPUtil_available: ...] statement. *)
Definition info_gpu_section (caps : Caps) (h : Host) (ih : InfoHost) : Lines unit :=
  if NVML caps then
    lines_try_pass
      (lines_bind (lines_call (nvmlDeviceGetCount h)) (fun c =>
         lines_for (seq 0 c) (fun i =>
           lines_bind (lines_call (info_nvml_line h ih i)) (fun line =>
             append_line line))))
  else if GPUtil_available caps then
    lines_try_pass
      (lines_bind (lines_call (getGPUs h)) (fun gpus =>
         lines_for gpus (fun g => append_line (info_gputil_line ih g))))
  else lines_ret tt.

(** [gpu_lines] as the page shows it. *)
Definition info_gpu_lines (caps : Caps) (h : Host) (ih : InfoHost) : list string :=
  let gpu_lines := fst (info_gpu_section caps h ih []) in
  match gpu_lines with
  | [] => ["No dedicated GPUs detected"]
  | _ => gpu_lines
  end.

(** The lines of the devices [idxs] up to the first one whose queries
    fail. *)
Fixpoint lines_until_failure (h : Host) (ih : InfoHost) (idxs : list nat) : list string :=
  match idxs with
  | [] => []
  | i :: rest =>
      match info_nvml_line h ih i with
      | inr line => line :: lines_until_failure h ih rest
      | inl _ => []
      end
  end.

End InfoText.

(** ** The selection of a tick *)


(** * Verification *)

(** ** Display rows *)

Lemma clamp_percent_range n : 0 <= clamp_percent n <= 100.
Proof. unfold clamp_percent. lia. Qed.

Lemma clamp_percent_id n : 0 <= n <= 100 -> clamp_percent n = n.
Proof. unfold clamp_percent. lia. Qed.

Lemma shown_range v : 0 <= shown v <= 100.
Proof.
  unfold shown.
  destruct v; try lia; destruct (Py.int _); try lia; apply clamp_percent_range.
Qed.

Lemma setValue_in_range old v : 0 <= v <= 100 -> setValue old v = v.
Proof.
  intros [H0 H1]. unfold setValue.
  apply Z.leb_le in H0. apply Z.leb_le in H1. now rewrite H0, H1.
Qed.

Lemma update_value_shown self v :
  update_value self v =
  {| label := label self; bar := shown v;
     value_label := Py.str_of_int (shown v) ++ "%" |}.
Proof.
  unfold update_value.
  assert (E : match Py.int match v with Py.None_ => Py.Int 0 | _ => v end with
              | inr n => clamp_percent n
              | inl _ => 0
              end = shown v) by (destruct v; reflexivity).
  rewrite E, setValue_in_range by apply shown_range. reflexivity.
Qed.

(** C3. Whatever is passed to a row's [update_value] -- [None], a negative
    number, a number above 100, a float, a NaN or an infinity, an object
    that [int()] refuses -- the bar and the percent text afterwards show one
    integer between 0 and 100: numbers below 0 show 0, numbers above 100
    show 100, numbers in range show their truncation, and [None] and every
    input that [int()] cannot convert show 0.  The label is untouched. *)
Theorem update_value_clamps self v :
  let row := update_value self v in
  0 <= bar row <= 100 /\
  value_label row = Py.str_of_int (bar row) ++ "%" /\
  label row = label self /\
  (v = Py.None_ -> bar row = 0) /\
  (forall n, Py.int v = inr n -> n <= 0 -> bar row = 0) /\
  (forall n, Py.int v = inr n -> 100 <= n -> bar row = 100) /\
  (forall n, Py.int v = inr n -> 0 <= n <= 100 -> bar row = n) /\
  (forall e, Py.int v = inl e -> bar row = 0).
Proof.
  cbv zeta. rewrite update_value_shown. cbn [bar value_label label].
  split; [apply shown_range|].
  repeat split; trivial.
  - intros ->. reflexivity.
  - intros n Hn Hneg. unfold shown. destruct v; try discriminate;
      rewrite Hn; unfold clamp_percent; lia.
  - intros n Hn Hbig. unfold shown. destruct v; try discriminate;
      rewrite Hn; unfold clamp_percent; lia.
  - intros n Hn Hin. unfold shown. destruct v; try discriminate;
      rewrite Hn; apply clamp_percent_id; lia.
  - intros e He. unfold shown. destruct v; trivial; now rewrite He.
Qed.

(** Concrete inputs: RAM reported as 102, a negative integer, NaN, and the
    double nearest to 57.8, which shows as 57. *)
Example update_value_examples :
  let row := StatRow_init "RAM" in
  update_value row (Py.Int 102) = mkStatRow "RAM" 100 "100%" /\
  update_value row (Py.Int (-3)) = mkStatRow "RAM" 0 "0%" /\
  update_value row (Py.Float S754_nan) = mkStatRow "RAM" 0 "0%" /\
  update_value row (Py.Obj (inl Py.ValueError)) = mkStatRow "RAM" 0 "0%" /\
  update_value row (Py.Float (Py.fdiv (Py.Z2F 578) (Py.Z2F 10))) = mkStatRow "RAM" 57 "57%".
Proof. repeat split; vm_compute; reflexivity. Qed.

(** ** Panes *)

Lemma panes_inv_request p s : panes_inv s -> panes_inv (requestPane p s).
Proof.
  intros [[q Hq] [Hi [Ha Hh]]].
  destruct s as [ti ta bs hb la ia aa [sa|]]; cbn in Hi, Ha, Hh; subst ti ta hb;
    destruct la, ia, aa, bs; try destruct sa; destruct q; try discriminate Hq;
    destruct p; cbv;
    (split; [|repeat split]);
    first [ now exists Live | now exists Info | now exists About | now exists Settings ].
Qed.

Lemma reachable_inv s : reachable s -> panes_inv s.
Proof.
  induction 1 as [|p s _ IH].
  - cbv. split; [now exists Live | repeat split].
  - now apply panes_inv_request.
Qed.

Lemma active_is_shown s p q : active s p -> is_shown s q = ViewPane_eqb p q.
Proof.
  unfold active, shown_panes. cbn [filter].
  destruct (is_shown s Live) eqn:EL, (is_shown s Info) eqn:EI,
    (is_shown s About) eqn:EA, (is_shown s Settings) eqn:ES;
    intros H; try discriminate H;
    injection H as <-; destruct q; rewrite ?EL, ?EI, ?EA, ?ES; reflexivity.
Qed.

(** C4 as stated fails for the Settings pane: with Settings on screen, a
    second request for Settings leaves Settings on screen and does not
    return to Live ([open_settings] has no toggle). *)
Lemma settings_request_keeps_settings :
  let s := requestPane Settings Panes_init in
  reachable s /\ active s Settings /\
  active (requestPane Settings s) Settings /\
  ~ active (requestPane Settings s) Live.
Proof.
  cbv zeta. split; [apply reach_request, reach_init|].
  split; [reflexivity|]. split; [reflexivity|]. discriminate.
Qed.

(** C4, amended.  In every state the window can reach, with [Q] the active
    pane and [P] a requested pane other than Live: a request for Info or
    About while it is already active returns to Live; a request for
    Settings while Settings is active keeps Settings; a request for a pane
    other than the active one makes it the active pane and takes the
    previously active pane off screen.  In particular, from Live, Info
    requested twice is Live again, and Info then About leaves About active
    and Info off screen. *)
Theorem requestPane_behaviour (s : Panes) (P Q : ViewPane) :
  reachable s -> active s Q -> P <> Live ->
  (P = Q -> P <> Settings -> active (requestPane P s) Live) /\
  (P = Q -> P = Settings -> active (requestPane P s) Settings) /\
  (P <> Q -> active (requestPane P s) P /\ is_shown (requestPane P s) Q = false) /\
  (Q = Live ->
   active (requestPane Info (requestPane Info s)) Live /\
   active (requestPane About (requestPane Info s)) About /\
   is_shown (requestPane About (requestPane Info s)) Info = false).
Proof.
  intros Hr HQ HP.
  destruct (reachable_inv s Hr) as [_ [Hi [Ha Hh]]].
  destruct s as [ti ta bs hb la ia aa [sa|]]; cbn in Hi, Ha, Hh; subst ti ta hb;
    destruct la, ia, aa, bs; try destruct sa; destruct Q; try discriminate HQ;
    destruct P; try (now elim HP);
    (repeat split; intros; try discriminate; try congruence; reflexivity).
Qed.

Lemma requestPane_behaviour_witness :
  let s := requestPane Info Panes_init in
  reachable s /\ active s Info /\ Info <> Live /\
  active (requestPane Info s) Live.
Proof.
  cbv zeta.
  assert (Hr : reachable (requestPane Info Panes_init))
    by apply reach_request, reach_init.
  assert (Ha : active (requestPane Info Panes_init) Info) by reflexivity.
  assert (Hn : Info <> Live) by discriminate.
  split; [exact Hr|]. split; [exact Ha|]. split; [exact Hn|].
  refine (proj1 (requestPane_behaviour _ Info Info Hr Ha Hn) eq_refl _).
  discriminate.
Defined.

(** The home button returns to Live from every reachable state. *)
Lemma show_live_from_tab_live s : active (show_live_from_tab s) Live.
Proof. destruct s as [ti ta bs hb la ia aa [sa|]]; reflexivity. Qed.

(** ** Battery *)

Lemma reading_is_not_no_battery (plug status : string) (p : Z) :
  plug = "🔌" \/ plug = "🔋" ->
  plug ++ " " ++ Py.str_of_int p ++ "% (" ++ status ++ ")" <> "No battery".
Proof. intros [-> | ->]; discriminate. Qed.

(** C9. When [sensors_battery()] reports no battery, the battery label
    reads "No battery"; when it reports a battery whose percentage converts
    to the integer [p], the label reads "<plug> p% (Charging)" if the
    battery is plugged and "<cell> p% (On Battery)" otherwise (also when
    [power_plugged] is unknown).  No reading, whatever its percentage and
    status, is the text "No battery". *)
Theorem update_battery_label (s : Overlay) (h : Host) :
  (sensors_battery h = inr None ->
   batt_label (exec (update_battery h) s) = "No battery") /\
  (forall b p,
     sensors_battery h = inr (Some b) -> Py.int (percent b) = inr p ->
     batt_label (exec (update_battery h) s) =
       match power_plugged b with
       | Some true => "🔌 " ++ Py.str_of_int p ++ "% (Charging)"
       | _ => "🔋 " ++ Py.str_of_int p ++ "% (On Battery)"
       end /\
     batt_label (exec (update_battery h) s) <> "No battery").
Proof.
  split.
  - intros H. unfold exec, update_battery, try_except, cbind, lift, modify.
    rewrite H. reflexivity.
  - intros b p H Hp.
    assert (E : batt_label (exec (update_battery h) s) =
                match power_plugged b with
                | Some true => "🔌 " ++ Py.str_of_int p ++ "% (Charging)"
                | _ => "🔋 " ++ Py.str_of_int p ++ "% (On Battery)"
                end).
    { unfold exec, update_battery, try_except, cbind, lift, modify.
      rewrite H, Hp. destruct (power_plugged b) as [[|]|]; reflexivity. }
    split; [exact E|]. rewrite E.
    destruct (power_plugged b) as [[|]|]; discriminate.
Qed.

Lemma update_battery_label_witness :
  let h := with_battery (inr (Some (mkBattery (Py.Int 0) (Some false)))) quiet_host in
  sensors_battery h = inr (Some (mkBattery (Py.Int 0) (Some false))) /\
  Py.int (Py.Int 0) = inr 0 /\
  batt_label (exec (update_battery h) Overlay_built) = "🔋 0% (On Battery)" /\
  sensors_battery quiet_host = inr None /\
  batt_label (exec (update_battery quiet_host) Overlay_built) = "No battery".
Proof.
  cbv zeta. split; [reflexivity|]. split; [reflexivity|]. split.
  - exact (proj1 (proj2 (update_battery_label Overlay_built
             (with_battery (inr (Some (mkBattery (Py.Int 0) (Some false)))) quiet_host))
             (mkBattery (Py.Int 0) (Some false)) 0 eq_refl eq_refl)).
  - split; [reflexivity|].
    exact (proj1 (update_battery_label Overlay_built quiet_host) eq_refl).
Defined.

(** ** Network: the divisor *)

Lemma float_of_int_102400 :
  Py.float_of_int 102400 = inr (S754_finite false 7036874417766400 (-36)).
Proof. vm_compute. reflexivity. Qed.

Lemma float_of_int_100 : Py.float_of_int 100 = inr f100.
Proof. vm_compute. reflexivity. Qed.

Lemma float_of_int_raises z e : Py.float_of_int z = inl e -> e = Py.OverflowError.
Proof.
  unfold Py.float_of_int, Py.raise, Py.ret.
  destruct (Py.Z2F z); intros H; inversion H; reflexivity.
Qed.

Lemma int_of_float_raises f e :
  Py.int_of_float f = inl e -> e = Py.ValueError \/ e = Py.OverflowError.
Proof.
  destruct f; unfold Py.int_of_float, Py.raise, Py.ret; intros H; inversion H; auto.
Qed.

Lemma divisor_not_zero dt : Py.is_zero (divisor dt) = false.
Proof.
  unfold divisor. destruct (Py.le0 dt) eqn:E; [reflexivity|].
  destruct dt; try reflexivity. discriminate E.
Qed.

Lemma truediv_divisor x dt : Py.truediv x (divisor dt) = inr (Py.fdiv x (divisor dt)).
Proof. unfold Py.truediv. now rewrite divisor_not_zero. Qed.

(** [throughput_percent] on a divisor that is not zero: the conversions of
    the two differences, then the arithmetic, then [int()]. *)
Lemma throughput_percent_eq sd rd dt :
  Py.is_zero dt = false ->
  throughput_percent sd rd dt =
  (let* fs := Py.float_of_int sd in
   let* fr := Py.float_of_int rd in
   Py.int_of_float
     (Py.fmul (Py.fdiv (Py.fdiv (Py.fadd (Py.fdiv fs dt) (Py.fdiv fr dt)) Py.f1024)
                       (S754_finite false 7036874417766400 (-36)))
              f100)).
Proof.
  intros Hz. unfold throughput_percent, Py.truediv. rewrite Hz.
  rewrite float_of_int_102400, float_of_int_100.
  destruct (Py.float_of_int sd); cbn; [reflexivity|].
  destruct (Py.float_of_int rd); reflexivity.
Qed.

Lemma net_pct_no_zero_division prev curr now :
  net_pct prev curr now <> inl Py.ZeroDivisionError.
Proof.
  unfold net_pct. rewrite throughput_percent_eq by apply divisor_not_zero.
  destruct (Py.float_of_int (bytes_sent curr - net_sent prev)) eqn:E1; cbn.
  { apply float_of_int_raises in E1. congruence. }
  destruct (Py.float_of_int (bytes_recv curr - net_recv prev)) eqn:E2; cbn.
  { apply float_of_int_raises in E2. congruence. }
  destruct (Py.int_of_float _) eqn:E3; cbn; [|discriminate].
  apply int_of_float_raises in E3. destruct E3; congruence.
Qed.

(** C2 as stated fails: two ticks half a second apart divide by 0.5, not by
    a value of at least 1.0; 50 MiB sent in that half second show as 100%,
    where a divisor floored at 1.0 would give 50%. *)
Lemma divisor_below_one :
  let prev := mkNetState "eth0" 0 0 (Py.Z2F 1) in
  let now := Py.fdiv (Py.Z2F 3) (Py.Z2F 2) in
  let half := Py.fdiv (Py.Z2F 1) (Py.Z2F 2) in
  elapsed now prev = half /\
  divisor (elapsed now prev) = half /\
  SFltb (divisor (elapsed now prev)) Py.f1 = true /\
  net_pct prev (mkNetio 52428800 0) now = inr 100 /\
  throughput_percent 52428800 0 Py.f1 = inr 50.
Proof. cbv zeta. repeat split; vm_compute; reflexivity. Qed.

(** C2, amended.  The divisor of the throughput computation is the
    measured elapsed time itself when that is positive (also when it is
    below 1.0, and when it is NaN), and 1.0 when the elapsed time is zero or
    negative; it is never zero, so both divisions by it return and the
    computation never raises [ZeroDivisionError]. *)
Theorem divisor_guard (dt : Py.float) :
  Py.is_zero (divisor dt) = false /\
  (Py.le0 dt = true -> divisor dt = Py.f1) /\
  (Py.le0 dt = false -> divisor dt = dt) /\
  (Py.is_zero dt = true -> divisor dt = Py.f1) /\
  (forall x, Py.truediv x (divisor dt) = inr (Py.fdiv x (divisor dt))) /\
  (forall prev curr now,
     elapsed now prev = dt -> net_pct prev curr now <> inl Py.ZeroDivisionError).
Proof.
  split; [apply divisor_not_zero|].
  split; [unfold divisor; now intros ->|].
  split; [unfold divisor; now intros ->|].
  split; [destruct dt; try discriminate; reflexivity|].
  split; [intros x; apply truediv_divisor|].
  intros prev curr now _. apply net_pct_no_zero_division.
Qed.

Lemma divisor_guard_witness :
  Py.le0 (S754_zero false) = true /\ divisor (S754_zero false) = Py.f1.
Proof.
  split; [reflexivity|].
  exact (proj1 (proj2 (divisor_guard (S754_zero false))) eq_refl).
Defined.

(** ** Commands: sequencing, frames *)

Lemma exec_bind {A B} (c : Cmd A) (k : A -> Cmd B) s a :
  snd (c s) = inr a -> exec (cbind c k) s = exec (k a) (fst (c s)).
Proof. unfold exec, cbind. destruct (c s) as [s' r]. cbn. now intros ->. Qed.

Lemma exec_seq {A B} (c : Cmd A) (k : Cmd B) s :
  returns c -> exec (cbind c (fun _ => k)) s = exec k (exec c s).
Proof. intros Hc. destruct (Hc s) as [a Ha]. now rewrite (exec_bind _ _ _ a). Qed.

Lemma returns_modify f : returns (modify f).
Proof. intros s. now exists tt. Qed.

Lemma returns_cret {A} (a : A) : returns (cret a).
Proof. intros s. now exists a. Qed.

Lemma returns_bind {A B} (c : Cmd A) (k : A -> Cmd B) :
  returns c -> (forall a, returns (k a)) -> returns (cbind c k).
Proof.
  intros Hc Hk s. unfold cbind. destruct (Hc s) as [a Ha].
  destruct (c s) as [s' r]. cbn in Ha. subst r. apply Hk.
Qed.

Lemma returns_try {A} (body handler : Cmd A) :
  returns handler -> returns (try_except body handler).
Proof.
  intros Hh s. unfold try_except. destruct (body s) as [s' [e|a]]; [apply Hh|].
  now exists a.
Qed.

Lemma returns_for_each {X} (xs : list X) body :
  (forall x, returns (body x)) -> returns (for_each xs body).
Proof.
  intros Hb. induction xs as [|x xs IH]; cbn [for_each].
  - apply returns_cret.
  - apply returns_bind; [apply Hb | intros _; exact IH].
Qed.

Lemma returns_gets {A} (f : Overlay -> A) : returns (gets f).
Proof. intros s. now exists (f s). Qed.

Section Frames.

Variable R : Overlay -> Overlay -> Prop.
Hypothesis R_refl : forall s, R s s.
Hypothesis R_trans : forall s1 s2 s3, R s1 s2 -> R s2 s3 -> R s1 s3.

Lemma keeps_cret {A} (a : A) : keeps R (cret a).
Proof. intros s. apply R_refl. Qed.

Lemma keeps_lift {A} (r : Py.result A) : keeps R (lift r).
Proof. intros s. apply R_refl. Qed.

Lemma keeps_gets {A} (f : Overlay -> A) : keeps R (gets f).
Proof. intros s. apply R_refl. Qed.

Lemma keeps_modify f : (forall s, R s (f s)) -> keeps R (modify f).
Proof. intros H s. apply H. Qed.

Lemma keeps_ask {A} c (r : Py.result A) :
  (forall s, R s (log_call c s)) -> keeps R (ask c r).
Proof. intros H s. apply H. Qed.

Lemma keeps_bind {A B} (c : Cmd A) (k : A -> Cmd B) :
  keeps R c -> (forall a, keeps R (k a)) -> keeps R (cbind c k).
Proof.
  intros Hc Hk s. unfold cbind. specialize (Hc s).
  destruct (c s) as [s' [e|a]]; cbn in *; [exact Hc|].
  eapply R_trans; [exact Hc | apply Hk].
Qed.

Lemma keeps_try {A} (body handler : Cmd A) :
  keeps R body -> keeps R handler -> keeps R (try_except body handler).
Proof.
  intros Hb Hh s. unfold try_except. specialize (Hb s).
  destruct (body s) as [s' [e|a]]; cbn in *; [|exact Hb].
  eapply R_trans; [exact Hb | apply Hh].
Qed.

Lemma keeps_for_each {X} (xs : list X) body :
  (forall x, keeps R (body x)) -> keeps R (for_each xs body).
Proof.
  intros Hb. induction xs as [|x xs IH]; cbn [for_each].
  - apply keeps_cret.
  - apply keeps_bind; [apply Hb | intros _; exact IH].
Qed.

Lemma keeps_collect {X Y} (xs : list X) (body : X -> Cmd Y) :
  (forall x, keeps R (body x)) -> keeps R (collect xs body).
Proof.
  intros Hb. induction xs as [|x xs IH]; cbn [collect].
  - apply keeps_cret.
  - apply keeps_bind; [apply Hb | intros y].
    apply keeps_bind; [exact IH | intros ys; apply keeps_cret].
Qed.

End Frames.

(** ** What the parts of a tick leave alone *)

Lemma same_net_refl s : same_net s s.
Proof. now split. Qed.

Lemma same_net_trans s1 s2 s3 : same_net s1 s2 -> same_net s2 s3 -> same_net s1 s3.
Proof. intros [H1 H2] [H3 H4]. split; congruence. Qed.

Lemma same_gpu_rows_refl s : same_gpu_rows s s.
Proof. reflexivity. Qed.

Lemma same_gpu_rows_trans s1 s2 s3 :
  same_gpu_rows s1 s2 -> same_gpu_rows s2 s3 -> same_gpu_rows s1 s3.
Proof. unfold same_gpu_rows. congruence. Qed.

Lemma same_row_ids_refl s : same_row_ids s s.
Proof. reflexivity. Qed.

Lemma same_row_ids_trans s1 s2 s3 :
  same_row_ids s1 s2 -> same_row_ids s2 s3 -> same_row_ids s1 s3.
Proof. unfold same_row_ids. congruence. Qed.

Create HintDb frames.

#[local] Hint Resolve same_net_refl same_net_trans same_gpu_rows_refl
  same_gpu_rows_trans same_row_ids_refl same_row_ids_trans : frames.

Lemma update_battery_frame h :
  returns (update_battery h) /\ keeps same_net (update_battery h) /\
  keeps same_gpu_rows (update_battery h).
Proof.
  split; [apply returns_try, returns_modify|].
  split; intros s; unfold update_battery, try_except, cbind, lift, modify;
    destruct (sensors_battery h) as [e|[b|]]; cbn; try easy;
    destruct (Py.int (percent b)); cbn; try easy;
    destruct (power_plugged b) as [[|]|]; easy.
Qed.

Lemma row_ids_update_nth idx v rows : row_ids (update_nth idx v rows) = row_ids rows.
Proof.
  revert idx. induction rows as [|[name row] rows IH]; intros [|idx]; cbn; trivial.
  unfold row_ids in IH. now rewrite IH.
Qed.

Lemma length_update_nth idx v rows :
  List.length (update_nth idx v rows) = List.length rows.
Proof.
  revert idx. induction rows as [|[name row] rows IH]; intros [|idx]; cbn; trivial.
  now rewrite IH.
Qed.

Lemma update_row_frame idx v :
  returns (update_row idx v) /\ keeps same_net (update_row idx v) /\
  keeps same_row_ids (update_row idx v).
Proof.
  split; [apply returns_modify|]. split; intros s; cbn.
  - now split.
  - unfold same_row_ids. cbn. apply row_ids_update_nth.
Qed.

Lemma zero_all_rows_frame :
  returns zero_all_rows /\ keeps same_net zero_all_rows /\
  keeps same_row_ids zero_all_rows.
Proof.
  unfold zero_all_rows. split; [|split].
  - apply returns_bind; [apply returns_gets|]. intros n.
    apply returns_for_each. intros idx. apply update_row_frame.
  - apply keeps_bind; eauto with frames; [apply keeps_gets; eauto with frames|].
    intros n. apply keeps_for_each; eauto with frames. intros idx. apply update_row_frame.
  - apply keeps_bind; eauto with frames; [apply keeps_gets; eauto with frames|].
    intros n. apply keeps_for_each; eauto with frames. intros idx. apply update_row_frame.
Qed.

Lemma log_call_same_net c s : same_net s (log_call c s).
Proof. now split. Qed.

Lemma log_call_same_row_ids c s : same_row_ids s (log_call c s).
Proof. reflexivity. Qed.

#[local] Hint Resolve log_call_same_net log_call_same_row_ids : frames.

(** The rows-only commands of the GPU part: built from calls, reads and
    row updates. *)
Ltac frame_gpu :=
  repeat first
    [ apply keeps_try; eauto with frames
    | apply keeps_bind; eauto with frames; [|intro]
    | apply keeps_for_each; eauto with frames; intro
    | apply keeps_ask; eauto with frames
    | apply keeps_gets; eauto with frames
    | apply keeps_lift; eauto with frames
    | apply keeps_cret; eauto with frames
    | apply update_row_frame
    | apply zero_all_rows_frame
    | match goal with |- keeps _ (if ?b then _ else _) => destruct b end ].

Lemma _update_gpus_gputil_frame caps h :
  returns (_update_gpus_gputil caps h) /\
  keeps same_net (_update_gpus_gputil caps h) /\
  keeps same_row_ids (_update_gpus_gputil caps h).
Proof.
  unfold _update_gpus_gputil. split; [|split].
  - destruct (GPUtil_available caps); [apply returns_try|]; apply zero_all_rows_frame.
  - frame_gpu.
  - frame_gpu.
Qed.

Lemma update_gpus_frame caps h :
  returns (update_gpus caps h) /\
  keeps same_net (update_gpus caps h) /\
  keeps same_row_ids (update_gpus caps h).
Proof.
  unfold update_gpus. split; [|split].
  - destruct (NVML caps); [apply returns_try|]; apply _update_gpus_gputil_frame.
  - destruct (NVML caps); [|apply _update_gpus_gputil_frame].
    apply keeps_try; eauto with frames; [|apply _update_gpus_gputil_frame]. frame_gpu.
  - destruct (NVML caps); [|apply _update_gpus_gputil_frame].
    apply keeps_try; eauto with frames; [|apply _update_gpus_gputil_frame]. frame_gpu.
Qed.

Lemma update_net_step h s :
  previous_net (exec (update_net h) s) = fst (net_step h (previous_net s) (row_net s)) /\
  row_net (exec (update_net h) s) = snd (net_step h (previous_net s) (row_net s)) /\
  gpu_rows (exec (update_net h) s) = gpu_rows s.
Proof.
  unfold exec, update_net, net_step, try_except, cbind, lift, gets, modify,
    row_net_update.
  destruct (net_io_counters h) as [e|pernic]; cbn; [now repeat split|].
  destruct (select_top pernic) as [[nic curr]|]; cbn; [|now repeat split].
  destruct (previous_net s) as [prev|] eqn:Ep; cbn; [|now repeat split].
  destruct (String.eqb (net_name prev) nic); cbn; [|now repeat split].
  destruct (net_pct prev curr (time h)); cbn; unfold modify; cbn; now repeat split.
Qed.

Lemma update_net_returns h : returns (update_net h).
Proof. apply returns_try, returns_modify. Qed.

(** A tick is its six parts in sequence; none of them raises. *)
Lemma tick_parts caps s h :
  tick caps s h =
  exec (update_net h)
    (exec (update_gpus caps h)
       (exec (modify (fun s => set_row_disk
                       (update_value (row_disk s) (or_zero (disk_usage_percent h))) s))
          (exec (modify (fun s => set_row_ram
                          (update_value (row_ram s) (or_zero (virtual_memory_percent h))) s))
             (exec (modify (fun s => set_row_cpu
                             (update_value (row_cpu s) (or_zero (cpu_percent h))) s))
                (exec (update_battery h) s))))).
Proof.
  unfold tick, update_stats.
  rewrite exec_seq by apply update_battery_frame.
  rewrite exec_seq by apply returns_modify.
  rewrite exec_seq by apply returns_modify.
  rewrite exec_seq by apply returns_modify.
  rewrite exec_seq by apply update_gpus_frame.
  reflexivity.
Qed.

(** The network fields after a tick depend on the network fields before
    it and on the host only. *)
Lemma tick_net caps s h :
  previous_net (tick caps s h) = fst (net_step h (previous_net s) (row_net s)) /\
  row_net (tick caps s h) = snd (net_step h (previous_net s) (row_net s)).
Proof.
  rewrite tick_parts.
  set (s1 := exec (update_battery h) s).
  assert (H1 : same_net s s1) by apply update_battery_frame.
  set (s4 := exec (modify _) (exec (modify _) (exec (modify _) s1))).
  assert (H4 : same_net s1 s4) by (now split).
  set (s5 := exec (update_gpus caps h) s4).
  assert (H5 : same_net s4 s5) by apply update_gpus_frame.
  destruct (update_net_step h s5) as [Hp [Hr _]].
  destruct H1 as [A1 B1], H4 as [A4 B4], H5 as [A5 B5].
  rewrite Hp, Hr. rewrite A5, A4, A1, B5, B4, B1. now split.
Qed.

(** ** Network: which interface is selected *)

Lemma pick_top_fold pernic acc :
  let r := fold_left pick_top pernic acc in
  snd acc <= snd r /\
  (forall it, In it pernic -> total it <= snd r) /\
  (fst r = fst acc /\ snd r = snd acc /\ (forall it, In it pernic -> total it <= snd acc) \/
   exists it, fst r = Some it /\ In it pernic /\ snd r = total it /\ snd acc < total it).
Proof.
  revert acc. induction pernic as [|x xs IH]; intros acc; cbn [fold_left].
  - cbv zeta. split; [lia|]. split; [intros it []|]. left. repeat split. intros it [].
  - specialize (IH (pick_top acc x)). cbv zeta in *.
    destruct IH as [Hmono [Hmax Hsel]].
    destruct (total x >? snd acc) eqn:E.
    + assert (Hp : pick_top acc x = (Some x, total x))
        by (unfold pick_top; fold (total x); now rewrite E).
      rewrite Hp in *. cbn [fst snd] in *. apply Z.gtb_lt in E.
      split; [lia|]. split.
      { intros it [<-|Hin]; [lia | now apply Hmax]. }
      right. destruct Hsel as [[Hf [Hs Hall]]|[it [Hf [Hin [Hs Hlt]]]]].
      * exists x. split; [exact Hf|]. split; [now left|]. split; [exact Hs|]. lia.
      * exists it. split; [exact Hf|]. split; [now right|]. split; [exact Hs|]. lia.
    + assert (Hp : pick_top acc x = acc)
        by (unfold pick_top; fold (total x); now rewrite E).
      rewrite Hp in *. rewrite Z.gtb_ltb in E. apply Z.ltb_ge in E.
      split; [lia|]. split.
      { intros it [<-|Hin]; [lia | now apply Hmax]. }
      destruct Hsel as [[Hf [Hs Hall]]|[it [Hf [Hin [Hs Hlt]]]]].
      * left. split; [exact Hf|]. split; [exact Hs|].
        intros it [<-|Hin]; [lia | now apply Hall].
      * right. exists it. split; [exact Hf|]. split; [now right|]. split; [exact Hs|]. lia.
Qed.

(** The selection is an interface with the largest cumulative traffic,
    provided that traffic is positive; with no positive traffic there is no
    selection. *)
Lemma select_top_spec pernic :
  (Exists (fun it => 0 < total it) pernic ->
   exists nic curr, select_top pernic = Some (nic, curr) /\ In (nic, curr) pernic /\
                    0 < total (nic, curr) /\
                    forall it, In it pernic -> total it <= total (nic, curr)) /\
  (~ Exists (fun it => 0 < total it) pernic -> select_top pernic = None).
Proof.
  unfold select_top.
  destruct (pick_top_fold pernic (None, 0)) as [Hmono [Hmax Hsel]]. cbn [fst snd] in *.
  split.
  - intros Hex. apply Exists_exists in Hex. destruct Hex as [it0 [Hin0 Hpos0]].
    destruct Hsel as [[_ [_ Hall]]|[[nic curr] [Hf [Hin [Hs Hlt]]]]].
    + specialize (Hall it0 Hin0). lia.
    + exists nic, curr. split; [exact Hf|]. split; [exact Hin|]. split; [lia|].
      intros it Hit. rewrite <- Hs. now apply Hmax.
  - intros Hno. destruct Hsel as [[Hf _]|[it [Hf [Hin [Hs Hlt]]]]]; [exact Hf|].
    exfalso. apply Hno. apply Exists_exists. exists it. split; auto.
Qed.

(** ** Network: what is shown and what is carried *)

Lemma bar_update_zero row :
  bar (update_value row (Py.Int 0)) = 0 /\
  value_label (update_value row (Py.Int 0)) = "0%".
Proof. now rewrite update_value_shown. Qed.

Lemma detect_gpus_and_populate_same_net decode caps h :
  keeps same_net (detect_gpus_and_populate decode caps h).
Proof.
  unfold detect_gpus_and_populate.
  apply keeps_bind; eauto with frames.
  { unfold detect_native. destruct (NVML caps); [|apply keeps_cret; eauto with frames].
    frame_gpu. apply keeps_collect; eauto with frames. intros i. frame_gpu. }
  intros [names count]. apply keeps_bind; eauto with frames.
  { unfold detect_fallback. destruct (_ && _); frame_gpu. }
  intros [names' count']. apply keeps_bind; eauto with frames.
  { apply keeps_modify. intros s0. now split. }
  intros _. destruct (Nat.eqb count' 0); apply keeps_modify; intros s0; now split.
Qed.

Lemma Overlay_init_previous_net decode caps h :
  previous_net (Overlay_init decode caps h) = None.
Proof.
  destruct (detect_gpus_and_populate_same_net decode caps h Overlay_built) as [H _].
  exact H.
Qed.

Lemma bar_update_int row n : bar (update_value row (Py.Int n)) = clamp_percent n.
Proof. now rewrite update_value_shown. Qed.

(** The fields of the network row and the carried sample after a tick
    that selects the carried interface and whose rate computation
    returns. *)
Lemma tick_same_interface caps s h pernic prev curr pct :
  previous_net s = Some prev ->
  net_io_counters h = inr pernic ->
  select_top pernic = Some (net_name prev, curr) ->
  net_pct prev curr (time h) = inr pct ->
  previous_net (tick caps s h) = Some (sample_of (net_name prev) curr (time h)) /\
  row_net (tick caps s h) =
    update_value (setText (row_net s) ("NETWORK (" ++ net_name prev ++ ")")) (Py.Int pct).
Proof.
  intros Hp Hc Hs Hpct. destruct (tick_net caps s h) as [H1 H2].
  rewrite H1, H2. unfold net_step. rewrite Hp, Hc, Hs, String.eqb_refl, Hpct.
  now split.
Qed.




(** ** Doubles: rounding keeps magnitudes *)

Lemma digits2_pos_bounds p :
  2 ^ (Zpos (digits2_pos p) - 1) <= Zpos p < 2 ^ Zpos (digits2_pos p).
Proof.
  induction p as [p IH|p IH|]; cbn [digits2_pos].
  - rewrite Pos2Z.inj_succ. replace (Z.succ (Zpos (digits2_pos p)) - 1)
      with (Z.succ (Zpos (digits2_pos p) - 1)) by lia.
    rewrite !Z.pow_succ_r by lia. lia.
  - rewrite Pos2Z.inj_succ. replace (Z.succ (Zpos (digits2_pos p)) - 1)
      with (Z.succ (Zpos (digits2_pos p) - 1)) by lia.
    rewrite !Z.pow_succ_r by lia. lia.
  - cbn. lia.
Qed.

(** [Zdigits2 m <= k] as soon as [m < 2^k]. *)
Lemma Zdigits2_le m k : 0 <= m -> m < 2 ^ k -> Zdigits2 m <= k.
Proof.
  intros Hm Hlt. destruct m as [|p|p]; cbn [Zdigits2]; try lia.
  - destruct (Z.le_gt_cases k (-1)) as [Hk|Hk]; [|lia].
    rewrite Z.pow_neg_r in Hlt by lia. lia.
  - destruct (digits2_pos_bounds p) as [Hlo _].
    destruct (Z.le_gt_cases (Zpos (digits2_pos p)) k) as [|Hgt]; [assumption|].
    exfalso. assert (2 ^ k <= 2 ^ (Zpos (digits2_pos p) - 1))
      by (apply Z.pow_le_mono_r; lia). lia.
Qed.

Lemma Zdigits2_lt m : 0 <= m -> m < 2 ^ Zdigits2 m.
Proof.
  intros Hm. destruct m as [|p|p]; cbn [Zdigits2]; try lia.
  apply digits2_pos_bounds.
Qed.

Lemma Zdigits2_nonneg m : 0 <= Zdigits2 m.
Proof. destruct m; cbn; lia. Qed.

Lemma shr_1_m mrs : 0 <= shr_m mrs -> shr_m (shr_1 mrs) = shr_m mrs / 2.
Proof.
  destruct mrs as [m r s]. cbn [shr_m]. intros Hm.
  destruct m as [|[p|p|]|p]; cbn [shr_1 shr_m]; try lia.
  - reflexivity.
  - rewrite Pos2Z.inj_xI. apply Z.div_unique with 1; lia.
  - rewrite (Pos2Z.inj_xO p). apply Z.div_unique with 0; lia.
  - reflexivity.
Qed.

Lemma shr_iter_m p : forall mrs,
  0 <= shr_m mrs -> shr_m (iter_pos shr_1 p mrs) = shr_m mrs / 2 ^ Zpos p.
Proof.
  assert (Hnn : forall mrs, 0 <= shr_m mrs -> 0 <= shr_m mrs / 2)
    by (intros; apply Z.div_pos; lia).
  induction p as [p IH|p IH|]; intros mrs Hm; cbn [iter_pos].
  - assert (H1 : 0 <= shr_m (shr_1 mrs)) by (rewrite shr_1_m; auto).
    assert (H2 : 0 <= shr_m (iter_pos shr_1 p (shr_1 mrs)))
      by (rewrite IH by assumption; apply Z.div_pos; lia).
    rewrite IH, IH, shr_1_m by assumption.
    rewrite !Z.div_div by lia. f_equal.
    rewrite Pos2Z.inj_xI, Z.pow_add_r, Z.pow_mul_r by lia.
    change (2 ^ 2) with (2 * 2). change (2 ^ 1) with 2.
    rewrite Z.pow_mul_l. ring.
  - assert (H2 : 0 <= shr_m (iter_pos shr_1 p mrs))
      by (rewrite IH by assumption; apply Z.div_pos; lia).
    rewrite IH, IH by assumption. rewrite Z.div_div by lia. f_equal.
    rewrite (Pos2Z.inj_xO p), Z.pow_mul_r by lia.
    change (2 ^ 2) with (2 * 2). now rewrite Z.pow_mul_l.
  - rewrite shr_1_m by assumption. reflexivity.
Qed.

Lemma shr_spec mrs e n :
  0 <= shr_m mrs ->
  shr_m (fst (shr mrs e n)) = shr_m mrs / 2 ^ Z.max 0 n /\
  snd (shr mrs e n) = e + Z.max 0 n.
Proof.
  intros Hm. destruct n as [|p|p]; cbn [shr fst snd].
  - change (Z.max 0 0) with 0. rewrite Z.pow_0_r, Z.div_1_r. lia.
  - rewrite shr_iter_m by assumption. now rewrite Z.max_r by lia.
  - rewrite Z.max_l by lia. rewrite Z.pow_0_r, Z.div_1_r. lia.
Qed.

Lemma shr_record_of_loc_m m l : shr_m (shr_record_of_loc m l) = m.
Proof. destruct l as [|[| |]]; reflexivity. Qed.

Lemma round_nearest_even_bounds m l :
  m <= round_nearest_even m l <= m + 1.
Proof.
  unfold round_nearest_even. destruct l as [|[| |]]; try lia.
  destruct (Z.even m); lia.
Qed.

Lemma pow2_pos k : 0 <= k -> 0 < 2 ^ k.
Proof. intros. apply Z.pow_pos_nonneg; lia. Qed.

(** Below [2^K], and shifted right by [n <= K] places: below [2^(K-n)]. *)
Lemma div_pow2_lt m K n :
  0 <= m -> 0 <= n <= K -> m < 2 ^ K -> m / 2 ^ n < 2 ^ (K - n).
Proof.
  intros Hm Hn Hlt. apply Z.div_lt_upper_bound; [now apply pow2_pos|].
  rewrite <- Z.pow_add_r by lia. now replace (n + (K - n)) with K by lia.
Qed.

Lemma pow2_exponent_nonneg m K : 0 <= m -> m < 2 ^ K -> 0 <= K.
Proof.
  intros Hm Hlt. destruct (Z.le_gt_cases 0 K); [assumption|].
  rewrite Z.pow_neg_r in Hlt by lia. lia.
Qed.

(** Rounding a mantissa that stands for a value below [2^B]: the result is
    a zero or a finite double below [2^(B+1)], with the sign asked for. *)
Lemma binary_round_aux_bound sx mx ex lx B :
  0 <= mx -> mx < 2 ^ (B - ex) ->
  ex <= Py.emax - Py.prec -> -1074 <= B -> B + 1 <= Py.emax ->
  abs_lt (B + 1) (binary_round_aux Py.prec Py.emax sx mx ex lx) /\
  has_sign sx (binary_round_aux Py.prec Py.emax sx mx ex lx).
Proof.
  intros Hmx Hlt Hex HB HB'.
  assert (HK : 0 <= B - ex) by (eapply pow2_exponent_nonneg; eauto).
  assert (Hd : Zdigits2 mx <= B - ex) by (now apply Zdigits2_le).
  pose proof (Zdigits2_nonneg mx) as Hd0.
  unfold binary_round_aux, shr_fexp.
  set (n1 := fexp Py.prec Py.emax (Zdigits2 mx + ex) - ex).
  assert (Hn1 : Z.max 0 n1 <= B - ex /\ ex + Z.max 0 n1 <= Py.emax - Py.prec).
  { unfold n1, fexp, emin, Py.prec, Py.emax in *. lia. }
  destruct (shr_spec (shr_record_of_loc mx lx) ex n1) as [Hm1 He1];
    [now rewrite shr_record_of_loc_m|].
  rewrite shr_record_of_loc_m in Hm1.
  destruct (shr (shr_record_of_loc mx lx) ex n1) as [mrs1 e1].
  cbn [fst snd] in Hm1, He1.
  set (m2 := round_nearest_even (shr_m mrs1) (loc_of_shr_record mrs1)).
  assert (Hm1lt : 0 <= shr_m mrs1 < 2 ^ (B - e1)).
  { rewrite Hm1, He1. split; [apply Z.div_pos; [lia | apply pow2_pos; lia]|].
    replace (B - (ex + Z.max 0 n1)) with (B - ex - Z.max 0 n1) by lia.
    apply div_pow2_lt; lia. }
  assert (Hm2 : 0 <= m2 < 2 ^ (B + 1 - e1)).
  { pose proof (round_nearest_even_bounds (shr_m mrs1) (loc_of_shr_record mrs1)) as Hr.
    fold m2 in Hr. split; [lia|].
    replace (B + 1 - e1) with (Z.succ (B - e1)) by lia.
    rewrite Z.pow_succ_r by lia. lia. }
  assert (Hd2 : Zdigits2 m2 <= B + 1 - e1) by (apply Zdigits2_le; lia).
  pose proof (Zdigits2_nonneg m2) as Hd20.
  set (n2 := fexp Py.prec Py.emax (Zdigits2 m2 + e1) - e1).
  assert (Hn2 : Z.max 0 n2 <= B + 1 - e1 /\ e1 + Z.max 0 n2 <= Py.emax - Py.prec).
  { unfold n2, fexp, emin, Py.prec, Py.emax in *. lia. }
  destruct (shr_spec (shr_record_of_loc m2 loc_Exact) e1 n2) as [Hm3 He3];
    [cbn; lia|].
  destruct (shr (shr_record_of_loc m2 loc_Exact) e1 n2) as [mrs3 e3].
  cbn [fst snd shr_record_of_loc shr_m] in Hm3, He3.
  assert (Hm3lt : 0 <= shr_m mrs3 < 2 ^ (B + 1 - e3)).
  { rewrite Hm3, He3. split; [apply Z.div_pos; [lia | apply pow2_pos; lia]|].
    replace (B + 1 - (e1 + Z.max 0 n2)) with (B + 1 - e1 - Z.max 0 n2) by lia.
    apply div_pow2_lt; lia. }
  destruct (shr_m mrs3) as [|m|m]; [now split | | lia].
  assert (Hle : (e3 <=? Py.emax - Py.prec) = true) by (apply Z.leb_le; lia).
  rewrite Hle. cbn [abs_lt has_sign]. split; [split; [lia|]|reflexivity].
  apply Z.leb_le in Hle. exact Hle.
Qed.

Lemma abs_lt_mono a b f : a <= b -> abs_lt a f -> abs_lt b f.
Proof.
  intros Hab. destruct f as [s|s| |s m e]; cbn; trivial. intros [Hm He].
  split; [|assumption].
  eapply Z.lt_le_trans; [exact Hm|]. apply Z.pow_le_mono_r; lia.
Qed.

Lemma pos_iter_xO m d : Zpos (Pos.iter xO m d) = Zpos m * 2 ^ Zpos d.
Proof.
  induction d as [|d IH] using Pos.peano_ind.
  - cbn. lia.
  - rewrite Pos.iter_succ, Pos2Z.inj_succ, Z.pow_succ_r by lia.
    rewrite (Pos2Z.inj_xO (Pos.iter xO m d)), IH. ring.
Qed.

(** Aligning a mantissa to a smaller exponent keeps the value. *)
Lemma shl_align_spec mx ex ex' :
  snd (shl_align mx ex ex') <= ex /\
  (ex' <= ex -> snd (shl_align mx ex ex') = ex') /\
  Zpos (fst (shl_align mx ex ex')) = Zpos mx * 2 ^ (ex - snd (shl_align mx ex ex')).
Proof.
  unfold shl_align. destruct (ex' - ex) as [|d|d] eqn:E; cbn [fst snd].
  - rewrite Z.sub_diag. cbn. lia.
  - rewrite Z.sub_diag. cbn. lia.
  - rewrite pos_iter_xO. replace (ex - ex') with (Zpos d) by lia. lia.
Qed.

Lemma pow2_split K n : 0 <= n <= K -> 2 ^ K = 2 ^ (K - n) * 2 ^ n.
Proof.
  intros H. rewrite <- Z.pow_add_r by lia. f_equal. lia.
Qed.

Lemma binary_round_bound sx mx ex B :
  Zpos mx < 2 ^ (B - ex) ->
  ex <= Py.emax - Py.prec -> -1074 <= B -> B + 1 <= Py.emax ->
  abs_lt (B + 1) (binary_round Py.prec Py.emax sx mx ex) /\
  has_sign sx (binary_round Py.prec Py.emax sx mx ex).
Proof.
  intros Hlt Hex HB HB'. unfold binary_round.
  destruct (shl_align_spec mx ex (fexp Py.prec Py.emax (Zpos (digits2_pos mx) + ex)))
    as [Hle [_ Hval]].
  destruct (shl_align mx ex _) as [mz ez]. cbn [fst snd] in Hle, Hval.
  assert (HK : 0 <= B - ex) by (eapply pow2_exponent_nonneg; [|exact Hlt]; lia).
  apply binary_round_aux_bound; try lia.
  rewrite Hval, (pow2_split (B - ez) (ex - ez)) by lia.
  replace (B - ez - (ex - ez)) with (B - ex) by lia.
  apply Z.mul_lt_mono_pos_r; [apply pow2_pos; lia | exact Hlt].
Qed.

(** The conversion of an integer below [2^64] in absolute value never
    overflows. *)
Lemma Z2F_bound z :
  Z.abs z < 2 ^ 64 ->
  abs_lt 65 (Py.Z2F z) /\ Py.float_of_int z = inr (Py.Z2F z) /\
  (0 <= z -> has_sign false (Py.Z2F z)).
Proof.
  intros Hz. unfold Py.float_of_int, Py.Z2F, binary_normalize.
  destruct z as [|p|p].
  - repeat split.
  - destruct (binary_round_bound false p 0 64) as [Hb Hs];
      [rewrite Z.sub_0_r; lia | unfold Py.emax, Py.prec; lia | lia
      | unfold Py.emax; lia |].
    change (64 + 1) with 65 in Hb.
    destruct (binary_round Py.prec Py.emax false p 0); cbn in Hb; try contradiction;
      repeat split; trivial; apply Hb.
  - destruct (binary_round_bound true p 0 64) as [Hb Hs];
      [rewrite Z.sub_0_r; lia | unfold Py.emax, Py.prec; lia | lia
      | unfold Py.emax; lia |].
    change (64 + 1) with 65 in Hb.
    destruct (binary_round Py.prec Py.emax true p 0); cbn in Hb; try contradiction;
      repeat split; trivial; try apply Hb; lia.
Qed.

(** The quotient mantissa of a division stands for a value below
    [2^(a-b)] when the dividend is below [2^a] and the divisor is at least
    [2^b]. *)
Lemma SFdiv_core_binary_bound mx ex my ey a b :
  Zpos mx < 2 ^ (a - ex) -> (ey <= b -> 2 ^ (b - ey) <= Zpos my) ->
  -1074 <= a - b -> a - b <= Py.emax ->
  let '(q, e', _) := SFdiv_core_binary Py.prec Py.emax (Zpos mx) ex (Zpos my) ey in
  0 <= q /\ q < 2 ^ (a - b - e') /\ e' <= Py.emax - Py.prec.
Proof.
  intros Hx Hy Hlo Hhi. unfold SFdiv_core_binary.
  set (d1 := Zdigits2 (Zpos mx)). set (d2 := Zdigits2 (Zpos my)).
  set (e' := Z.min (fexp Py.prec Py.emax (d1 + ex - (d2 + ey))) (ex - ey)).
  set (s := ex - ey - e').
  assert (Hka : 0 <= a - ex) by (eapply pow2_exponent_nonneg; [|exact Hx]; lia).
  assert (Hd1 : d1 <= a - ex) by (apply Zdigits2_le; lia).
  assert (Hd2 : b < d2 + ey).
  { destruct (Z.le_gt_cases ey b) as [Hle|Hgt].
    - specialize (Hy Hle). pose proof (Zdigits2_lt (Zpos my) ltac:(lia)) as Hm.
      fold d2 in Hm. pose proof (Zdigits2_nonneg (Zpos my)) as Hn. fold d2 in Hn.
      destruct (Z.le_gt_cases d2 (b - ey)) as [Hc|Hc]; [|lia].
      exfalso. assert (2 ^ d2 <= 2 ^ (b - ey)) by (apply Z.pow_le_mono_r; lia). lia.
    - assert (0 < d2) by (unfold d2; cbn; lia). lia. }
  assert (He' : e' <= a - b /\ e' <= Py.emax - Py.prec /\ 0 <= s).
  { unfold s, e', fexp, emin, Py.prec, Py.emax in *. lia. }
  set (m' := match s with Z.pos _ => Z.shiftl (Zpos mx) s | 0 => Zpos mx | Z.neg _ => 0 end).
  assert (Hm' : m' = Zpos mx * 2 ^ s).
  { unfold m'. destruct s as [|p|p] eqn:Es; [rewrite Z.pow_0_r; lia | | lia].
    apply Z.shiftl_mul_pow2. lia. }
  assert (Hm'lt : 0 <= m' < 2 ^ (a - ey - e')).
  { rewrite Hm'. split; [apply Z.mul_nonneg_nonneg; [lia | apply Z.pow_nonneg; lia]|].
    rewrite (pow2_split (a - ey - e') s) by lia.
    replace (a - ey - e' - s) with (a - ex) by (unfold s; lia).
    apply Z.mul_lt_mono_pos_r; [apply pow2_pos; lia | exact Hx]. }
  destruct (Z.div_eucl m' (Zpos my)) as [q r] eqn:E.
  assert (Hq : q = m' / Zpos my) by (unfold Z.div; now rewrite E).
  split; [rewrite Hq; apply Z.div_pos; lia|]. split; [|apply He'].
  destruct (Z.le_gt_cases ey b) as [Hle|Hgt].
  - specialize (Hy Hle).
    assert (Hqle : q <= m' / 2 ^ (b - ey)).
    { rewrite Hq. apply Z.div_le_compat_l; [lia|]. split; [apply pow2_pos; lia | exact Hy]. }
    eapply Z.le_lt_trans; [exact Hqle|].
    replace (a - b - e') with (a - ey - e' - (b - ey)) by lia.
    apply div_pow2_lt; lia.
  - assert (Hqle : q <= m').
    { rewrite Hq. apply Z.div_le_upper_bound; [lia|]. nia. }
    eapply Z.le_lt_trans; [exact Hqle|]. eapply Z.lt_le_trans; [apply Hm'lt|].
    apply Z.pow_le_mono_r; lia.
Qed.

Lemma fdiv_bound x y a b :
  abs_lt a x -> abs_ge b y -> -1074 <= a - b -> a - b + 1 <= Py.emax ->
  abs_lt (a - b + 1) (Py.fdiv x y).
Proof.
  intros Hx Hy Hlo Hhi. unfold Py.fdiv, SFdiv.
  destruct x as [sx|sx| |sx mx ex]; cbn in Hx; try contradiction;
    destruct y as [sy|sy| |sy my ey]; cbn in Hy; try contradiction; try exact I.
  destruct Hx as [Hx Hex].
  pose proof (SFdiv_core_binary_bound mx ex my ey a b Hx Hy Hlo ltac:(lia)) as Hc.
  destruct (SFdiv_core_binary Py.prec Py.emax (Zpos mx) ex (Zpos my) ey) as [[q e'] l].
  destruct Hc as [Hq0 [Hq He']].
  apply binary_round_aux_bound; assumption.
Qed.

Lemma fdiv_sign x y :
  has_sign false x -> has_sign false y -> Py.is_zero y = false ->
  Py.fdiv x y = S754_nan \/ has_sign false (Py.fdiv x y).
Proof.
  intros Hx Hy Hz. unfold Py.fdiv, SFdiv.
  destruct x as [sx|sx| |sx mx ex]; cbn in Hx; try contradiction; subst;
    destruct y as [sy|sy| |sy my ey]; cbn in Hy; try contradiction; subst;
    try discriminate Hz; cbn; auto.
  destruct (SFdiv_core_binary Py.prec Py.emax (Zpos mx) ex (Zpos my) ey) as [[q e'] l].
  unfold binary_round_aux.
  destruct (shr_fexp _ _ q e' l) as [mrs1 e1].
  destruct (shr_fexp _ _ _ e1 loc_Exact) as [mrs2 e2].
  destruct (shr_m mrs2); [right; reflexivity | | left; reflexivity].
  destruct (e2 <=? _); right; reflexivity.
Qed.

Lemma aligned_lt m e ez a :
  ez <= e -> Zpos m < 2 ^ (a - e) ->
  0 < Zpos (fst (shl_align m e ez)) < 2 ^ (a - ez).
Proof.
  intros Hle Hlt. destruct (shl_align_spec m e ez) as [_ [Hs Hv]].
  rewrite Hs in Hv by assumption. rewrite Hv.
  assert (HK : 0 <= a - e) by (eapply pow2_exponent_nonneg; [|exact Hlt]; lia).
  split; [apply Z.mul_pos_pos; [lia | apply pow2_pos; lia]|].
  rewrite (pow2_split (a - ez) (e - ez)) by lia.
  replace (a - ez - (e - ez)) with (a - e) by lia.
  apply Z.mul_lt_mono_pos_r; [apply pow2_pos; lia | exact Hlt].
Qed.

Lemma binary_normalize_bound M ez a :
  Z.abs M < 2 ^ (a - ez) -> ez <= Py.emax - Py.prec -> -1074 <= a -> a + 1 <= Py.emax ->
  abs_lt (a + 1) (binary_normalize Py.prec Py.emax M ez false) /\
  (0 <= M -> has_sign false (binary_normalize Py.prec Py.emax M ez false)).
Proof.
  intros HM He Hlo Hhi. unfold binary_normalize. destruct M as [|p|p].
  - now split.
  - pose proof (binary_round_bound false p ez a HM He Hlo Hhi) as [Hb Hs].
    now split.
  - pose proof (binary_round_bound true p ez a HM He Hlo Hhi) as [Hb Hs].
    split; [assumption | lia].
Qed.

Lemma fadd_bound x y a :
  abs_lt a x -> abs_lt a y -> -1074 <= a + 1 -> a + 2 <= Py.emax ->
  abs_lt (a + 2) (Py.fadd x y).
Proof.
  intros Hx Hy Hlo Hhi. unfold Py.fadd, SFadd.
  destruct x as [sx|sx| |sx mx ex]; cbn in Hx; try contradiction;
    destruct y as [sy|sy| |sy my ey]; cbn in Hy; try contradiction.
  - destruct sx, sy; exact I.
  - apply (abs_lt_mono a); [lia | exact Hy].
  - apply (abs_lt_mono a); [lia | exact Hx].
  - destruct Hx as [Hx Hex], Hy as [Hy Hey].
    set (ez := Z.min ex ey).
    pose proof (aligned_lt mx ex ez a ltac:(unfold ez; lia) Hx) as Hax.
    pose proof (aligned_lt my ey ez a ltac:(unfold ez; lia) Hy) as Hay.
    replace (a + 2) with (a + 1 + 1) by lia.
    apply binary_normalize_bound; try lia; [|unfold ez, Py.emax, Py.prec; lia].
    replace (a + 1 - ez) with (Z.succ (a - ez)) by lia.
    assert (HK : 0 <= a - ez) by (eapply pow2_exponent_nonneg; [|apply Hax]; lia).
    rewrite Z.pow_succ_r by lia.
    destruct sx, sy; cbn [cond_Zopp]; lia.
Qed.

Lemma binary_round_aux_sign sx mx ex lx :
  binary_round_aux Py.prec Py.emax sx mx ex lx = S754_nan \/
  has_sign sx (binary_round_aux Py.prec Py.emax sx mx ex lx).
Proof.
  unfold binary_round_aux.
  destruct (shr_fexp Py.prec Py.emax mx ex lx) as [mrs1 e1].
  destruct (shr_fexp Py.prec Py.emax _ e1 loc_Exact) as [mrs2 e2].
  destruct (shr_m mrs2); [right; reflexivity | | left; reflexivity].
  destruct (e2 <=? _); right; reflexivity.
Qed.

Lemma fadd_sign x y :
  has_sign false x -> has_sign false y ->
  Py.fadd x y = S754_nan \/ has_sign false (Py.fadd x y).
Proof.
  intros Hx Hy. unfold Py.fadd, SFadd.
  destruct x as [sx|sx| |sx mx ex]; cbn in Hx; try contradiction; subst;
    destruct y as [sy|sy| |sy my ey]; cbn in Hy; try contradiction; subst;
    cbn [has_sign]; auto.
  cbn [cond_Zopp].
  destruct (Z.pos (fst (shl_align mx ex (Z.min ex ey))) +
            Z.pos (fst (shl_align my ey (Z.min ex ey)))) as [|p|p] eqn:E; try lia.
  cbn [binary_normalize]. unfold binary_round.
  destruct (shl_align p (Z.min ex ey) _) as [mz ez]. apply binary_round_aux_sign.
Qed.

Lemma fmul_f100_bound x a :
  abs_lt a x -> -1074 <= a + 7 -> a + 8 <= Py.emax -> abs_lt (a + 8) (Py.fmul x f100).
Proof.
  intros Hx Hlo Hhi. unfold Py.fmul, SFmul, f100.
  destruct x as [sx|sx| |sx mx ex]; cbn in Hx; try contradiction; [exact I|].
  destruct Hx as [Hx Hex].
  replace (a + 8) with (a + 7 + 1) by lia.
  apply binary_round_aux_bound; try lia; [|unfold Py.emax, Py.prec; lia].
  rewrite Pos2Z.inj_mul.
  assert (HK : 0 <= a - ex) by (eapply pow2_exponent_nonneg; [|exact Hx]; lia).
  replace (a + 7 - (ex + -46)) with (a - ex + 53) by lia.
  rewrite Z.pow_add_r by lia.
  apply Z.mul_lt_mono_nonneg; lia.
Qed.

Lemma fmul_f100_sign x :
  has_sign false x -> Py.fmul x f100 = S754_nan \/ has_sign false (Py.fmul x f100).
Proof.
  intros Hx. unfold Py.fmul, SFmul, f100.
  destruct x as [sx|sx| |sx mx ex]; cbn in Hx; try contradiction; subst;
    cbn [has_sign xorb]; auto.
  apply binary_round_aux_sign.
Qed.

(** ** Network: the rate computation returns *)

Lemma int_of_float_abs_lt B f :
  abs_lt B f -> exists n, Py.int_of_float f = inr n /\ (has_sign false f -> 0 <= n).
Proof.
  destruct f as [s|s| |s m e]; cbn [abs_lt]; try contradiction; intros H.
  - exists 0. split; [reflexivity | lia].
  - eexists. split; [reflexivity|]. cbn [has_sign]. intros ->. cbn [cond_Zopp].
    destruct (0 <=? e) eqn:E.
    + apply Z.mul_nonneg_nonneg; [lia | apply Z.pow_nonneg; lia].
    + apply Z.leb_gt in E. apply Z.div_pos; [lia | apply pow2_pos; lia].
Qed.

Lemma abs_lt_not_nan B f : abs_lt B f -> f <> S754_nan.
Proof. destruct f; cbn; try contradiction; discriminate. Qed.

Lemma abs_ge_not_zero L f : abs_ge L f -> Py.is_zero f = false.
Proof. destruct f; cbn; try contradiction; reflexivity. Qed.

(** For counter differences below [2^64] in absolute value and a divisor
    of at least [2^-64], every intermediate double is finite, so [int()]
    returns; with differences that are not negative and a positive divisor
    the result is not negative. *)
Lemma throughput_percent_returns sd rd dt :
  Z.abs sd < 2 ^ 64 -> Z.abs rd < 2 ^ 64 -> abs_ge (-64) dt ->
  exists n, throughput_percent sd rd dt = inr n /\
            (0 <= sd -> 0 <= rd -> has_sign false dt -> 0 <= n).
Proof.
  intros Hs Hr Hdt.
  pose proof (abs_ge_not_zero _ _ Hdt) as Hz.
  rewrite throughput_percent_eq by assumption.
  destruct (Z2F_bound sd Hs) as [Bs [Es Ss]].
  destruct (Z2F_bound rd Hr) as [Br [Er Sr]].
  rewrite Es, Er. cbn [Py.bind].
  set (c := S754_finite false 7036874417766400 (-36)).
  assert (B1 : abs_lt 130 (Py.fdiv (Py.Z2F sd) dt))
    by (apply (fdiv_bound _ _ 65 (-64)); try assumption; unfold Py.emax; lia).
  assert (B2 : abs_lt 130 (Py.fdiv (Py.Z2F rd) dt))
    by (apply (fdiv_bound _ _ 65 (-64)); try assumption; unfold Py.emax; lia).
  assert (B3 : abs_lt 132 (Py.fadd (Py.fdiv (Py.Z2F sd) dt) (Py.fdiv (Py.Z2F rd) dt)))
    by (apply (fadd_bound _ _ 130); try assumption; unfold Py.emax; lia).
  assert (B4 : abs_lt 123 (Py.fdiv (Py.fadd (Py.fdiv (Py.Z2F sd) dt)
                                            (Py.fdiv (Py.Z2F rd) dt)) Py.f1024)).
  { apply (fdiv_bound _ _ 132 10); try assumption; [|lia|unfold Py.emax; lia].
    cbn. intros _. reflexivity. }
  assert (B5 : abs_lt 108 (Py.fdiv (Py.fdiv (Py.fadd (Py.fdiv (Py.Z2F sd) dt)
                                                     (Py.fdiv (Py.Z2F rd) dt)) Py.f1024) c)).
  { apply (fdiv_bound _ _ 123 16); try assumption; [|lia|unfold Py.emax; lia].
    cbn. intros _. lia. }
  assert (B6 : abs_lt 116 (Py.fmul (Py.fdiv (Py.fdiv (Py.fadd (Py.fdiv (Py.Z2F sd) dt)
                              (Py.fdiv (Py.Z2F rd) dt)) Py.f1024) c) f100))
    by (apply (fmul_f100_bound _ 108); try assumption; unfold Py.emax; lia).
  destruct (int_of_float_abs_lt _ _ B6) as [n [Hn Hpos]].
  exists n. split; [exact Hn|]. intros Hs0 Hr0 Hsd. apply Hpos.
  assert (S1 : has_sign false (Py.fdiv (Py.Z2F sd) dt)).
  { destruct (fdiv_sign (Py.Z2F sd) dt (Ss Hs0) Hsd Hz) as [E|S]; [|exact S].
    now apply abs_lt_not_nan in B1. }
  assert (S2 : has_sign false (Py.fdiv (Py.Z2F rd) dt)).
  { destruct (fdiv_sign (Py.Z2F rd) dt (Sr Hr0) Hsd Hz) as [E|S]; [|exact S].
    now apply abs_lt_not_nan in B2. }
  assert (S3 : has_sign false (Py.fadd (Py.fdiv (Py.Z2F sd) dt) (Py.fdiv (Py.Z2F rd) dt))).
  { destruct (fadd_sign _ _ S1 S2) as [E|S]; [|exact S]. now apply abs_lt_not_nan in B3. }
  assert (S4 : has_sign false (Py.fdiv (Py.fadd (Py.fdiv (Py.Z2F sd) dt)
                                                (Py.fdiv (Py.Z2F rd) dt)) Py.f1024)).
  { destruct (fdiv_sign _ Py.f1024 S3 eq_refl eq_refl) as [E|S]; [|exact S].
    now apply abs_lt_not_nan in B4. }
  assert (S5 : has_sign false (Py.fdiv (Py.fdiv (Py.fadd (Py.fdiv (Py.Z2F sd) dt)
                                 (Py.fdiv (Py.Z2F rd) dt)) Py.f1024) c)).
  { destruct (fdiv_sign _ c S4 eq_refl eq_refl) as [E|S]; [|exact S].
    now apply abs_lt_not_nan in B5. }
  destruct (fmul_f100_sign _ S5) as [E|S]; [|exact S]. now apply abs_lt_not_nan in B6.
Qed.

Lemma usable_divisor dt :
  usable_elapsed dt ->
  abs_ge (-64) (divisor dt) /\ has_sign false (divisor dt).
Proof.
  unfold usable_elapsed, divisor. intros [H|H].
  - rewrite H. split; [cbn; lia | reflexivity].
  - destruct (Py.le0 dt) eqn:E; [split; [cbn; lia | reflexivity]|].
    split; [exact H|]. destruct dt as [s|s| |[|] m e]; cbn in H, E; try contradiction;
      try discriminate; try reflexivity. now destruct s.
Qed.

(** The rate computation of a tick returns whenever the counters are
    64-bit counters and the elapsed time is usable; the percentage is then
    between 0 and 100 if no counter went backwards. *)
Lemma net_pct_returns prev curr now :
  counter (net_sent prev) -> counter (net_recv prev) ->
  counter (bytes_sent curr) -> counter (bytes_recv curr) ->
  usable_elapsed (elapsed now prev) ->
  exists pct, net_pct prev curr now = inr pct /\ pct <= 100 /\
              (net_sent prev <= bytes_sent curr -> net_recv prev <= bytes_recv curr ->
               0 <= pct).
Proof.
  unfold counter. intros H1 H2 H3 H4 Hdt.
  destruct (usable_divisor _ Hdt) as [Hge Hsign].
  destruct (throughput_percent_returns (bytes_sent curr - net_sent prev)
              (bytes_recv curr - net_recv prev) (divisor (elapsed now prev)))
    as [n [Hn Hpos]]; try assumption; try lia.
  exists (Z.min 100 n). unfold net_pct. rewrite Hn. cbn [Py.bind].
  split; [reflexivity|]. split; [lia|]. intros Hs Hr.
  specialize (Hpos ltac:(lia) ltac:(lia) Hsign). lia.
Qed.

Lemma gt0_not_le0 T : Py.gt0 T = true -> Py.le0 T = false /\ has_sign false T.
Proof.
  destruct T as [s|[|]| |[|] m e]; cbn; intros H; try discriminate; now split.
Qed.

Lemma throughput_percent_value S R T :
  Z.abs S < 2 ^ 64 -> Z.abs R < 2 ^ 64 -> Py.is_zero T = false ->
  throughput_percent S R T = Py.int_of_float (throughput_value S R T).
Proof.
  intros HS HR HT. rewrite throughput_percent_eq by assumption.
  destruct (Z2F_bound S HS) as [_ [ES _]]. destruct (Z2F_bound R HR) as [_ [ER _]].
  rewrite ES, ER. reflexivity.
Qed.

(** C1 as stated fails: the code truncates where the claim rounds.  Two
    consecutive ticks select eth0; 700000 bytes are sent in the second
    between them, which is 0.67% of the ceiling: the row shows 0, the
    claim's formula gives 1. *)
Lemma network_percent_truncates :
  let caps := mkCaps false false in
  let h0 := with_net (inr [("eth0", mkNetio 1000 2000)]) (Py.Z2F 1700000000) quiet_host in
  let h1 := with_net (inr [("eth0", mkNetio 701000 2000)]) (Py.Z2F 1700000001) quiet_host in
  let s0 := tick caps Overlay_built h0 in
  previous_net s0 = Some (sample_of "eth0" (mkNetio 1000 2000) (Py.Z2F 1700000000)) /\
  select_top [("eth0", mkNetio 701000 2000)] = Some ("eth0", mkNetio 701000 2000) /\
  elapsed (time h1) (sample_of "eth0" (mkNetio 1000 2000) (Py.Z2F 1700000000)) = Py.f1 /\
  bar (row_net (tick caps s0 h1)) = 0 /\
  value_label (row_net (tick caps s0 h1)) = "0%" /\
  spec_net_percent 700000 0 (QArith_base.inject_Z 1) = 1 /\
  bar (row_net (tick caps s0 h1)) <> spec_net_percent 700000 0 (QArith_base.inject_Z 1).
Proof. cbv zeta. repeat split; try (vm_compute; reflexivity). vm_compute. discriminate. Qed.

(** C1, amended.  On a tick that selects the interface of the carried
    sample, with the sent counter [S] bytes and the received counter [R]
    bytes above the carried ones ([S] and [R] below [2^64]) and a positive
    elapsed time [T] of at least [2^-64] seconds, the network row shows
    [min(100, int(x))], where [x] is [((S/T + R/T)/1024/102400)*100]
    computed in double precision and [int] truncates [x] (it does not round
    to the nearest integer); the row's label names the interface. *)
Theorem network_percent_same_interface caps s h pernic prev curr S R T :
  previous_net s = Some prev ->
  net_io_counters h = inr pernic ->
  select_top pernic = Some (net_name prev, curr) ->
  bytes_sent curr = net_sent prev + S -> bytes_recv curr = net_recv prev + R ->
  0 <= S < 2 ^ 64 -> 0 <= R < 2 ^ 64 ->
  elapsed (time h) prev = T -> Py.gt0 T = true -> abs_ge (-64) T ->
  exists n,
    Py.int_of_float (throughput_value S R T) = inr n /\ 0 <= n /\
    bar (row_net (tick caps s h)) = Z.min 100 n /\
    value_label (row_net (tick caps s h)) = Py.str_of_int (Z.min 100 n) ++ "%" /\
    label (row_net (tick caps s h)) = "NETWORK (" ++ net_name prev ++ ")".
Proof.
  intros Hp Hc Hsel Hs Hr HS HR HT Hgt Hge.
  destruct (gt0_not_le0 T Hgt) as [Hle Hsign].
  pose proof (abs_ge_not_zero _ _ Hge) as Hz.
  destruct (throughput_percent_returns S R T) as [n [Hn Hpos]]; try assumption; try lia.
  specialize (Hpos ltac:(lia) ltac:(lia) Hsign).
  assert (Hpct : net_pct prev curr (time h) = inr (Z.min 100 n)).
  { unfold net_pct. rewrite HT. unfold divisor. rewrite Hle.
    replace (bytes_sent curr - net_sent prev) with S by lia.
    replace (bytes_recv curr - net_recv prev) with R by lia.
    now rewrite Hn. }
  destruct (tick_same_interface caps s h pernic prev curr _ Hp Hc Hsel Hpct) as [_ Hrow].
  exists n. rewrite <- throughput_percent_value by (assumption || lia).
  split; [exact Hn|]. split; [exact Hpos|]. rewrite Hrow, update_value_shown.
  cbn [bar value_label label setText shown Py.int Py.ret].
  rewrite clamp_percent_id by lia. repeat split.
Qed.

Lemma network_percent_same_interface_witness :
  let caps := mkCaps false false in
  let h0 := with_net (inr [("eth0", mkNetio 1000 2000)]) (Py.Z2F 1700000000) quiet_host in
  let h1 := with_net (inr [("eth0", mkNetio 30409704 2000)]) (Py.Z2F 1700000001) quiet_host in
  let s0 := tick caps Overlay_built h0 in
  Py.gt0 Py.f1 = true /\
  exists n, Py.int_of_float (throughput_value 30408704 0 Py.f1) = inr n /\ 0 <= n /\
            bar (row_net (tick caps s0 h1)) = Z.min 100 n.
Proof.
  cbv zeta. split; [reflexivity|].
  destruct (network_percent_same_interface (mkCaps false false)
              (tick (mkCaps false false) Overlay_built
                 (with_net (inr [("eth0", mkNetio 1000 2000)]) (Py.Z2F 1700000000) quiet_host))
              (with_net (inr [("eth0", mkNetio 30409704 2000)]) (Py.Z2F 1700000001) quiet_host)
              [("eth0", mkNetio 30409704 2000)]
              (sample_of "eth0" (mkNetio 1000 2000) (Py.Z2F 1700000000))
              (mkNetio 30409704 2000) 30408704 0 Py.f1)
    as [n [H1 [H2 [H3 _]]]].
  - vm_compute. reflexivity.
  - reflexivity.
  - reflexivity.
  - reflexivity.
  - reflexivity.
  - lia.
  - lia.
  - vm_compute. reflexivity.
  - reflexivity.
  - cbn. lia.
  - exists n. repeat split; assumption.
Defined.

(** In double precision 29696 KB/s is 28.999999999999996% of the ceiling:
    the row shows 28 where exact arithmetic gives 29. *)
Example network_percent_double_precision :
  Py.int_of_float (throughput_value 30408704 0 Py.f1) = inr 28.
Proof. vm_compute. reflexivity. Qed.

(** C10.  On a tick at which some interface has a positive cumulative
    byte total, an interface with the largest total is selected and the
    carried sample is overwritten with its name, its two counters and the
    tick's timestamp -- also when the selection differs from the carried
    one, and when nothing was carried -- so that on the next tick, if the
    same interface is selected again, the row shows the rate measured
    against this sample.  On a tick at which no interface has a positive
    total the carried sample is left as it was.  (Counters are 64-bit
    counters and elapsed times are usable: not NaN and, when positive, at
    least [2^-64] seconds.) *)
Theorem previous_net_overwritten caps s h pernic :
  net_io_counters h = inr pernic ->
  (forall it, In it pernic ->
     counter (bytes_sent (snd it)) /\ counter (bytes_recv (snd it))) ->
  (forall prev, previous_net s = Some prev ->
     counter (net_sent prev) /\ counter (net_recv prev) /\
     usable_elapsed (elapsed (time h) prev)) ->
  (Exists (fun it => 0 < total it) pernic ->
   exists nic curr,
     select_top pernic = Some (nic, curr) /\ In (nic, curr) pernic /\
     (forall it, In it pernic -> total it <= total (nic, curr)) /\
     previous_net (tick caps s h) = Some (sample_of nic curr (time h)) /\
     forall h' pernic' curr',
       net_io_counters h' = inr pernic' ->
       select_top pernic' = Some (nic, curr') ->
       counter (bytes_sent curr') -> counter (bytes_recv curr') ->
       usable_elapsed (elapsed (time h') (sample_of nic curr (time h))) ->
       exists pct,
         net_pct (sample_of nic curr (time h)) curr' (time h') = inr pct /\
         bar (row_net (tick caps (tick caps s h) h')) = clamp_percent pct /\
         previous_net (tick caps (tick caps s h) h') = Some (sample_of nic curr' (time h'))) /\
  (~ Exists (fun it => 0 < total it) pernic ->
   previous_net (tick caps s h) = previous_net s).
Proof.
  intros Hc Hcnt Hprev. destruct (select_top_spec pernic) as [Hsome Hnone]. split.
  - intros Hex. destruct (Hsome Hex) as [nic [curr [Hsel [Hin [_ Hmax]]]]].
    exists nic, curr. split; [exact Hsel|]. split; [exact Hin|]. split; [exact Hmax|].
    destruct (Hcnt _ Hin) as [Cs Cr]. cbn [snd] in Cs, Cr.
    assert (Hstore : previous_net (tick caps s h) = Some (sample_of nic curr (time h))).
    { destruct (tick_net caps s h) as [H1 _]. rewrite H1. unfold net_step.
      rewrite Hc, Hsel. destruct (previous_net s) as [prev|] eqn:Ep; [|reflexivity].
      destruct (String.eqb (net_name prev) nic) eqn:En; [|reflexivity].
      destruct (Hprev prev eq_refl) as [Ps [Pr Pt]].
      destruct (net_pct_returns prev curr (time h) Ps Pr Cs Cr Pt) as [pct [Hpct _]].
      now rewrite Hpct. }
    split; [exact Hstore|].
    intros h' pernic' curr' Hc' Hsel' Cs' Cr' Ht'.
    destruct (net_pct_returns (sample_of nic curr (time h)) curr' (time h'))
      as [pct [Hpct _]]; try assumption.
    exists pct. split; [exact Hpct|].
    destruct (tick_same_interface caps (tick caps s h) h' pernic'
                (sample_of nic curr (time h)) curr' pct Hstore Hc' Hsel' Hpct) as [Hp Hr].
    split; [|exact Hp]. rewrite Hr. apply bar_update_int.
  - intros Hno. destruct (tick_net caps s h) as [H1 _]. rewrite H1. unfold net_step.
    now rewrite Hc, (Hnone Hno).
Qed.

Lemma previous_net_overwritten_witness :
  let caps := mkCaps false false in
  let first := sample_of "eth0" (mkNetio 1000 2000) (Py.Z2F 1700000000) in
  let h0 := with_net (inr [("eth0", mkNetio 1000 2000)]) (Py.Z2F 1700000000) quiet_host in
  let pernic := [("lo", mkNetio 300 300); ("eth0", mkNetio 6000 9000)] in
  let h1 := with_net (inr pernic) (Py.Z2F 1700000001) quiet_host in
  let s0 := tick caps Overlay_built h0 in
  previous_net s0 = Some first /\
  usable_elapsed (elapsed (time h1) first) /\
  Exists (fun it => 0 < total it) pernic /\
  exists nic curr,
    select_top pernic = Some (nic, curr) /\
    previous_net (tick caps s0 h1) = Some (sample_of nic curr (time h1)).
Proof.
  cbv zeta.
  set (first := sample_of "eth0" (mkNetio 1000 2000) (Py.Z2F 1700000000)).
  set (h0 := with_net (inr [("eth0", mkNetio 1000 2000)]) (Py.Z2F 1700000000) quiet_host).
  set (pernic := [("lo", mkNetio 300 300); ("eth0", mkNetio 6000 9000)]).
  set (h1 := with_net (inr pernic) (Py.Z2F 1700000001) quiet_host).
  assert (Hprev : previous_net (tick (mkCaps false false) Overlay_built h0) = Some first)
    by (vm_compute; reflexivity).
  assert (Hel : usable_elapsed (elapsed (time h1) first)).
  { right. assert (E : elapsed (time h1) first = Py.f1) by (vm_compute; reflexivity).
    rewrite E. unfold Py.f1. cbn. lia. }
  assert (Hex : Exists (fun it => 0 < total it) pernic)
    by (apply Exists_cons_hd; reflexivity).
  split; [exact Hprev|]. split; [exact Hel|]. split; [exact Hex|].
  destruct (previous_net_overwritten (mkCaps false false)
              (tick (mkCaps false false) Overlay_built h0) h1 pernic) as [H _].
  - reflexivity.
  - intros it [<-|[<-|[]]]; unfold counter; cbn; lia.
  - intros prev Hp. rewrite Hprev in Hp. injection Hp as <-.
    split; [unfold counter; cbn; lia|]. split; [unfold counter; cbn; lia|]. exact Hel.
  - destruct (H Hex) as [nic [curr [Hsel [_ [_ [Hst _]]]]]].
    exists nic, curr. split; assumption.
Defined.

(** ** GPU rows: loops over the rows *)

Lemma nth_error_update_nth idx v rows i :
  nth_error (update_nth idx v rows) i =
  if Nat.eqb i idx then option_map (show_value v) (nth_error rows i)
  else nth_error rows i.
Proof.
  revert idx i. induction rows as [|[name row] rows IH]; intros [|idx] [|i]; cbn;
    try reflexivity.
  - now destruct (Nat.eqb i idx).
  - apply IH.
Qed.

Lemma length_update_rows val idxs rows :
  List.length (update_rows val idxs rows) = List.length rows.
Proof.
  unfold update_rows. revert rows. induction idxs as [|a l IH]; intros rows; cbn.
  - reflexivity.
  - now rewrite IH, length_update_nth.
Qed.

Lemma nth_error_update_rows val idxs rows i :
  NoDup idxs ->
  nth_error (update_rows val idxs rows) i =
  if existsb (Nat.eqb i) idxs
  then option_map (show_value (value_of (val i))) (nth_error rows i)
  else nth_error rows i.
Proof.
  unfold update_rows. intros Hnd. revert rows.
  induction idxs as [|a l IH]; intros rows; cbn [fold_left existsb].
  - reflexivity.
  - inversion Hnd as [|x xs Hnotin Hnd']; subst.
    rewrite IH by assumption. rewrite nth_error_update_nth.
    destruct (Nat.eqb i a) eqn:E; cbn [orb].
    + apply Nat.eqb_eq in E. subst a.
      assert (Hex : existsb (Nat.eqb i) l = false).
      { destruct (existsb (Nat.eqb i) l) eqn:X; [|reflexivity].
        apply existsb_exists in X. destruct X as [y [Hy Ey]].
        apply Nat.eqb_eq in Ey. subst y. contradiction. }
      now rewrite Hex.
    + reflexivity.
Qed.

Lemma existsb_seq i n : existsb (Nat.eqb i) (seq 0 n) = (i <? n)%nat.
Proof.
  destruct (i <? n)%nat eqn:E.
  - apply Nat.ltb_lt in E. apply existsb_exists. exists i.
    split; [apply in_seq; lia | apply Nat.eqb_refl].
  - apply Nat.ltb_ge in E. destruct (existsb _ _) eqn:X; [|reflexivity].
    apply existsb_exists in X. destruct X as [y [Hy Ey]].
    apply Nat.eqb_eq in Ey. subst y. apply in_seq in Hy. lia.
Qed.

(** Updating every row: the numbers shown are the values, clamped. *)
Lemma bars_update_rows val rows m :
  (List.length rows <= m)%nat ->
  map (fun r => bar (snd r)) (update_rows val (seq 0 m) rows) =
  map (fun idx => shown (value_of (val idx))) (seq 0 (List.length rows)).
Proof.
  intros Hm. apply nth_error_ext. intros i.
  rewrite !nth_error_map, nth_error_update_rows by apply seq_NoDup.
  rewrite existsb_seq, nth_error_seq.
  destruct (i <? List.length rows)%nat eqn:E.
  - apply Nat.ltb_lt in E.
    assert (Hi : (i <? m)%nat = true) by (apply Nat.ltb_lt; lia). rewrite Hi.
    destruct (nth_error rows i) as [[name row]|] eqn:N.
    + unfold show_value. cbn [option_map fst snd]. now rewrite update_value_shown.
    + apply nth_error_None in N. lia.
  - apply Nat.ltb_ge in E.
    assert (N : nth_error rows i = None) by (apply nth_error_None; lia).
    rewrite N. now destruct (i <? m)%nat.
Qed.

Lemma for_each_row_steps n body val idxs :
  (forall idx, row_step n (body idx) idx (val idx)) ->
  forall s, List.length (gpu_rows s) = n ->
    (forallb (fun idx => is_ok (val idx)) idxs = true ->
     snd (for_each idxs body s) = inr tt /\
     gpu_rows (fst (for_each idxs body s)) = update_rows val idxs (gpu_rows s)) /\
    (forallb (fun idx => is_ok (val idx)) idxs = false ->
     (exists e, snd (for_each idxs body s) = inl e) /\
     List.length (gpu_rows (fst (for_each idxs body s))) = n).
Proof.
  intros Hbody. induction idxs as [|a l IH]; intros s Hs; cbn [for_each forallb].
  - split; [intros _; now split | discriminate].
  - specialize (Hbody a s Hs). unfold cbind.
    destruct (val a) as [e|v] eqn:Ea; cbn [is_ok andb].
    + destruct Hbody as [Hr Hg]. destruct (body a s) as [s' r]. cbn [fst snd] in *.
      subst r. split; [discriminate|]. intros _. split; [now exists e|].
      cbn [fst]. now rewrite Hg.
    + destruct Hbody as [Hr Hg]. destruct (body a s) as [s' r]. cbn [fst snd] in *.
      subst r. assert (Hs' : List.length (gpu_rows s') = n)
        by (now rewrite Hg, length_update_nth).
      destruct (IH s' Hs') as [IHok IHfail]. split.
      * intros Hall. destruct (IHok Hall) as [H1 H2]. split; [exact H1|].
        rewrite H2, Hg. unfold update_rows. cbn [fold_left]. now rewrite Ea.
      * exact IHfail.
Qed.

Lemma update_nth_out_of_range idx v rows :
  (List.length rows <= idx)%nat -> update_nth idx v rows = rows.
Proof.
  revert idx. induction rows as [|[name row] rows IH]; intros [|idx] H; cbn in *;
    try reflexivity; try lia.
  rewrite IH by lia. reflexivity.
Qed.

Lemma forallb_seq_min (f : nat -> bool) n m :
  (forall idx, (m <= idx)%nat -> f idx = true) ->
  forallb f (seq 0 n) = forallb f (seq 0 (Nat.min n m)).
Proof.
  intros Hf. apply Bool.eq_iff_eq_true. rewrite !forallb_forall. split.
  - intros H idx Hin. apply H. apply in_seq in Hin. apply in_seq. lia.
  - intros H idx Hin. apply in_seq in Hin.
    destruct (Nat.lt_ge_cases idx m) as [Hlt|Hge]; [|now apply Hf].
    apply H. apply in_seq. lia.
Qed.

Lemma update_row_step n idx v : row_step n (update_row idx v) idx (inr v).
Proof. intros s _. now split. Qed.

Lemma nvml_body_step h count n idx :
  row_step n
    (cbind (gets (fun s => List.length (gpu_rows s))) (fun len =>
       if ((idx <? count) && (idx <? len))%nat then
         cbind (ask (CallNvmlDeviceGetHandleByIndex idx) (nvmlDeviceGetHandleByIndex h idx))
           (fun hd =>
              cbind (ask (CallNvmlDeviceGetUtilizationRates hd)
                         (nvmlDeviceGetUtilizationRates h hd))
                (fun util => update_row idx (Py.Int util)))
       else if (idx <? len)%nat then update_row idx (Py.Int 0)
       else cret tt))
    idx (nvml_row_value h count n idx).
Proof.
  intros s Hs. unfold nvml_row_value, nvml_util, cbind, gets, ask, update_row, modify, cret.
  cbn [fst snd]. rewrite Hs.
  destruct ((idx <? count)%nat && (idx <? n)%nat) eqn:E.
  - destruct (nvmlDeviceGetHandleByIndex h idx) as [e|hd]; cbn; [now split|].
    destruct (nvmlDeviceGetUtilizationRates h hd) as [e|u]; cbn; now split.
  - destruct (idx <? n)%nat eqn:En; cbn; [now split|].
    split; [reflexivity|]. apply Nat.ltb_ge in En.
    symmetry. apply update_nth_out_of_range. lia.
Qed.

Lemma gputil_body_step gpus n idx :
  row_step n
    (if (idx <? List.length gpus)%nat then
       cbind (lift (Py.index gpus idx)) (fun g =>
         cbind (lift (Py.int_of_float (Py.fmul (gpu_load g) f100))) (fun load =>
           update_row idx (Py.Int load)))
     else update_row idx (Py.Int 0))
    idx (gputil_row_value gpus idx).
Proof.
  intros s Hs. unfold gputil_row_value, gputil_load, cbind, lift, update_row, modify.
  destruct (idx <? List.length gpus)%nat; [|now split].
  destruct (Py.index gpus idx) as [e|g]; cbn; [now split|].
  destruct (Py.int_of_float _) as [e|l]; cbn; now split.
Qed.

(** [zero_all_rows] returns and leaves 0 on every row. *)
Lemma zero_all_rows_values s :
  snd (zero_all_rows s) = inr tt /\
  gpu_values (fst (zero_all_rows s)) = repeat 0 (List.length (gpu_rows s)).
Proof.
  unfold zero_all_rows, cbind, gets. cbn [fst snd].
  set (n := List.length (gpu_rows s)).
  destruct (for_each_row_steps n (fun idx => update_row idx (Py.Int 0))
              (fun _ => inr (Py.Int 0)) (seq 0 n)
              (fun idx => update_row_step n idx (Py.Int 0)) s eq_refl) as [Hok _].
  destruct Hok as [H1 H2].
  { apply forallb_forall. reflexivity. }
  destruct (for_each _ _ s) as [s' r]. cbn [fst snd] in *. subst r.
  split; [reflexivity|]. unfold gpu_values. rewrite H2.
  rewrite bars_update_rows by (fold n; lia). fold n.
  apply nth_error_ext. intros i. rewrite nth_error_map, nth_error_seq.
  destruct (i <? n)%nat eqn:E.
  - apply Nat.ltb_lt in E. now rewrite nth_error_repeat.
  - apply Nat.ltb_ge in E. symmetry. apply nth_error_None. now rewrite repeat_length.
Qed.

Lemma forallb_ext_in {A} (f g : A -> bool) l :
  (forall x, In x l -> f x = g x) -> forallb f l = forallb g l.
Proof.
  induction l as [|a l IH]; intros H; cbn; [reflexivity|].
  rewrite (H a) by now left. rewrite IH; [reflexivity|].
  intros x Hx. apply H. now right.
Qed.

Lemma gputil_rows_ok gpus n :
  forallb (fun idx => is_ok (gputil_row_value gpus idx)) (seq 0 n) =
  forallb (fun idx => is_ok (gputil_load gpus idx)) (seq 0 (Nat.min n (List.length gpus))).
Proof.
  rewrite (forallb_seq_min _ n (List.length gpus)).
  - apply forallb_ext_in. intros idx Hin. apply in_seq in Hin.
    unfold gputil_row_value.
    assert (E : (idx <? List.length gpus)%nat = true) by (apply Nat.ltb_lt; lia).
    rewrite E. now destruct (gputil_load gpus idx).
  - intros idx Hge. unfold gputil_row_value.
    assert (E : (idx <? List.length gpus)%nat = false) by (apply Nat.ltb_ge; lia).
    now rewrite E.
Qed.

Lemma nvml_rows_ok h count n :
  forallb (fun idx => is_ok (nvml_row_value h count n idx)) (seq 0 (Nat.max n count)) =
  forallb (fun idx => is_ok (nvml_util h idx)) (seq 0 (Nat.min count n)).
Proof.
  rewrite (forallb_seq_min _ (Nat.max n count) (Nat.min count n)).
  - replace (Nat.min (Nat.max n count) (Nat.min count n)) with (Nat.min count n) by lia.
    apply forallb_ext_in. intros idx Hin. apply in_seq in Hin.
    unfold nvml_row_value.
    assert (E : ((idx <? count) && (idx <? n))%nat = true).
    { apply andb_true_iff. split; apply Nat.ltb_lt; lia. }
    rewrite E. now destruct (nvml_util h idx).
  - intros idx Hge. unfold nvml_row_value.
    assert (E : ((idx <? count) && (idx <? n))%nat = false).
    { apply andb_false_iff. destruct (Nat.lt_ge_cases idx count) as [Hc|Hc].
      - right. apply Nat.ltb_ge. lia.
      - left. apply Nat.ltb_ge. lia. }
    now rewrite E.
Qed.

(** What the fallback pass leaves on the rows. *)
Lemma _update_gpus_gputil_values caps h s :
  gpu_values (exec (_update_gpus_gputil caps h) s) =
  fallback_values caps h (List.length (gpu_rows s)).
Proof.
  unfold exec, _update_gpus_gputil, fallback_values.
  destruct (GPUtil_available caps); [|apply zero_all_rows_values].
  unfold try_except, cbind, ask, gets. cbn [fst snd].
  destruct (getGPUs h) as [e|gpus].
  { apply (zero_all_rows_values (log_call CallGetGPUs s)). }
  change (gpu_rows (log_call CallGetGPUs s)) with (gpu_rows s).
  set (n := List.length (gpu_rows s)).
  destruct (for_each_row_steps n _ (gputil_row_value gpus) (seq 0 n)
              (fun idx => gputil_body_step gpus n idx) (log_call CallGetGPUs s) eq_refl)
    as [Hok Hfail].
  rewrite gputil_rows_ok in Hok, Hfail.
  destruct (forallb _ (seq 0 (Nat.min n (List.length gpus)))) eqn:All.
  - destruct (Hok eq_refl) as [H1 H2]. clear Hok Hfail.
    destruct (for_each _ _ (log_call CallGetGPUs s)) as [s' r]. cbn [fst snd] in *.
    subst r. cbn [fst]. unfold gpu_values. rewrite H2.
    change (gpu_rows (log_call CallGetGPUs s)) with (gpu_rows s).
    rewrite bars_update_rows by (fold n; lia). fold n.
    apply map_ext. intros idx. unfold gputil_row_value.
    destruct (idx <? List.length gpus)%nat; [|reflexivity].
    destruct (gputil_load gpus idx); reflexivity.
  - destruct (Hfail eq_refl) as [[e He] Hlen]. clear Hok Hfail.
    destruct (for_each _ _ (log_call CallGetGPUs s)) as [s' r]. cbn [fst snd] in *.
    subst r. rewrite <- Hlen. apply zero_all_rows_values.
Qed.

(** What the GPU part of a tick leaves on the rows. *)
Lemma update_gpus_values caps h s :
  gpu_values (exec (update_gpus caps h) s) =
  sampled_values caps h (List.length (gpu_rows s)).
Proof.
  unfold update_gpus, sampled_values.
  destruct (NVML caps); [|apply _update_gpus_gputil_values].
  unfold exec at 1, try_except, cbind at 1, ask at 1. cbn [fst snd].
  destruct (nvmlDeviceGetCount h) as [e|count].
  { apply (_update_gpus_gputil_values caps h (log_call CallNvmlDeviceGetCount s)). }
  unfold cbind at 1, gets at 1. cbn [fst snd].
  change (gpu_rows (log_call CallNvmlDeviceGetCount s)) with (gpu_rows s).
  set (n := List.length (gpu_rows s)).
  destruct (for_each_row_steps n _ (nvml_row_value h count n) (seq 0 (Nat.max n count))
              (fun idx => nvml_body_step h count n idx)
              (log_call CallNvmlDeviceGetCount s) eq_refl) as [Hok Hfail].
  rewrite nvml_rows_ok in Hok, Hfail. unfold native_values.
  destruct (forallb _ (seq 0 (Nat.min count n))) eqn:All.
  - destruct (Hok eq_refl) as [H1 H2]. clear Hok Hfail.
    destruct (for_each _ _ (log_call CallNvmlDeviceGetCount s)) as [s' r].
    cbn [fst snd] in *. subst r. cbn [fst]. unfold gpu_values. rewrite H2.
    change (gpu_rows (log_call CallNvmlDeviceGetCount s)) with (gpu_rows s).
    rewrite bars_update_rows by (fold n; lia). fold n.
    apply map_ext_in. intros idx Hin. apply in_seq in Hin. unfold nvml_row_value.
    assert (En : (idx <? n)%nat = true) by (apply Nat.ltb_lt; lia). rewrite En.
    rewrite andb_true_r. destruct (idx <? count)%nat; [|reflexivity].
    destruct (nvml_util h idx); reflexivity.
  - destruct (Hfail eq_refl) as [[e He] Hlen]. clear Hok Hfail.
    destruct (for_each _ _ (log_call CallNvmlDeviceGetCount s)) as [s' r].
    cbn [fst snd] in *. subst r. rewrite <- Hlen.
    apply (_update_gpus_gputil_values caps h s').
Qed.

Lemma row_ids_length rows rows' :
  row_ids rows' = row_ids rows -> List.length rows' = List.length rows.
Proof.
  unfold row_ids. intros H. apply (f_equal (@List.length _)) in H.
  now rewrite !length_map in H.
Qed.

(** The GPU rows after a tick: the same rows, showing the sampled
    values. *)
Lemma tick_gpu caps s h :
  gpu_values (tick caps s h) = sampled_values caps h (List.length (gpu_rows s)) /\
  row_ids (gpu_rows (tick caps s h)) = row_ids (gpu_rows s).
Proof.
  rewrite tick_parts.
  set (s1 := exec (update_battery h) s).
  assert (H1 : gpu_rows s1 = gpu_rows s) by apply update_battery_frame.
  set (s4 := exec (modify _) (exec (modify _) (exec (modify _) s1))).
  assert (H4 : gpu_rows s4 = gpu_rows s) by exact H1.
  set (s5 := exec (update_gpus caps h) s4).
  destruct (update_net_step h s5) as [_ [_ Hg]].
  unfold gpu_values. rewrite Hg. fold (gpu_values s5). unfold s5.
  rewrite update_gpus_values, H4. split; [reflexivity|].
  destruct (update_gpus_frame caps h) as [_ [_ Hids]].
  specialize (Hids s4). unfold same_row_ids in Hids. fold (exec (update_gpus caps h) s4) in Hids.
  now rewrite Hids, H4.
Qed.

(** ** GPU rows: sampling at a tick *)

Lemma forallb_seq_true (f : nat -> bool) m :
  (forall idx, (idx < m)%nat -> f idx = true) -> forallb f (seq 0 m) = true.
Proof.
  intros H. apply forallb_forall. intros idx Hin. apply in_seq in Hin. apply H. lia.
Qed.

Lemma forallb_seq_false (f : nat -> bool) m idx :
  (idx < m)%nat -> f idx = false -> forallb f (seq 0 m) = false.
Proof.
  intros Hlt Hf. destruct (forallb f (seq 0 m)) eqn:E; [|reflexivity].
  rewrite forallb_forall in E. rewrite <- Hf. symmetry. apply E. apply in_seq. lia.
Qed.

(** C5 as stated fails.  Two devices are enumerated and the fallback is
    not installed.  When the query of device 0 fails, device 1 -- whose own
    query would return 50 -- shows 0; when the query of device 1 fails,
    device 0, already set to its queried 70, is reset to 0. *)
Lemma gpu_failure_zeroes_other_devices :
  let caps := mkCaps true false in
  let s0 := Overlay_init (fun _ => "") caps (two_gpus (fun _ => inr 0)) in
  let h1 := two_gpus (fun hd => if Nat.eqb hd 0 then inl Py.BackendError else inr 50) in
  let h2 := two_gpus (fun hd => if Nat.eqb hd 0 then inr 70 else inl Py.BackendError) in
  gpu_names_of s0 = ["GTX"; "RTX"] /\
  nvml_util h1 0 = inl Py.BackendError /\ nvml_util h1 1 = inr 50 /\
  gpu_values (tick caps s0 h1) = [0; 0] /\
  nvml_util h2 0 = inr 70 /\ nvml_util h2 1 = inl Py.BackendError /\
  gpu_values (tick caps s0 h2) = [0; 0].
Proof. cbv zeta. repeat split; vm_compute; reflexivity. Qed.

(** C5, amended.  A tick keeps the enumerated rows.  When every query of
    the native pass succeeds, each row shows its device's queried value (0
    beyond the device count).  A failure of the device count or of one
    device's query abandons the native pass, and every row is sampled again
    by the fallback pass, as when NVML is absent: each row then shows the
    load of the fallback device with the same index (0 beyond the
    fallback's device count), and every row shows 0 when the fallback is
    not installed, fails to list the devices, or fails on any one device. *)
Theorem gpu_sampling caps s h :
  let n := List.length (gpu_rows s) in
  row_ids (gpu_rows (tick caps s h)) = row_ids (gpu_rows s) /\
  (forall count,
     NVML caps = true -> nvmlDeviceGetCount h = inr count ->
     (forall idx, (idx < count)%nat -> (idx < n)%nat -> exists u, nvml_util h idx = inr u) ->
     gpu_values (tick caps s h) =
       map (fun idx => if (idx <? count)%nat then percent_of (nvml_util h idx) else 0)
           (seq 0 n)) /\
  (forall count idx e,
     NVML caps = true -> nvmlDeviceGetCount h = inr count ->
     (idx < count)%nat -> (idx < n)%nat -> nvml_util h idx = inl e ->
     gpu_values (tick caps s h) = fallback_values caps h n) /\
  (forall e,
     NVML caps = true -> nvmlDeviceGetCount h = inl e ->
     gpu_values (tick caps s h) = fallback_values caps h n) /\
  (NVML caps = false -> gpu_values (tick caps s h) = fallback_values caps h n) /\
  (GPUtil_available caps = false -> fallback_values caps h n = repeat 0 n) /\
  (forall e, getGPUs h = inl e -> fallback_values caps h n = repeat 0 n) /\
  (forall gpus idx e,
     GPUtil_available caps = true -> getGPUs h = inr gpus ->
     (idx < n)%nat -> (idx < List.length gpus)%nat -> gputil_load gpus idx = inl e ->
     fallback_values caps h n = repeat 0 n) /\
  (forall gpus,
     GPUtil_available caps = true -> getGPUs h = inr gpus ->
     (forall idx, (idx < n)%nat -> (idx < List.length gpus)%nat ->
                  exists l, gputil_load gpus idx = inr l) ->
     fallback_values caps h n =
       map (fun idx => if (idx <? List.length gpus)%nat
                       then percent_of (gputil_load gpus idx) else 0)
           (seq 0 n)).
Proof.
  cbv zeta. destruct (tick_gpu caps s h) as [Hv Hids]. rewrite Hv.
  set (n := List.length (gpu_rows s)).
  split; [exact Hids|]. unfold sampled_values, native_values.
  split; [|split; [|split; [|split; [|split; [|split; [|split]]]]]].
  - intros count HN Hc Hall. rewrite HN, Hc.
    rewrite forallb_seq_true; [reflexivity|].
    intros idx Hlt. destruct (Hall idx) as [u Hu]; try lia. now rewrite Hu.
  - intros count idx e HN Hc Hlc Hln He. rewrite HN, Hc.
    rewrite (forallb_seq_false _ _ idx); [reflexivity | lia | now rewrite He].
  - intros e HN Hc. now rewrite HN, Hc.
  - intros HN. now rewrite HN.
  - intros HG. unfold fallback_values. now rewrite HG.
  - intros e He. unfold fallback_values. rewrite He. now destruct (GPUtil_available caps).
  - intros gpus idx e HG Hg Hln Hlg He. unfold fallback_values. rewrite HG, Hg.
    rewrite (forallb_seq_false _ _ idx); [reflexivity | lia | now rewrite He].
  - intros gpus HG Hg Hall. unfold fallback_values. rewrite HG, Hg.
    rewrite forallb_seq_true; [reflexivity|].
    intros idx Hlt. destruct (Hall idx) as [l Hl]; try lia. now rewrite Hl.
Qed.

Lemma gpu_sampling_witness :
  let caps := mkCaps true false in
  let s0 := Overlay_init (fun _ => "") caps (two_gpus (fun _ => inr 0)) in
  let h := two_gpus (fun hd => if Nat.eqb hd 0 then inr 70 else inr 130) in
  NVML caps = true /\ nvmlDeviceGetCount h = inr 2%nat /\
  gpu_values (tick caps s0 h) = [70; 100].
Proof.
  cbv zeta. split; [reflexivity|]. split; [reflexivity|].
  refine (proj1 (proj2 (gpu_sampling (mkCaps true false)
            (Overlay_init (fun _ => "") (mkCaps true false) (two_gpus (fun _ => inr 0)))
            (two_gpus (fun hd => if Nat.eqb hd 0 then inr 70 else inr 130))))
            2%nat eq_refl eq_refl _).
  intros [|[|idx]] Hc Hn; [now exists 70 | now exists 130 | lia].
Defined.

(** ** GPU rows: enumeration *)

Lemma no_gputil_call_refl s : no_gputil_call s s.
Proof. intros H. exact H. Qed.

Lemma no_gputil_call_trans s1 s2 s3 :
  no_gputil_call s1 s2 -> no_gputil_call s2 s3 -> no_gputil_call s1 s3.
Proof. unfold no_gputil_call. auto. Qed.

Lemma log_call_no_gputil c s : c <> CallGetGPUs -> no_gputil_call s (log_call c s).
Proof.
  intros Hc H. cbn in H. apply in_app_or in H. destruct H as [H|[H|[]]]; [exact H|].
  now elim Hc.
Qed.

Lemma native_body_run decode h i s :
  let body :=
    cbind (ask (CallNvmlDeviceGetHandleByIndex i) (nvmlDeviceGetHandleByIndex h i))
      (fun hd => cbind (ask (CallNvmlDeviceGetName hd) (nvmlDeviceGetName h hd))
         (fun name => cret (name_text decode name))) in
  snd (body s) = native_name decode h i /\
  gpu_rows (fst (body s)) = gpu_rows s /\
  no_gputil_call s (fst (body s)).
Proof.
  cbv zeta. unfold native_name, cbind, ask, cret. cbn [fst snd].
  destruct (nvmlDeviceGetHandleByIndex h i) as [e|hd]; cbn.
  { repeat split. apply log_call_no_gputil. discriminate. }
  destruct (nvmlDeviceGetName h hd) as [e|name]; cbn; repeat split;
    (eapply no_gputil_call_trans; apply log_call_no_gputil; discriminate).
Qed.

Lemma cbind_run {A B} (c : Cmd A) (k : A -> Cmd B) s :
  cbind c k s = match c s with
                | (s', inr a) => k a s'
                | (s', inl e) => (s', inl e)
                end.
Proof. reflexivity. Qed.

Lemma collect_native_names decode h idxs s :
  let body := fun i =>
    cbind (ask (CallNvmlDeviceGetHandleByIndex i) (nvmlDeviceGetHandleByIndex h i))
      (fun hd => cbind (ask (CallNvmlDeviceGetName hd) (nvmlDeviceGetName h hd))
         (fun name => cret (name_text decode name))) in
  snd (collect idxs body s) = native_names_from decode h idxs /\
  gpu_rows (fst (collect idxs body s)) = gpu_rows s /\
  no_gputil_call s (fst (collect idxs body s)).
Proof.
  intros body. revert s.
  induction idxs as [|i rest IH]; intros s; cbn [collect native_names_from].
  - repeat split. apply no_gputil_call_refl.
  - destruct (native_body_run decode h i s) as [Hr [Hg Hc]]. cbv zeta in Hr, Hg, Hc.
    fold (body i) in Hr, Hg, Hc.
    rewrite (cbind_run (body i)).
    destruct (body i s) as [s1 r1]. cbn [fst snd] in Hr, Hg, Hc. subst r1.
    destruct (native_name decode h i) as [e|name]; cbn [Py.bind]; [now repeat split|].
    rewrite (cbind_run (collect rest body)). destruct (IH s1) as [Hr2 [Hg2 Hc2]].
    destruct (collect rest body s1) as [s2 r2]. cbn [fst snd] in Hr2, Hg2, Hc2. subst r2.
    assert (Hc3 : no_gputil_call s s2) by (eapply no_gputil_call_trans; eassumption).
    destruct (native_names_from decode h rest) as [e|names]; cbn; repeat split;
      congruence || assumption.
Qed.

Lemma native_names_from_length decode h idxs names :
  native_names_from decode h idxs = inr names -> List.length names = List.length idxs.
Proof.
  revert names. induction idxs as [|i rest IH]; intros names; cbn [native_names_from].
  - intros H. now inversion H.
  - destruct (native_name decode h i) as [e|name]; cbn [Py.bind]; [discriminate|].
    destruct (native_names_from decode h rest) as [e|ns]; cbn [Py.bind]; [discriminate|].
    intros H. inversion H. cbn. now rewrite (IH ns eq_refl).
Qed.

Lemma try_except_run {A} (body handler : Cmd A) s :
  try_except body handler s = match body s with
                              | (s', inr a) => (s', inr a)
                              | (s', inl _) => handler s'
                              end.
Proof. reflexivity. Qed.

Lemma detect_native_run decode caps h s :
  snd (detect_native decode caps h s) = inr (native_found decode caps h) /\
  gpu_rows (fst (detect_native decode caps h s)) = gpu_rows s /\
  no_gputil_call s (fst (detect_native decode caps h s)).
Proof.
  unfold detect_native, native_found.
  destruct (NVML caps); [|repeat split; apply no_gputil_call_refl].
  rewrite try_except_run, cbind_run.
  change (ask CallNvmlDeviceGetCount (nvmlDeviceGetCount h) s)
    with (log_call CallNvmlDeviceGetCount s, nvmlDeviceGetCount h).
  assert (H0 : no_gputil_call s (log_call CallNvmlDeviceGetCount s))
    by (apply log_call_no_gputil; discriminate).
  destruct (nvmlDeviceGetCount h) as [e|count]; [now repeat split|].
  rewrite cbind_run.
  destruct (collect_native_names decode h (seq 0 count)
              (log_call CallNvmlDeviceGetCount s)) as [Hr [Hg Hc]].
  cbv zeta in Hr, Hg, Hc.
  destruct (collect (seq 0 count) _ (log_call CallNvmlDeviceGetCount s)) as [s' r].
  cbn [fst snd] in Hr, Hg, Hc. subst r.
  assert (Hc' : no_gputil_call s s') by (eapply no_gputil_call_trans; eassumption).
  destruct (native_names_from decode h (seq 0 count)) as [e|names]; cbn;
    now repeat split.
Qed.

Lemma detect_fallback_run caps h found s :
  snd (detect_fallback caps h found s) = inr (fallback_found caps h found) /\
  gpu_rows (fst (detect_fallback caps h found s)) = gpu_rows s /\
  calls (fst (detect_fallback caps h found s)) =
    if fallback_consulted caps found then (calls s ++ [CallGetGPUs])%list else calls s.
Proof.
  unfold detect_fallback, fallback_found, fallback_consulted.
  destruct found as [names count]. cbn [fst].
  destruct names as [|x xs]; cbn [andb]; [|now repeat split].
  destruct (GPUtil_available caps); [|now repeat split].
  unfold try_except, cbind, ask, cret. cbn [fst snd].
  destruct (getGPUs h) as [e|gpus]; now repeat split.
Qed.

(** The rows after enumeration, and whether GPUtil was called. *)
Lemma Overlay_init_rows decode caps h :
  let native := native_found decode caps h in
  let found := fallback_found caps h native in
  gpu_rows (Overlay_init decode caps h) =
    (if Nat.eqb (snd found) 0 then [("GPU", StatRow_init "GPU")]
     else named_rows 0 (fst found)) /\
  (In CallGetGPUs (calls (Overlay_init decode caps h)) <->
   fallback_consulted caps native = true).
Proof.
  cbv zeta. unfold Overlay_init, exec, detect_gpus_and_populate.
  rewrite cbind_run.
  destruct (detect_native_run decode caps h Overlay_built) as [Hr [_ Hc]].
  destruct (detect_native decode caps h Overlay_built) as [s1 r1]. cbn [fst snd] in Hr, Hc.
  subst r1. rewrite cbind_run.
  destruct (detect_fallback_run caps h (native_found decode caps h) s1) as [Hr2 [_ Hc2]].
  destruct (detect_fallback caps h (native_found decode caps h) s1) as [s2 r2].
  cbn [fst snd] in Hr2, Hc2. subst r2.
  assert (Hcalls : In CallGetGPUs (calls s2) <->
                   fallback_consulted caps (native_found decode caps h) = true).
  { rewrite Hc2. destruct (fallback_consulted caps (native_found decode caps h)).
    - split; [reflexivity|]. intros _. apply in_or_app. right. now left.
    - split; [|discriminate]. intros H. apply Hc in H. destruct H. }
  destruct (fallback_found caps h (native_found decode caps h)) as [names count].
  cbn [fst snd]. rewrite cbind_run. unfold modify. cbn [fst snd].
  destruct (Nat.eqb count 0); cbn; split; trivial.
Qed.

Lemma named_rows_names k names : map fst (named_rows k names) = names.
Proof.
  revert k. induction names as [|n ns IH]; intros k; cbn; [reflexivity|].
  now rewrite IH.
Qed.

Lemma named_rows_length k names : List.length (named_rows k names) = List.length names.
Proof.
  revert k. induction names as [|n ns IH]; intros k; cbn; [reflexivity|].
  now rewrite IH.
Qed.

(** The native pass finds nothing exactly when NVML is absent, fails, or
    counts no device. *)
Lemma native_found_nothing decode caps h :
  (NVML caps = false \/ (exists e, native_names decode h = inl e) \/
   nvmlDeviceGetCount h = inr 0%nat) <->
  native_found decode caps h = ([], 0%nat).
Proof.
  unfold native_found, native_names. split.
  - intros [H|[[e H]|H]].
    + now rewrite H.
    + destruct (NVML caps); [|reflexivity].
      destruct (nvmlDeviceGetCount h) as [e'|count]; [reflexivity|].
      cbn [Py.bind] in H. now rewrite H.
    + rewrite H. cbn. now destruct (NVML caps).
  - destruct (NVML caps); [|now left]. intros H. right.
    destruct (nvmlDeviceGetCount h) as [e|count]; [left; now exists e|].
    cbn [Py.bind].
    destruct (native_names_from decode h (seq 0 count)) as [e|names] eqn:E;
      [left; now exists e|].
    right. inversion H. reflexivity.
Qed.

Lemma native_found_names decode caps h names :
  NVML caps = true -> native_names decode h = inr names ->
  native_found decode caps h = (names, List.length names).
Proof.
  unfold native_found, native_names. intros -> H.
  destruct (nvmlDeviceGetCount h) as [e|count]; [discriminate|].
  cbn [Py.bind] in H. rewrite H.
  apply native_names_from_length in H. rewrite length_seq in H. now rewrite H.
Qed.

(** C7.  At enumeration GPUtil is called only when the native pass found
    no device: NVML is absent, a native query failed, or NVML counts zero
    devices.  When the native pass names at least one device, GPUtil is not
    called and the rows carry the native names.  When the native pass found
    no device and GPUtil lists N > 0 devices, exactly N rows are produced,
    in GPUtil's order and with GPUtil's names. *)
Theorem fallback_enumeration decode caps h :
  let s := Overlay_init decode caps h in
  (In CallGetGPUs (calls s) ->
   NVML caps = false \/ (exists e, native_names decode h = inl e) \/
   nvmlDeviceGetCount h = inr 0%nat) /\
  (forall names,
     NVML caps = true -> native_names decode h = inr names -> names <> [] ->
     ~ In CallGetGPUs (calls s) /\ gpu_names_of s = names) /\
  (forall gpus,
     (NVML caps = false \/ (exists e, native_names decode h = inl e) \/
      nvmlDeviceGetCount h = inr 0%nat) ->
     GPUtil_available caps = true -> getGPUs h = inr gpus -> gpus <> [] ->
     In CallGetGPUs (calls s) /\
     gpu_rows s = named_rows 0 (map gpu_name gpus) /\
     List.length (gpu_rows s) = List.length gpus /\
     gpu_names_of s = map gpu_name gpus).
Proof.
  cbv zeta. destruct (Overlay_init_rows decode caps h) as [Hrows Hcalls].
  cbv zeta in Hrows. split; [|split].
  - intros Hin. apply Hcalls in Hin. apply native_found_nothing.
    unfold fallback_consulted in Hin.
    destruct (native_found decode caps h) as [names count] eqn:E. cbn [fst] in Hin.
    destruct names; [|discriminate].
    unfold native_found in E. destruct (NVML caps); [|now inversion E].
    destruct (nvmlDeviceGetCount h) as [e|c]; [now inversion E|].
    destruct (native_names_from decode h (seq 0 c)) as [e|ns] eqn:En; [now inversion E|].
    inversion E; subst. apply native_names_from_length in En.
    rewrite length_seq in En. cbn in En. now subst.
  - intros names HN Hn Hne.
    rewrite (native_found_names decode caps h names HN Hn) in Hrows, Hcalls.
    assert (Hcons : fallback_consulted caps (names, List.length names) = false)
      by (unfold fallback_consulted; cbn; destruct names; [now elim Hne | reflexivity]).
    split.
    + intros Hin. apply Hcalls in Hin. congruence.
    + unfold gpu_names_of. rewrite Hrows. unfold fallback_found. rewrite Hcons.
      cbn [fst snd]. destruct names as [|n ns]; [now elim Hne|].
      cbn [List.length Nat.eqb]. apply named_rows_names.
  - intros gpus Hnone HG Hg Hne.
    apply native_found_nothing in Hnone. rewrite Hnone in Hrows, Hcalls.
    assert (Hcons : fallback_consulted caps ([], 0%nat) = true) by exact HG.
    split; [now apply Hcalls|].
    unfold fallback_found in Hrows. rewrite Hcons, Hg in Hrows. cbn [fst snd app] in Hrows.
    destruct gpus as [|g gs]; [now elim Hne|]. cbn [List.length Nat.eqb] in Hrows.
    unfold gpu_names_of. rewrite Hrows. split; [reflexivity|].
    split; [now rewrite named_rows_length, length_map | apply named_rows_names].
Qed.

Lemma fallback_enumeration_witness :
  let caps := mkCaps true true in
  let gpus := [mkGPU "Radeon RX" (S754_zero false); mkGPU "Iris Xe" (S754_zero false)] in
  let h := with_gputil (inr gpus) (with_nvml (inr 0%nat) (fun _ => inl Py.BackendError)
                                             (fun _ => inl Py.BackendError) quiet_host) in
  nvmlDeviceGetCount h = inr 0%nat /\ GPUtil_available caps = true /\
  getGPUs h = inr gpus /\ gpus <> [] /\
  List.length (gpu_rows (Overlay_init (fun _ => "") caps h)) = 2%nat /\
  gpu_names_of (Overlay_init (fun _ => "") caps h) = ["Radeon RX"; "Iris Xe"].
Proof.
  cbv zeta.
  split; [reflexivity|]. split; [reflexivity|]. split; [reflexivity|].
  split; [discriminate|].
  destruct (proj2 (proj2 (fallback_enumeration (fun _ => "") (mkCaps true true)
              (with_gputil
                 (inr [mkGPU "Radeon RX" (S754_zero false); mkGPU "Iris Xe" (S754_zero false)])
                 (with_nvml (inr 0%nat) (fun _ => inl Py.BackendError)
                            (fun _ => inl Py.BackendError) quiet_host))))
              [mkGPU "Radeon RX" (S754_zero false); mkGPU "Iris Xe" (S754_zero false)])
    as [_ [_ [Hlen Hnames]]].
  - right. right. reflexivity.
  - reflexivity.
  - reflexivity.
  - discriminate.
  - split; [exact Hlen | exact Hnames].
Defined.

(** ** GPU rows: the placeholder *)

Lemma rows_in_step_refl s : rows_in_step s s.
Proof. intros H. exact H. Qed.

Lemma rows_in_step_trans s1 s2 s3 :
  rows_in_step s1 s2 -> rows_in_step s2 s3 -> rows_in_step s1 s3.
Proof. unfold rows_in_step. auto. Qed.

Lemma rows_in_step_same s s' : gpu_rows s' = gpu_rows s -> rows_in_step s s'.
Proof. unfold rows_in_step. now intros ->. Qed.

#[local] Hint Resolve rows_in_step_refl rows_in_step_trans : frames.

Lemma update_nth_in_step idx v rows :
  Forall (fun r => in_step (snd r)) rows ->
  Forall (fun r => in_step (snd r)) (update_nth idx v rows).
Proof.
  revert idx. induction rows as [|[name row] rows IH]; intros [|idx] H; cbn;
    try assumption; inversion H; subst; constructor; auto.
  cbn. left. now rewrite update_value_shown.
Qed.

Lemma update_row_in_step idx v : keeps rows_in_step (update_row idx v).
Proof. intros s H. cbn. now apply update_nth_in_step. Qed.

Lemma log_call_in_step c s : rows_in_step s (log_call c s).
Proof. now apply rows_in_step_same. Qed.

#[local] Hint Resolve log_call_in_step : frames.

Ltac frame_in_step :=
  repeat first
    [ apply keeps_try; eauto with frames
    | apply keeps_bind; eauto with frames; [|intro]
    | apply keeps_for_each; eauto with frames; intro
    | apply keeps_ask; eauto with frames
    | apply keeps_gets; eauto with frames
    | apply keeps_lift; eauto with frames
    | apply keeps_cret; eauto with frames
    | apply update_row_in_step
    | match goal with |- keeps _ (if ?b then _ else _) => destruct b end ].

Lemma update_gpus_in_step caps h : keeps rows_in_step (update_gpus caps h).
Proof.
  unfold update_gpus, _update_gpus_gputil, zero_all_rows. frame_in_step.
Qed.

Lemma tick_in_step caps s h : rows_in_step s (tick caps s h).
Proof.
  rewrite tick_parts.
  set (s1 := exec (update_battery h) s).
  assert (H1 : gpu_rows s1 = gpu_rows s) by apply update_battery_frame.
  set (s4 := exec (modify _) (exec (modify _) (exec (modify _) s1))).
  assert (H4 : gpu_rows s4 = gpu_rows s) by exact H1.
  set (s5 := exec (update_gpus caps h) s4).
  destruct (update_net_step h s5) as [_ [_ Hg]].
  eapply rows_in_step_trans; [apply rows_in_step_same; exact H4|].
  eapply rows_in_step_trans; [apply (update_gpus_in_step caps h s4)|].
  apply rows_in_step_same. exact Hg.
Qed.







(** ** Panes: sequences of requests *)

Lemma requests_reachable ps : forall s, reachable s -> reachable (requests ps s).
Proof.
  induction ps as [|p ps IH]; intros s Hs; [exact Hs|].
  apply IH. now apply reach_request.
Qed.

(** X1.  At start-up and after every sequence of requests exactly one pane
    is on screen; the Info and the About tab are checked exactly when their
    pane is the one on screen, and the home button is visible exactly when
    the live pane is not. *)
Theorem one_pane_on_screen ps :
  let s := requests ps Panes_init in
  (exists p, shown_panes s = [p]) /\
  tab_info s = is_shown s Info /\
  tab_about s = is_shown s About /\
  home_btn s = negb (is_shown s Live).
Proof.
  cbv zeta. apply (reachable_inv (requests ps Panes_init)).
  apply requests_reachable, reach_init.
Qed.

Lemma btn_settings_request p s :
  btn_settings (requestPane p s) =
  if ViewPane_eqb Settings p then negb (btn_settings s) else btn_settings s.
Proof.
  destruct p; cbn; trivial.
  - destruct (negb (tab_info s)); reflexivity.
  - destruct (negb (tab_about s)); reflexivity.
Qed.

Lemma btn_settings_requests ps : forall s,
  btn_settings (requests ps s) = xorb (btn_settings s) (Nat.odd (requested Settings ps)).
Proof.
  induction ps as [|p ps IH]; intros s; cbn [requests fold_left].
  - cbn. now rewrite xorb_false_r.
  - fold (requests ps (requestPane p s)). rewrite IH, btn_settings_request.
    unfold requested. cbn [filter].
    destruct (ViewPane_eqb Settings p); [|reflexivity].
    cbn [List.length]. rewrite Nat.odd_succ, <- Nat.negb_odd.
    destruct (btn_settings s), (Nat.odd _); reflexivity.
Qed.

(** X2.  No method checks or unchecks the settings button: after any
    sequence of requests it is checked exactly when the number of Settings
    requests made is odd, whichever pane is on screen.  After two Settings
    requests in a row the settings pane is on screen and its button is
    unchecked. *)
Theorem settings_button_parity ps :
  btn_settings (requests ps Panes_init) = Nat.odd (requested Settings ps) /\
  (let s := requests [Settings; Settings] Panes_init in
   shown_panes s = [Settings] /\ btn_settings s = false).
Proof.
  split; [|split; reflexivity].
  rewrite btn_settings_requests. reflexivity.
Qed.

Lemma settings_area_request p s :
  settings_area (requestPane p s) = None <-> settings_area s = None /\ p <> Settings.
Proof.
  destruct s as [ti ta bs hb la ia aa [sa|]]; destruct p, ti, ta; cbn;
    intuition (discriminate || congruence).
Qed.

Lemma settings_area_requests ps : forall s,
  settings_area (requests ps s) = None <-> settings_area s = None /\ ~ In Settings ps.
Proof.
  induction ps as [|p ps IH]; intros s; cbn [requests fold_left].
  - cbn. tauto.
  - fold (requests ps (requestPane p s)). rewrite IH, settings_area_request. cbn [In].
    split.
    + intros [[H1 H2] H3]. split; [exact H1|]. intros [E|E]; [now apply H2 | now apply H3].
    + intros [H1 H2]. split; [split; [exact H1|]|]; intros E; apply H2; auto.
Qed.

(** X3.  The settings pane is built by the first Settings request and not
    before: after a sequence of requests the window has a settings area
    exactly when one of the requests was for Settings.  Once built it is
    never removed. *)
Theorem settings_area_built_on_demand ps :
  (settings_area (requests ps Panes_init) = None <-> ~ In Settings ps) /\
  (forall qs, settings_area (requests ps Panes_init) <> None ->
              settings_area (requests (ps ++ qs) Panes_init) <> None).
Proof.
  split.
  - rewrite settings_area_requests. cbn. tauto.
  - intros qs H E. apply H. unfold requests in E. rewrite fold_left_app in E.
    apply (settings_area_requests qs) in E. tauto.
Qed.

(** ** Doubles: the difference of two timestamps *)

Lemma Zdigits2_ge m j : 0 <= j -> 2 ^ j <= m -> j + 1 <= Zdigits2 m.
Proof.
  intros Hj Hm. assert (H0 : 0 <= m) by (pose proof (pow2_pos j Hj); lia).
  pose proof (Zdigits2_lt m H0) as Hlt. pose proof (Zdigits2_nonneg m) as Hn.
  destruct (Z.le_gt_cases (j + 1) (Zdigits2 m)) as [|Hc]; [assumption|].
  exfalso. assert (2 ^ Zdigits2 m <= 2 ^ j) by (apply Z.pow_le_mono_r; lia). lia.
Qed.

Lemma Zdigits2_low m : 0 < m -> 2 ^ (Zdigits2 m - 1) <= m /\ 1 <= Zdigits2 m.
Proof.
  intros Hm. destruct m as [|p|p]; try lia. cbn [Zdigits2].
  split; [apply digits2_pos_bounds | lia].
Qed.

(** A mantissa with at least [j+1] bits, shifted right by [n <= j]
    places, keeps at least [j-n+1] bits. *)
Lemma div_pow2_ge m j n : 0 <= n <= j -> 2 ^ j <= m -> 2 ^ (j - n) <= m / 2 ^ n.
Proof.
  intros Hn Hm. apply Z.div_le_lower_bound; [apply pow2_pos; lia|].
  rewrite <- Z.pow_add_r by lia. now replace (n + (j - n)) with j by lia.
Qed.

Lemma binary_round_aux_nonneg sx mx ex lx :
  0 <= mx -> binary_round_aux Py.prec Py.emax sx mx ex lx <> S754_nan.
Proof.
  intros Hmx. unfold binary_round_aux, shr_fexp.
  set (n1 := fexp Py.prec Py.emax (Zdigits2 mx + ex) - ex).
  destruct (shr_spec (shr_record_of_loc mx lx) ex n1) as [Hm1 _];
    [now rewrite shr_record_of_loc_m|].
  rewrite shr_record_of_loc_m in Hm1.
  destruct (shr (shr_record_of_loc mx lx) ex n1) as [mrs1 e1]. cbn [fst] in Hm1.
  set (m2 := round_nearest_even (shr_m mrs1) (loc_of_shr_record mrs1)).
  assert (Hm2 : 0 <= m2).
  { pose proof (round_nearest_even_bounds (shr_m mrs1) (loc_of_shr_record mrs1)) as Hr.
    fold m2 in Hr. assert (0 <= shr_m mrs1); [|lia].
    rewrite Hm1. apply Z.div_pos; [lia | apply pow2_pos; lia]. }
  set (n2 := fexp Py.prec Py.emax (Zdigits2 m2 + e1) - e1).
  destruct (shr_spec (shr_record_of_loc m2 loc_Exact) e1 n2) as [Hm3 _]; [cbn; lia|].
  destruct (shr (shr_record_of_loc m2 loc_Exact) e1 n2) as [mrs3 e3].
  cbn [fst shr_record_of_loc shr_m] in Hm3.
  assert (Hm3' : 0 <= shr_m mrs3)
    by (rewrite Hm3; apply Z.div_pos; [lia | apply pow2_pos; lia]).
  destruct (shr_m mrs3); [discriminate | | lia].
  destruct (e3 <=? _); discriminate.
Qed.

(** Rounding does not lose the leading bit: a mantissa standing for a
    value of at least [2^L], [L] in the range of the format, rounds to a
    double of at least [2^L] or to an infinity. *)
Lemma binary_round_aux_ge sx mx ex lx L :
  0 < mx -> L <= Zdigits2 mx + ex - 1 -> -1074 <= L ->
  abs_ge L (binary_round_aux Py.prec Py.emax sx mx ex lx).
Proof.
  intros Hmx HL Hlo.
  destruct (Zdigits2_low mx Hmx) as [Hd Hd1].
  unfold binary_round_aux, shr_fexp.
  set (d := Zdigits2 mx) in *.
  set (n1 := fexp Py.prec Py.emax (d + ex) - ex).
  assert (Hn1 : 0 <= Z.max 0 n1 <= d - 1)
    by (unfold n1, fexp, emin, Py.prec, Py.emax; lia).
  destruct (shr_spec (shr_record_of_loc mx lx) ex n1) as [Hm1 He1];
    [rewrite shr_record_of_loc_m; lia|].
  rewrite shr_record_of_loc_m in Hm1.
  destruct (shr (shr_record_of_loc mx lx) ex n1) as [mrs1 e1].
  cbn [fst snd] in Hm1, He1.
  assert (Hm1ge : 2 ^ (d - 1 - Z.max 0 n1) <= shr_m mrs1)
    by (rewrite Hm1; apply div_pow2_ge; lia).
  set (m2 := round_nearest_even (shr_m mrs1) (loc_of_shr_record mrs1)).
  assert (Hm2 : 2 ^ (d - 1 - Z.max 0 n1) <= m2).
  { pose proof (round_nearest_even_bounds (shr_m mrs1) (loc_of_shr_record mrs1)) as Hr.
    fold m2 in Hr. lia. }
  assert (Hm2pos : 0 < m2) by (pose proof (pow2_pos (d - 1 - Z.max 0 n1)); lia).
  pose proof (Zdigits2_ge m2 (d - 1 - Z.max 0 n1) ltac:(lia) Hm2) as Hd2.
  destruct (Zdigits2_low m2 Hm2pos) as [Hd2low Hd21].
  set (d2 := Zdigits2 m2) in *.
  set (n2 := fexp Py.prec Py.emax (d2 + e1) - e1).
  assert (Hn2 : 0 <= Z.max 0 n2 <= d2 - 1)
    by (unfold n2, fexp, emin, Py.prec, Py.emax; lia).
  destruct (shr_spec (shr_record_of_loc m2 loc_Exact) e1 n2) as [Hm3 He3]; [cbn; lia|].
  destruct (shr (shr_record_of_loc m2 loc_Exact) e1 n2) as [mrs3 e3].
  cbn [fst snd shr_record_of_loc shr_m] in Hm3, He3.
  assert (Hm3ge : 2 ^ (d2 - 1 - Z.max 0 n2) <= shr_m mrs3)
    by (rewrite Hm3; apply div_pow2_ge; lia).
  assert (Hm3pos : 0 < shr_m mrs3)
    by (pose proof (pow2_pos (d2 - 1 - Z.max 0 n2)); lia).
  destruct (shr_m mrs3) as [|m|m]; try lia.
  destruct (e3 <=? Py.emax - Py.prec); [|exact I].
  cbn [abs_ge]. intros He. eapply Z.le_trans; [|exact Hm3ge].
  apply Z.pow_le_mono_r; lia.
Qed.

Lemma Zdigits2_shift m s : 0 < m -> 0 <= s -> Zdigits2 (m * 2 ^ s) = Zdigits2 m + s.
Proof.
  intros Hm Hs. destruct (Zdigits2_low m Hm) as [Hlo Hd1].
  pose proof (Zdigits2_lt m ltac:(lia)) as Hhi. pose proof (pow2_pos s Hs) as Hp.
  apply Z.le_antisymm.
  - apply Zdigits2_le; [nia|]. rewrite Z.pow_add_r by lia. nia.
  - replace (Zdigits2 m + s) with (Zdigits2 m - 1 + s + 1) by lia.
    apply Zdigits2_ge; [lia|]. rewrite Z.pow_add_r by lia. nia.
Qed.

Lemma binary_round_ge sx mx ex L :
  L <= ex -> -1074 <= L -> abs_ge L (binary_round Py.prec Py.emax sx mx ex).
Proof.
  intros HL Hlo. unfold binary_round.
  destruct (shl_align_spec mx ex (fexp Py.prec Py.emax (Zpos (digits2_pos mx) + ex)))
    as [Hle [_ Hval]].
  destruct (shl_align mx ex _) as [mz ez]. cbn [fst snd] in Hle, Hval.
  apply binary_round_aux_ge; try lia.
  rewrite Hval, Zdigits2_shift by lia.
  destruct (Zdigits2_low (Zpos mx) ltac:(lia)) as [_ Hd]. lia.
Qed.

Lemma binary_round_sign sx mx ex :
  has_sign sx (binary_round Py.prec Py.emax sx mx ex).
Proof.
  unfold binary_round. destruct (shl_align mx ex _) as [mz ez].
  destruct (binary_round_aux_sign sx (Zpos mz) ez loc_Exact) as [E|H]; [|exact H].
  exfalso. revert E. apply binary_round_aux_nonneg. lia.
Qed.

Lemma le0_negative f : has_sign true f -> Py.le0 f = true.
Proof. destruct f as [s|s| |s m e]; cbn; try contradiction; now intros ->. Qed.

(** The difference of two timestamps is usable as an elapsed time. *)
Lemma elapsed_usable now prev :
  timestamp now -> timestamp (net_time prev) -> usable_elapsed (elapsed now prev).
Proof.
  unfold elapsed, usable_elapsed, Py.fsub, SFsub. intros Hn Hp.
  destruct now as [sx|sx| |sx mx ex]; cbn in Hn; try contradiction;
    destruct (net_time prev) as [sy|sy| |sy my ey]; cbn in Hp; try contradiction.
  - left. now destruct sx, sy.
  - destruct sy; [right; cbn; intros; assert (ey = -64) by lia; subst; cbn; lia
                 | left; reflexivity].
  - destruct sx; [left; reflexivity
                 | right; cbn; intros; assert (ex = -64) by lia; subst; cbn; lia].
  - set (ez := Z.min ex ey).
    set (M := cond_Zopp sx (Zpos (fst (shl_align mx ex ez))) -
              cond_Zopp sy (Zpos (fst (shl_align my ey ez)))).
    unfold binary_normalize. destruct M as [|p|p].
    + left. reflexivity.
    + right. apply binary_round_ge; unfold ez; lia.
    + left. apply le0_negative. apply binary_round_sign.
Qed.

(** ** Network: the selection among ties *)

Lemma pick_top_keeps after : forall o t,
  Forall (fun it => total it <= t) after -> fold_left pick_top after (o, t) = (o, t).
Proof.
  induction after as [|y l IH]; intros o t H; [reflexivity|].
  inversion H as [|? ? Hy Hl]; subst. cbn [fold_left].
  assert (E : pick_top (o, t) y = (o, t)).
  { unfold pick_top. fold (total y). cbn [snd].
    destruct (total y >? t) eqn:G; [apply Z.gtb_lt in G; lia | reflexivity]. }
  rewrite E. now apply IH.
Qed.

Lemma pick_top_below before T : forall acc,
  snd acc < T -> Forall (fun it => total it < T) before ->
  snd (fold_left pick_top before acc) < T.
Proof.
  induction before as [|y l IH]; intros acc Ha H; [exact Ha|].
  inversion H as [|? ? Hy Hl]; subst. cbn [fold_left]. apply IH; [|assumption].
  unfold pick_top. fold (total y). destruct (total y >? snd acc); cbn [snd]; lia.
Qed.

Lemma pick_top_first l : forall o t,
  (fold_left pick_top l (o, t) = (o, t) /\ Forall (fun it => total it <= t) l) \/
  exists before x after,
    l = (before ++ x :: after)%list /\
    fold_left pick_top l (o, t) = (Some x, total x) /\
    t < total x /\ Forall (fun it => total it < total x) before /\
    Forall (fun it => total it <= total x) after.
Proof.
  induction l as [|y l IH]; intros o t; cbn [fold_left].
  - left. split; [reflexivity | constructor].
  - destruct (total y >? t) eqn:G.
    + assert (E : pick_top (o, t) y = (Some y, total y))
        by (unfold pick_top; fold (total y); cbn [snd]; now rewrite G).
      rewrite E. apply Z.gtb_lt in G. right.
      destruct (IH (Some y) (total y)) as [[Hf Hall]|[b [x [a [Hl [Hf [Hlt [Hb Ha]]]]]]]].
      * exists [], y, l. repeat split; trivial.
      * exists (y :: b), x, a. subst l. repeat split; trivial; try lia.
        constructor; [lia | exact Hb].
    + assert (E : pick_top (o, t) y = (o, t))
        by (unfold pick_top; fold (total y); cbn [snd]; now rewrite G).
      rewrite E. rewrite Z.gtb_ltb in G. apply Z.ltb_ge in G.
      destruct (IH o t) as [[Hf Hall]|[b [x [a [Hl [Hf [Hlt [Hb Ha]]]]]]]].
      * left. split; [exact Hf | now constructor].
      * right. exists (y :: b), x, a. subst l. repeat split; trivial.
        constructor; [lia | exact Hb].
Qed.

(** X4.  The interface a tick selects is the first one, in the order
    psutil lists them, whose cumulative byte total is the largest, provided
    that total is positive: every interface listed before it has a strictly
    smaller total, every interface listed after it a total that is not
    larger.  There is no selection exactly when no interface has a positive
    total (in particular when none is listed). *)
Theorem select_top_first_largest pernic :
  (forall nic curr,
     select_top pernic = Some (nic, curr) <->
     exists before after,
       pernic = (before ++ (nic, curr) :: after)%list /\ 0 < total (nic, curr) /\
       Forall (fun it => total it < total (nic, curr)) before /\
       Forall (fun it => total it <= total (nic, curr)) after) /\
  (select_top pernic = None <-> Forall (fun it => total it <= 0) pernic).
Proof.
  unfold select_top. split; [intros nic curr|]; split.
  - intros H. destruct (pick_top_first pernic None 0)
      as [[Hf _]|[b [x [a [Hl [Hf [Hlt [Hb Ha]]]]]]]]; rewrite Hf in H; [discriminate|].
    cbn [fst] in H. injection H as ->. now exists b, a.
  - intros [b [a [-> [Hpos [Hb Ha]]]]]. rewrite fold_left_app. cbn [fold_left].
    pose proof (pick_top_below b (total (nic, curr)) (None, 0) Hpos Hb) as Hlt.
    destruct (fold_left pick_top b (None, 0)) as [o t]. cbn [snd] in Hlt.
    assert (E : pick_top (o, t) (nic, curr) = (Some (nic, curr), total (nic, curr))).
    { unfold pick_top. fold (total (nic, curr)). cbn [snd].
      destruct (total (nic, curr) >? t) eqn:G; [reflexivity|].
      rewrite Z.gtb_ltb in G. apply Z.ltb_ge in G. lia. }
    rewrite E, pick_top_keeps by exact Ha. reflexivity.
  - intros H. destruct (pick_top_first pernic None 0)
      as [[_ Hall]|[b [x [a [_ [Hf _]]]]]]; [exact Hall|].
    rewrite Hf in H. discriminate.
  - intros H. now rewrite pick_top_keeps.
Qed.

(** ** Network: an outage, and the sample over many ticks *)

Lemma select_top_In pernic nic curr :
  select_top pernic = Some (nic, curr) -> In (nic, curr) pernic.
Proof.
  unfold select_top. intros H.
  destruct (pick_top_first pernic None 0) as [[Hf _]|[b [x [a [Hl [Hf _]]]]]];
    rewrite Hf in H; [discriminate|].
  cbn [fst] in H. injection H as ->. subst pernic. apply in_or_app. right. now left.
Qed.

(** X5.  A tick at which psutil fails to report the interface counters
    shows 0% on the network row and changes neither its label nor the
    carried sample.  The carried sample survives the outage: when the next
    tick selects the carried interface again, the rate it shows is measured
    against the sample taken before the outage, over the whole gap. *)
Theorem failed_sample_keeps_carried caps s h e :
  net_io_counters h = inl e ->
  previous_net (tick caps s h) = previous_net s /\
  bar (row_net (tick caps s h)) = 0 /\
  value_label (row_net (tick caps s h)) = "0%" /\
  label (row_net (tick caps s h)) = label (row_net s) /\
  (forall h' pernic prev curr pct,
     previous_net s = Some prev -> net_io_counters h' = inr pernic ->
     select_top pernic = Some (net_name prev, curr) ->
     net_pct prev curr (time h') = inr pct ->
     bar (row_net (tick caps (tick caps s h) h')) = clamp_percent pct /\
     previous_net (tick caps (tick caps s h) h') =
       Some (sample_of (net_name prev) curr (time h'))).
Proof.
  intros He. destruct (tick_net caps s h) as [Hp Hr].
  unfold net_step in Hp, Hr. rewrite He in Hp, Hr. cbn [fst snd] in Hp, Hr.
  split; [exact Hp|]. rewrite Hr, update_value_shown. cbn [bar value_label label].
  repeat split.
  - destruct (tick_same_interface caps (tick caps s h) h' pernic prev curr pct)
      as [_ Hrow]; try assumption; [now rewrite Hp|].
    rewrite Hrow. apply bar_update_int.
  - destruct (tick_same_interface caps (tick caps s h) h' pernic prev curr pct)
      as [Hprev _]; try assumption. now rewrite Hp.
Qed.

Lemma failed_sample_keeps_carried_witness :
  let caps := mkCaps false false in
  let s := tick caps Overlay_built
             (with_net (inr [("eth0", mkNetio 1000 2000)]) (Py.Z2F 1700000000) quiet_host) in
  let h := with_net (inl Py.BackendError) (Py.Z2F 1700000001) quiet_host in
  net_io_counters h = inl Py.BackendError /\
  previous_net (tick caps s h) =
    Some (sample_of "eth0" (mkNetio 1000 2000) (Py.Z2F 1700000000)) /\
  bar (row_net (tick caps s h)) = 0.
Proof.
  cbv zeta. split; [reflexivity|].
  destruct (failed_sample_keeps_carried (mkCaps false false)
              (tick (mkCaps false false) Overlay_built
                 (with_net (inr [("eth0", mkNetio 1000 2000)]) (Py.Z2F 1700000000)
                           quiet_host))
              (with_net (inl Py.BackendError) (Py.Z2F 1700000001) quiet_host)
              Py.BackendError eq_refl) as [Hp [Hb _]].
  split; [|exact Hb]. rewrite Hp. vm_compute. reflexivity.
Defined.

Lemma tick_carried caps s h :
  carried_ok s -> host_ok h ->
  previous_net (tick caps s h) = carried_after (previous_net s) h /\
  carried_ok (tick caps s h).
Proof.
  intros Hs [Ht Hc].
  assert (E : previous_net (tick caps s h) = carried_after (previous_net s) h).
  { destruct (tick_net caps s h) as [Hp _]. rewrite Hp. unfold net_step, carried_after.
    destruct (net_io_counters h) as [e|pernic] eqn:En; [reflexivity|].
    destruct (select_top pernic) as [[nic curr]|] eqn:Esel; [|reflexivity].
    destruct (previous_net s) as [prev|] eqn:Ep; [|reflexivity].
    destruct (String.eqb (net_name prev) nic); [|reflexivity].
    destruct (Hs prev Ep) as [Ps [Pr Pt]].
    pose proof (Hc pernic eq_refl) as Hall. rewrite Forall_forall in Hall.
    destruct (Hall _ (select_top_In _ _ _ Esel)) as [Cs Cr]. cbn [snd] in Cs, Cr.
    destruct (net_pct_returns prev curr (time h) Ps Pr Cs Cr
                (elapsed_usable (time h) prev Ht Pt)) as [pct [Hpct _]].
    now rewrite Hpct. }
  split; [exact E|]. intros prev Hprev. rewrite E in Hprev. unfold carried_after in Hprev.
  destruct (net_io_counters h) as [e|pernic] eqn:En; [now apply Hs|].
  destruct (select_top pernic) as [[nic curr]|] eqn:Esel; [|now apply Hs].
  injection Hprev as <-.
  pose proof (Hc pernic eq_refl) as Hall. rewrite Forall_forall in Hall.
  destruct (Hall _ (select_top_In _ _ _ Esel)) as [Cs Cr].
  repeat split; try apply Cs; try apply Cr; exact Ht.
Qed.

(** X6.  With 64-bit byte counters and clock readings that are zero or of
    magnitude [2^-11] or more, the network part of a tick never takes its
    exception path: after any sequence of ticks the carried sample is the
    selection of the last tick that made one (name, counters and clock
    reading of that tick), whatever the counters and the clock did in
    between -- counters running backwards and a clock stepping backwards
    included.  This holds from start-up. *)
Theorem carried_sample_is_latest_selection caps hs : forall s,
  carried_ok s -> Forall host_ok hs ->
  previous_net (ticks caps s hs) = fold_left carried_after hs (previous_net s) /\
  carried_ok (ticks caps s hs) /\
  (forall decode h0, carried_ok (Overlay_init decode caps h0)).
Proof.
  assert (Hinit : forall decode h0, carried_ok (Overlay_init decode caps h0)).
  { intros decode h0 prev H. rewrite Overlay_init_previous_net in H. discriminate. }
  induction hs as [|h hs IH]; intros s Hs Hall; cbn [ticks fold_left].
  - split; [reflexivity|]. split; [exact Hs | exact Hinit].
  - inversion Hall as [|? ? Hh Hrest]; subst.
    destruct (tick_carried caps s h Hs Hh) as [E Hok].
    fold (ticks caps (tick caps s h) hs).
    destruct (IH (tick caps s h) Hok Hrest) as [E' [Hok' _]].
    rewrite E', E. split; [reflexivity|]. split; [exact Hok' | exact Hinit].
Qed.

Lemma carried_sample_is_latest_selection_witness :
  let caps := mkCaps false false in
  let h1 := with_net (inr [("eth0", mkNetio 9000 9000)]) (Py.Z2F 1700000005) quiet_host in
  let h2 := with_net (inr [("eth0", mkNetio 100 200)]) (Py.Z2F 1700000002) quiet_host in
  carried_ok Overlay_built /\ Forall host_ok [h1; h2] /\
  previous_net (ticks caps Overlay_built [h1; h2]) =
    Some (sample_of "eth0" (mkNetio 100 200) (Py.Z2F 1700000002)).
Proof.
  cbv zeta.
  assert (H0 : carried_ok Overlay_built) by (intros prev H; discriminate H).
  assert (Hok : forall sent recv t,
            counter sent -> counter recv -> timestamp t ->
            host_ok (with_net (inr [("eth0", mkNetio sent recv)]) t quiet_host)).
  { intros sent recv t Hs Hr Ht. split; [exact Ht|].
    intros pernic H. injection H as <-. constructor; [now split | constructor]. }
  assert (Hh : Forall host_ok
                 [with_net (inr [("eth0", mkNetio 9000 9000)]) (Py.Z2F 1700000005) quiet_host;
                  with_net (inr [("eth0", mkNetio 100 200)]) (Py.Z2F 1700000002) quiet_host]).
  { constructor; [|constructor; [|constructor]]; apply Hok;
      try (unfold counter; lia); vm_compute; discriminate. }
  split; [exact H0|]. split; [exact Hh|].
  destruct (carried_sample_is_latest_selection (mkCaps false false) _ Overlay_built H0 Hh)
    as [E _].
  rewrite E. vm_compute. reflexivity.
Defined.

(** ** Network: counters that did not increase *)

Lemma has_sign_not_positive f : has_sign true f -> not_positive f.
Proof. destruct f; cbn; trivial. Qed.

Lemma round_aux_not_positive mx ex lx :
  nan_or_not_positive (binary_round_aux Py.prec Py.emax true mx ex lx).
Proof.
  destruct (binary_round_aux_sign true mx ex lx) as [E|H]; [now left|].
  right. now apply has_sign_not_positive.
Qed.

Lemma Z2F_not_positive z : z <= 0 -> not_positive (Py.Z2F z).
Proof.
  intros Hz. unfold Py.Z2F, binary_normalize. destruct z as [|p|p]; [exact I | lia |].
  apply has_sign_not_positive, binary_round_sign.
Qed.

(** A divisor as [divisor] returns it: NaN, or above zero. *)
Lemma divisor_sign dt :
  divisor dt = S754_nan \/ (has_sign false (divisor dt) /\ Py.is_zero (divisor dt) = false).
Proof.
  unfold divisor. destruct (Py.le0 dt) eqn:E; [right; now split|].
  destruct dt as [s|[|]| |[|] m e]; cbn in E; try discriminate; auto;
    try (right; now split); destruct s; discriminate.
Qed.

Lemma fdiv_not_positive x y :
  nan_or_not_positive x ->
  y = S754_nan \/ (has_sign false y /\ Py.is_zero y = false) ->
  nan_or_not_positive (Py.fdiv x y).
Proof.
  unfold Py.fdiv, SFdiv. intros Hx Hy.
  destruct Hx as [Ex|Hx]; [subst x; left; reflexivity|].
  destruct Hy as [Ey|[Hy Hz]]; [subst y; left; now destruct x|].
  - destruct x as [sx|sx| |sx mx ex]; cbn in Hx; try contradiction;
      destruct y as [sy|sy| |sy my ey]; cbn in Hy; try contradiction; subst;
      try discriminate Hz; try (left; reflexivity); try (right; exact I);
      try (right; reflexivity).
    cbn [xorb].
    destruct (SFdiv_core_binary Py.prec Py.emax (Zpos mx) ex (Zpos my) ey) as [[q e'] l].
    apply round_aux_not_positive.
Qed.

Lemma fadd_not_positive x y :
  nan_or_not_positive x -> nan_or_not_positive y -> nan_or_not_positive (Py.fadd x y).
Proof.
  unfold Py.fadd, SFadd. intros Hx Hy.
  destruct Hx as [Ex|Hx]; [subst x; left; reflexivity|].
  destruct Hy as [Ey|Hy]; [subst y; left; now destruct x|].
  - destruct x as [sx|sx| |sx mx ex]; cbn in Hx; try contradiction;
      destruct y as [sy|sy| |sy my ey]; cbn in Hy; try contradiction; subst;
      try (right; exact I); try (right; reflexivity).
    + right. destruct sx, sy; exact I.
    + cbn [cond_Zopp].
      destruct (- Z.pos (fst (shl_align mx ex (Z.min ex ey))) +
                - Z.pos (fst (shl_align my ey (Z.min ex ey)))) as [|p|p] eqn:E; try lia.
      cbn [binary_normalize]. right. apply has_sign_not_positive, binary_round_sign.
Qed.

Lemma fmul_f100_not_positive x :
  nan_or_not_positive x -> nan_or_not_positive (Py.fmul x f100).
Proof.
  unfold Py.fmul, SFmul, f100. intros [Ex|Hx]; [subst x; now left|].
  destruct x as [sx|sx| |sx mx ex]; cbn in Hx; try contradiction; subst;
    try (right; exact I); try (right; reflexivity).
  cbn [xorb]. apply round_aux_not_positive.
Qed.

Lemma int_of_float_not_positive f n :
  nan_or_not_positive f -> Py.int_of_float f = inr n -> n <= 0.
Proof.
  intros [Ef|Hf]; [subst f; discriminate|].
  destruct f as [s|s| |s m e]; cbn in Hf; try contradiction; subst;
    unfold Py.int_of_float, Py.ret, Py.raise; intros H; try discriminate H.
  - injection H as <-. lia.
  - cbn [cond_Zopp] in H.
    assert (Hv : 0 <= (if 0 <=? e then Z.pos m * 2 ^ e else Z.pos m / 2 ^ (- e))).
    { destruct (0 <=? e) eqn:E.
      - apply Z.mul_nonneg_nonneg; [lia | apply Z.pow_nonneg; lia].
      - apply Z.leb_gt in E. apply Z.div_pos; [lia | apply pow2_pos; lia]. }
    set (v := if 0 <=? e then Z.pos m * 2 ^ e else Z.pos m / 2 ^ (- e)) in *.
    assert (E : - v = n) by congruence. lia.
Qed.

Lemma float_of_int_not_positive z f :
  z <= 0 -> Py.float_of_int z = inr f -> nan_or_not_positive f.
Proof.
  intros Hz. unfold Py.float_of_int, Py.ret, Py.raise.
  pose proof (Z2F_not_positive z Hz) as Hn.
  destruct (Py.Z2F z); intros H; inversion H; subst; right; exact Hn.
Qed.

(** With neither difference above zero, the rate computation raises or
    returns a number that is not above zero. *)
Lemma net_pct_not_positive prev curr now pct :
  bytes_sent curr <= net_sent prev -> bytes_recv curr <= net_recv prev ->
  net_pct prev curr now = inr pct -> pct <= 0.
Proof.
  intros Hs Hr. unfold net_pct.
  rewrite throughput_percent_eq by apply divisor_not_zero.
  destruct (Py.float_of_int (bytes_sent curr - net_sent prev)) as [e|fs] eqn:Es;
    [discriminate|].
  destruct (Py.float_of_int (bytes_recv curr - net_recv prev)) as [e|fr] eqn:Er;
    [discriminate|].
  cbn [Py.bind].
  apply float_of_int_not_positive in Es; [|lia].
  apply float_of_int_not_positive in Er; [|lia].
  pose proof (divisor_sign (elapsed now prev)) as Hd.
  set (T := divisor (elapsed now prev)) in *.
  assert (Hc : forall c, c = Py.f1024 \/ c = S754_finite false 7036874417766400 (-36) ->
                  c = S754_nan \/ (has_sign false c /\ Py.is_zero c = false))
    by (intros c [->| ->]; right; now split).
  pose proof (fdiv_not_positive _ _ Es Hd) as H1.
  pose proof (fdiv_not_positive _ _ Er Hd) as H2.
  pose proof (fadd_not_positive _ _ H1 H2) as H3.
  pose proof (fdiv_not_positive _ _ H3 (Hc _ (or_introl eq_refl))) as H4.
  pose proof (fdiv_not_positive _ _ H4 (Hc _ (or_intror eq_refl))) as H5.
  pose proof (fmul_f100_not_positive _ H5) as H6.
  destruct (Py.int_of_float _) as [e|n] eqn:En; [discriminate|].
  apply (int_of_float_not_positive _ _ H6) in En.
  cbn [Py.bind Py.ret]. intros H. inversion H. lia.
Qed.

(** X7.  When neither byte counter of the selected interface is above the
    carried one -- the interface was idle, or its counters were reset and
    run backwards -- the network row shows 0%, whatever the clock readings
    are (a clock that stood still or stepped backwards, a NaN) and however
    large the counters. *)
Theorem counters_not_increased_show_zero caps s h pernic prev nic curr :
  previous_net s = Some prev ->
  net_io_counters h = inr pernic ->
  select_top pernic = Some (nic, curr) ->
  bytes_sent curr <= net_sent prev -> bytes_recv curr <= net_recv prev ->
  bar (row_net (tick caps s h)) = 0 /\
  value_label (row_net (tick caps s h)) = "0%".
Proof.
  intros Hp Hc Hsel Hs Hr. destruct (tick_net caps s h) as [_ Hrow].
  rewrite Hrow. unfold net_step. rewrite Hc, Hsel, Hp.
  destruct (String.eqb (net_name prev) nic); [|apply bar_update_zero].
  destruct (net_pct prev curr (time h)) as [e|pct] eqn:E; [apply bar_update_zero|].
  apply net_pct_not_positive in E; try assumption.
  cbn [snd]. rewrite update_value_shown. cbn [bar value_label shown Py.int Py.ret].
  assert (Hz : clamp_percent pct = 0) by (unfold clamp_percent; lia).
  rewrite Hz. now split.
Qed.

Lemma counters_not_increased_show_zero_witness :
  let caps := mkCaps false false in
  let s := tick caps Overlay_built
             (with_net (inr [("eth0", mkNetio 5000 7000)]) (Py.Z2F 1700000000) quiet_host) in
  let pernic := [("eth0", mkNetio 40 7000)] in
  let h := with_net (inr pernic) (Py.Z2F 1700000001) quiet_host in
  previous_net s = Some (sample_of "eth0" (mkNetio 5000 7000) (Py.Z2F 1700000000)) /\
  select_top pernic = Some ("eth0", mkNetio 40 7000) /\
  bar (row_net (tick caps s h)) = 0.
Proof.
  cbv zeta.
  assert (Hp : previous_net
                 (tick (mkCaps false false) Overlay_built
                    (with_net (inr [("eth0", mkNetio 5000 7000)]) (Py.Z2F 1700000000)
                              quiet_host)) =
               Some (sample_of "eth0" (mkNetio 5000 7000) (Py.Z2F 1700000000)))
    by (vm_compute; reflexivity).
  split; [exact Hp|]. split; [reflexivity|].
  refine (proj1 (counters_not_increased_show_zero (mkCaps false false) _
                   (with_net (inr [("eth0", mkNetio 40 7000)]) (Py.Z2F 1700000001) quiet_host)
                   [("eth0", mkNetio 40 7000)] _ "eth0" (mkNetio 40 7000)
                   Hp eq_refl eq_refl _ _)); cbn; lia.
Defined.

(** ** A tick: what every row displays *)

Lemma same_system_rows_refl s : same_system_rows s s.
Proof. now repeat split. Qed.

Lemma same_system_rows_trans s1 s2 s3 :
  same_system_rows s1 s2 -> same_system_rows s2 s3 -> same_system_rows s1 s3.
Proof. intros [A [B C]] [D [E F]]. repeat split; congruence. Qed.

Lemma log_call_same_system_rows c s : same_system_rows s (log_call c s).
Proof. now repeat split. Qed.

#[local] Hint Resolve same_system_rows_refl same_system_rows_trans
  log_call_same_system_rows : frames.

(** Commands built from calls, reads and row updates keep a relation that
    [upd] shows a row update to keep. *)
Ltac frame_rows upd :=
  repeat first
    [ apply keeps_try; eauto with frames
    | apply keeps_bind; eauto with frames; [|intro]
    | apply keeps_for_each; eauto with frames; intro
    | apply keeps_ask; eauto with frames
    | apply keeps_gets; eauto with frames
    | apply keeps_lift; eauto with frames
    | apply keeps_cret; eauto with frames
    | apply upd
    | match goal with |- keeps _ (if ?b then _ else _) => destruct b end ].

Lemma update_row_system idx v : keeps same_system_rows (update_row idx v).
Proof. intros s. now repeat split. Qed.

Lemma update_gpus_system caps h : keeps same_system_rows (update_gpus caps h).
Proof.
  unfold update_gpus, _update_gpus_gputil, zero_all_rows.
  frame_rows update_row_system.
Qed.

Lemma update_battery_system h : keeps same_system_rows (update_battery h).
Proof.
  intros s. unfold update_battery, try_except, cbind, lift, modify.
  destruct (sensors_battery h) as [e|[b|]]; cbn; try (now repeat split).
  destruct (Py.int (percent b)); cbn; try (now repeat split).
  destruct (power_plugged b) as [[|]|]; now repeat split.
Qed.

Lemma update_net_system h : keeps same_system_rows (update_net h).
Proof.
  intros s. unfold update_net, try_except, cbind, lift, gets, modify, row_net_update.
  destruct (net_io_counters h) as [e|pernic]; cbn; [now repeat split|].
  destruct (select_top pernic) as [[nic curr]|]; cbn; [|now repeat split].
  destruct (previous_net s) as [prev|]; cbn; [|now repeat split].
  destruct (String.eqb (net_name prev) nic); cbn; [|now repeat split].
  destruct (net_pct prev curr (time h)); cbn; now repeat split.
Qed.

(** The three system rows after a tick. *)
Lemma tick_system_rows caps s h :
  row_cpu (tick caps s h) = update_value (row_cpu s) (or_zero (cpu_percent h)) /\
  row_ram (tick caps s h) = update_value (row_ram s) (or_zero (virtual_memory_percent h)) /\
  row_disk (tick caps s h) = update_value (row_disk s) (or_zero (disk_usage_percent h)).
Proof.
  rewrite tick_parts.
  set (s1 := exec (update_battery h) s).
  destruct (update_battery_system h s) as [A1 [B1 C1]]. fold (exec (update_battery h) s) in A1, B1, C1.
  fold s1 in A1, B1, C1.
  set (s4 := exec (modify _) (exec (modify _) (exec (modify _) s1))).
  set (s5 := exec (update_gpus caps h) s4).
  destruct (update_gpus_system caps h s4) as [A5 [B5 C5]].
  fold (exec (update_gpus caps h) s4) in A5, B5, C5. fold s5 in A5, B5, C5.
  destruct (update_net_system h s5) as [A6 [B6 C6]].
  fold (exec (update_net h) s5) in A6, B6, C6.
  rewrite A6, B6, C6, A5, B5, C5. unfold s4, exec, modify. cbn.
  now rewrite A1, B1, C1.
Qed.

Lemma displays_update_value row v : displays_percent (update_value row v).
Proof.
  rewrite update_value_shown. split; [apply shown_range | reflexivity].
Qed.

Lemma percent_of_range r : 0 <= percent_of r <= 100.
Proof. destruct r; cbn; [lia | apply clamp_percent_range]. Qed.

Lemma Forall_repeat_zero n : Forall (fun v => 0 <= v <= 100) (repeat 0 n).
Proof. apply Forall_forall. intros v Hv. apply repeat_spec in Hv. lia. Qed.

Lemma fallback_values_range caps h n :
  Forall (fun v => 0 <= v <= 100) (fallback_values caps h n).
Proof.
  unfold fallback_values.
  destruct (GPUtil_available caps); [|apply Forall_repeat_zero].
  destruct (getGPUs h) as [e|gpus]; [apply Forall_repeat_zero|].
  destruct (forallb _ _); [|apply Forall_repeat_zero].
  apply Forall_forall. intros v Hv. apply in_map_iff in Hv. destruct Hv as [idx [<- _]].
  destruct (idx <? List.length gpus)%nat; [apply percent_of_range | lia].
Qed.

Lemma sampled_values_range caps h n :
  Forall (fun v => 0 <= v <= 100) (sampled_values caps h n).
Proof.
  unfold sampled_values, native_values.
  destruct (NVML caps); [|apply fallback_values_range].
  destruct (nvmlDeviceGetCount h) as [e|count]; [apply fallback_values_range|].
  destruct (forallb _ _); [|apply fallback_values_range].
  apply Forall_forall. intros v Hv. apply in_map_iff in Hv. destruct Hv as [idx [<- _]].
  destruct (idx <? count)%nat; [apply percent_of_range | lia].
Qed.

(** Rows in step before a tick display a percentage after it. *)
Lemma tick_gpu_rows_display caps s h :
  Forall (fun r => in_step (snd r)) (gpu_rows s) ->
  Forall (fun r => displays_percent (snd r)) (gpu_rows (tick caps s h)).
Proof.
  intros Hin. pose proof (tick_in_step caps s h Hin) as Hstep.
  destruct (tick_gpu caps s h) as [Hv _].
  pose proof (sampled_values_range caps h (List.length (gpu_rows s))) as Hr.
  rewrite <- Hv in Hr. unfold gpu_values in Hr.
  rewrite Forall_forall in Hstep, Hr. apply Forall_forall. intros r Hr'.
  assert (Hb : 0 <= bar (snd r) <= 100).
  { apply Hr. apply in_map_iff. now exists r. }
  split; [exact Hb|]. destruct (Hstep r Hr') as [H|[H _]]; [exact H | lia].
Qed.

Lemma StatRow_init_in_step l : in_step (StatRow_init l).
Proof. right. now split. Qed.

Lemma named_rows_in_step names : forall k,
  Forall (fun r => in_step (snd r)) (named_rows k names).
Proof.
  induction names as [|n ns IH]; intros k; cbn [named_rows]; constructor.
  - apply StatRow_init_in_step.
  - apply IH.
Qed.

Lemma Overlay_init_in_step decode caps h0 :
  Forall (fun r => in_step (snd r)) (gpu_rows (Overlay_init decode caps h0)).
Proof.
  destruct (Overlay_init_rows decode caps h0) as [Hr _]. cbv zeta in Hr. rewrite Hr.
  destruct (Nat.eqb _ 0); [|apply named_rows_in_step].
  constructor; [apply StatRow_init_in_step | constructor].
Qed.

Lemma ticks_in_step caps hs : forall s,
  Forall (fun r => in_step (snd r)) (gpu_rows s) ->
  Forall (fun r => in_step (snd r)) (gpu_rows (ticks caps s hs)).
Proof.
  induction hs as [|h hs IH]; intros s Hs; [exact Hs|].
  cbn [ticks fold_left]. apply IH. now apply tick_in_step.
Qed.

(** X8.  After every tick since start-up, whatever the backends answered
    or raised at enumeration and at each tick, each of the rows CPU, RAM,
    DISK and NETWORK and every GPU row displays a percentage: its bar holds
    a number between 0 and 100 and its text is that number followed by
    "%". *)
Theorem every_row_displays_percent decode caps h0 hs h :
  let s := ticks caps (Overlay_init decode caps h0) (hs ++ [h]) in
  displays_percent (row_cpu s) /\ displays_percent (row_ram s) /\
  displays_percent (row_disk s) /\ displays_percent (row_net s) /\
  Forall (fun r => displays_percent (snd r)) (gpu_rows s).
Proof.
  cbv zeta. unfold ticks. rewrite fold_left_app. cbn [fold_left].
  fold (ticks caps (Overlay_init decode caps h0) hs).
  set (s := ticks caps (Overlay_init decode caps h0) hs).
  destruct (tick_system_rows caps s h) as [Hc [Hr Hd]].
  destruct (tick_net caps s h) as [_ Hn].
  rewrite Hc, Hr, Hd.
  split; [apply displays_update_value|]. split; [apply displays_update_value|].
  split; [apply displays_update_value|]. split.
  - rewrite Hn. unfold net_step.
    destruct (net_io_counters h) as [e|pernic]; [apply displays_update_value|].
    destruct (select_top pernic) as [[nic curr]|]; [|apply displays_update_value].
    destruct (previous_net s) as [prev|]; [|apply displays_update_value].
    destruct (String.eqb (net_name prev) nic); [|apply displays_update_value].
    destruct (net_pct prev curr (time h)); apply displays_update_value.
  - apply tick_gpu_rows_display. apply ticks_in_step, Overlay_init_in_step.
Qed.

(** ** A tick: no exception escapes *)

Lemma returns_unit (c : Cmd unit) s : returns c -> snd (c s) = inr tt.
Proof. intros H. destruct (H s) as [[] E]. exact E. Qed.

Lemma update_stats_returns caps h : returns (update_stats caps h).
Proof.
  unfold update_stats.
  apply returns_bind; [apply update_battery_frame | intros _].
  apply returns_bind; [apply returns_modify | intros _].
  apply returns_bind; [apply returns_modify | intros _].
  apply returns_bind; [apply returns_modify | intros _].
  apply returns_bind; [apply update_gpus_frame | intros _].
  apply update_net_returns.
Qed.

Lemma detect_gpus_and_populate_returns decode caps h :
  returns (detect_gpus_and_populate decode caps h).
Proof.
  unfold detect_gpus_and_populate.
  apply returns_bind.
  { unfold detect_native. destruct (NVML caps); [apply returns_try|]; apply returns_cret. }
  intros [names count]. apply returns_bind.
  { unfold detect_fallback. destruct (_ && _); [apply returns_try|]; apply returns_cret. }
  intros [names' count']. apply returns_bind; [apply returns_modify | intros _].
  destruct (Nat.eqb count' 0); apply returns_modify.
Qed.

(** X9.  No failure of psutil, pynvml or GPUtil escapes the sampler:
    whatever each call into them answers or raises, and from whatever
    state, [update_stats] returns, and so do [update_battery],
    [_update_gpus_gputil] and [detect_gpus_and_populate]. *)
Theorem backend_failures_are_contained decode caps h s :
  snd (update_stats caps h s) = inr tt /\
  snd (update_battery h s) = inr tt /\
  snd (_update_gpus_gputil caps h s) = inr tt /\
  snd (detect_gpus_and_populate decode caps h s) = inr tt.
Proof.
  split; [apply returns_unit, update_stats_returns|].
  split; [apply returns_unit, update_battery_frame|].
  split; [apply returns_unit, _update_gpus_gputil_frame|].
  apply returns_unit, detect_gpus_and_populate_returns.
Qed.

(** ** A tick: when GPUtil is called *)

Lemma same_calls_no_gputil s s' : same_calls s s' -> no_gputil_call s s'.
Proof. unfold same_calls, no_gputil_call. now intros ->. Qed.

Lemma update_battery_calls h : keeps same_calls (update_battery h).
Proof.
  intros s. unfold same_calls, update_battery, try_except, cbind, lift, modify.
  destruct (sensors_battery h) as [e|[b|]]; cbn; try reflexivity.
  destruct (Py.int (percent b)); cbn; try reflexivity.
  destruct (power_plugged b) as [[|]|]; reflexivity.
Qed.

Lemma update_net_calls h : keeps same_calls (update_net h).
Proof.
  intros s. unfold same_calls, update_net, try_except, cbind, lift, gets, modify,
    row_net_update.
  destruct (net_io_counters h) as [e|pernic]; cbn; [reflexivity|].
  destruct (select_top pernic) as [[nic curr]|]; cbn; [|reflexivity].
  destruct (previous_net s) as [prev|]; cbn; [|reflexivity].
  destruct (String.eqb (net_name prev) nic); cbn; [|reflexivity].
  destruct (net_pct prev curr (time h)); reflexivity.
Qed.

#[local] Hint Resolve no_gputil_call_refl no_gputil_call_trans : frames.

Lemma update_row_no_gputil idx v : keeps no_gputil_call (update_row idx v).
Proof. intros s H. exact H. Qed.

Lemma zero_all_rows_no_gputil : keeps no_gputil_call zero_all_rows.
Proof. unfold zero_all_rows. frame_rows update_row_no_gputil. Qed.

(** The GPU part of a tick makes no call into GPUtil when GPUtil is not
    installed, and none when the native pass runs to its end. *)
Lemma update_gpus_no_gputil caps h s :
  GPUtil_available caps = false \/
  (NVML caps = true /\ exists count vs,
     nvmlDeviceGetCount h = inr count /\
     native_values h count (List.length (gpu_rows s)) = Some vs) ->
  no_gputil_call s (exec (update_gpus caps h) s).
Proof.
  intros [HG|[HN [count [vs [Hc Hv]]]]].
  - assert (Hfb : keeps no_gputil_call (_update_gpus_gputil caps h))
      by (unfold _update_gpus_gputil; rewrite HG; apply zero_all_rows_no_gputil).
    revert s. change (keeps no_gputil_call (update_gpus caps h)).
    unfold update_gpus. destruct (NVML caps); [|exact Hfb].
    apply keeps_try; eauto with frames.
    frame_rows update_row_no_gputil; intros s0; apply log_call_no_gputil; discriminate.
  - unfold update_gpus. rewrite HN.
    unfold exec, try_except, cbind at 1, ask at 1. cbn [fst snd]. rewrite Hc.
    unfold cbind at 1, gets at 1. cbn [fst snd].
    change (gpu_rows (log_call CallNvmlDeviceGetCount s)) with (gpu_rows s).
    set (n := List.length (gpu_rows s)) in *.
    set (body := fun idx : nat => cbind (gets (fun s => List.length (gpu_rows s))) _).
    destruct (for_each_row_steps n body (nvml_row_value h count n) (seq 0 (Nat.max n count))
                (fun idx => nvml_body_step h count n idx)
                (log_call CallNvmlDeviceGetCount s) eq_refl) as [Hok _].
    rewrite nvml_rows_ok in Hok. unfold native_values in Hv.
    destruct (forallb _ (seq 0 (Nat.min count n))); [|discriminate].
    destruct (Hok eq_refl) as [H1 _].
    assert (Hk : keeps no_gputil_call (for_each (seq 0 (Nat.max n count)) body)).
    { unfold body.
      frame_rows update_row_no_gputil; intros s0; apply log_call_no_gputil; discriminate. }
    specialize (Hk (log_call CallNvmlDeviceGetCount s)).
    destruct (for_each _ body (log_call CallNvmlDeviceGetCount s)) as [s' r].
    cbn [fst snd] in *. subst r. cbn [fst].
    eapply no_gputil_call_trans; [|exact Hk].
    apply log_call_no_gputil. discriminate.
Qed.

(** X10.  At a tick GPUtil is called only as a fallback: no call into
    GPUtil is made when NVML is initialised, counts the devices and answers
    every utilization query the rows need, and none when GPUtil is not
    installed. *)
Theorem sampling_calls_fallback_only_on_failure caps s h :
  let n := List.length (gpu_rows s) in
  (forall count,
     NVML caps = true -> nvmlDeviceGetCount h = inr count ->
     (forall idx, (idx < count)%nat -> (idx < n)%nat -> exists u, nvml_util h idx = inr u) ->
     ~ In CallGetGPUs (calls s) -> ~ In CallGetGPUs (calls (tick caps s h))) /\
  (GPUtil_available caps = false ->
   ~ In CallGetGPUs (calls s) -> ~ In CallGetGPUs (calls (tick caps s h))).
Proof.
  cbv zeta.
  assert (Hparts : forall s4,
            gpu_rows s4 = gpu_rows s -> calls s4 = calls s ->
            no_gputil_call s4 (exec (update_gpus caps h) s4) ->
            tick caps s h = exec (update_net h) (exec (update_gpus caps h) s4) ->
            ~ In CallGetGPUs (calls s) -> ~ In CallGetGPUs (calls (tick caps s h))).
  { intros s4 _ Hc Hno Ht Hs Hin. rewrite Ht in Hin.
    pose proof (update_net_calls h (exec (update_gpus caps h) s4)) as Hn.
    unfold same_calls in Hn. fold (exec (update_net h) (exec (update_gpus caps h) s4)) in Hn.
    rewrite Hn in Hin. apply Hno in Hin. now rewrite Hc in Hin. }
  pose proof (tick_parts caps s h) as Ht.
  set (s1 := exec (update_battery h) s) in Ht.
  set (s4 := exec (modify _) (exec (modify _) (exec (modify _) s1))) in Ht.
  assert (Hrows : gpu_rows s4 = gpu_rows s) by apply update_battery_frame.
  assert (Hcalls : calls s4 = calls s) by apply (update_battery_calls h s).
  split.
  - intros count HN Hc Hall. apply (Hparts s4 Hrows Hcalls); [|exact Ht].
    apply update_gpus_no_gputil. right. split; [exact HN|].
    exists count. rewrite Hrows. unfold native_values.
    rewrite forallb_seq_true; [eexists; split; [exact Hc | reflexivity]|].
    intros idx Hlt. destruct (Hall idx) as [u Hu]; try lia. now rewrite Hu.
  - intros HG. apply (Hparts s4 Hrows Hcalls); [|exact Ht].
    apply update_gpus_no_gputil. now left.
Qed.

Lemma sampling_calls_fallback_only_on_failure_witness :
  let caps := mkCaps true true in
  let s0 := Overlay_init (fun _ => "") caps (two_gpus (fun _ => inr 0)) in
  let h := with_gputil (inr [mkGPU "other" (S754_zero false)]) (two_gpus (fun _ => inr 40)) in
  NVML caps = true /\ nvmlDeviceGetCount h = inr 2%nat /\
  ~ In CallGetGPUs (calls s0) /\ ~ In CallGetGPUs (calls (tick caps s0 h)).
Proof.
  cbv zeta. split; [reflexivity|]. split; [reflexivity|].
  assert (H0 : ~ In CallGetGPUs
                  (calls (Overlay_init (fun _ => "") (mkCaps true true)
                            (two_gpus (fun _ => inr 0))))).
  { vm_compute. intros [H|[H|[H|[H|[H|[]]]]]]; discriminate H. }
  split; [exact H0|].
  refine (proj1 (sampling_calls_fallback_only_on_failure (mkCaps true true) _
                   (with_gputil (inr [mkGPU "other" (S754_zero false)])
                                (two_gpus (fun _ => inr 40))))
                2%nat eq_refl eq_refl _ H0).
  intros idx _ _. now exists 40.
Defined.

(** ** Enumeration: how many rows, and their labels *)

Lemma native_found_count decode caps h :
  snd (native_found decode caps h) = List.length (fst (native_found decode caps h)).
Proof.
  unfold native_found. destruct (NVML caps); [|reflexivity].
  destruct (nvmlDeviceGetCount h) as [e|count]; [reflexivity|].
  destruct (native_names_from decode h (seq 0 count)) as [e|names] eqn:E; [reflexivity|].
  apply native_names_from_length in E. rewrite length_seq in E. now cbn.
Qed.

Lemma fallback_found_count caps h found :
  snd found = List.length (fst found) ->
  snd (fallback_found caps h found) = List.length (fst (fallback_found caps h found)).
Proof.
  intros H. unfold fallback_found, fallback_consulted.
  destruct found as [[|x xs] count]; cbn [fst snd] in *; [|exact H].
  destruct (GPUtil_available caps); [|exact H].
  destruct (getGPUs h) as [e|gpus]; cbn [fst snd app]; [reflexivity|].
  now rewrite length_map.
Qed.

Lemma nth_error_named_rows names : forall j k,
  nth_error (named_rows j names) k =
  option_map (fun name => (name, StatRow_init (gpu_label (j + k) name))) (nth_error names k).
Proof.
  induction names as [|n ns IH]; intros j [|k]; cbn [named_rows nth_error option_map];
    try reflexivity.
  - now rewrite Nat.add_0_r.
  - rewrite IH. now rewrite Nat.add_succ_r.
Qed.

(** X11.  Enumeration always leaves at least one GPU row.  The device
    count it ends with is the number of names it gathered; with no name
    gathered the rows are the single placeholder "GPU", otherwise there is
    one row per name, in order. *)
Theorem enumeration_row_count decode caps h :
  let s := Overlay_init decode caps h in
  let found := fallback_found caps h (native_found decode caps h) in
  snd found = List.length (fst found) /\
  List.length (gpu_rows s) = Nat.max 1 (List.length (fst found)) /\
  (fst found = [] -> gpu_rows s = [("GPU", StatRow_init "GPU")]) /\
  (fst found <> [] -> gpu_names_of s = fst found).
Proof.
  cbv zeta. destruct (Overlay_init_rows decode caps h) as [Hr _]. cbv zeta in Hr.
  pose proof (fallback_found_count caps h _ (native_found_count decode caps h)) as Hc.
  destruct (fallback_found caps h (native_found decode caps h)) as [names count].
  cbn [fst snd] in *. subst count. split; [reflexivity|]. rewrite Hr.
  unfold gpu_names_of. rewrite Hr.
  destruct names as [|n ns]; cbn [List.length Nat.eqb].
  - repeat split. intros H. now elim H.
  - split; [rewrite named_rows_length; cbn [List.length]; lia|].
    split; [discriminate|]. intros _. apply named_rows_names.
Qed.

(** X12.  The row of the device found at position [k] (counting from 0)
    carries the device's name and the label "GPUk (name)"; until the first
    tick its bar has no value and its text reads "0%". *)
Theorem enumeration_row_labels decode caps h k name :
  let s := Overlay_init decode caps h in
  let found := fallback_found caps h (native_found decode caps h) in
  nth_error (fst found) k = Some name ->
  nth_error (gpu_rows s) k =
    Some (name, {| label := "GPU" ++ Py.str_of_int (Z.of_nat k) ++ " (" ++ name ++ ")";
                   bar := -1; value_label := "0%" |}).
Proof.
  cbv zeta. intros Hk. destruct (Overlay_init_rows decode caps h) as [Hr _].
  cbv zeta in Hr. rewrite Hr.
  pose proof (fallback_found_count caps h _ (native_found_count decode caps h)) as Hc.
  destruct (fallback_found caps h (native_found decode caps h)) as [names count].
  cbn [fst snd] in *. subst count.
  destruct names as [|n ns]; [destruct k; discriminate Hk|].
  cbn [List.length Nat.eqb]. rewrite nth_error_named_rows, Hk. reflexivity.
Qed.

Lemma enumeration_row_labels_witness :
  let caps := mkCaps true false in
  let s := Overlay_init (fun _ => "") caps (two_gpus (fun _ => inr 0)) in
  nth_error (fst (fallback_found caps (two_gpus (fun _ => inr 0))
                    (native_found (fun _ => "") caps (two_gpus (fun _ => inr 0))))) 1
    = Some "RTX" /\
  nth_error (gpu_rows s) 1 = Some ("RTX", mkStatRow "GPU1 (RTX)" (-1) "0%").
Proof.
  cbv zeta.
  assert (H : nth_error (fst (fallback_found (mkCaps true false) (two_gpus (fun _ => inr 0))
                    (native_found (fun _ => "") (mkCaps true false)
                       (two_gpus (fun _ => inr 0))))) 1 = Some "RTX") by reflexivity.
  split; [exact H|].
  exact (enumeration_row_labels (fun _ => "") (mkCaps true false)
           (two_gpus (fun _ => inr 0)) 1%nat "RTX" H).
Defined.

(** ** Battery: the failure text *)


(** ** The system rows *)

(** X14.  After a tick each of the rows CPU, RAM and DISK shows its own
    psutil reading, truncated and clamped to 0..100, and 0 when its query
    raised; a failure of one query, of the battery query, of a GPU backend
    or of the network query does not disturb the other rows, and no tick
    changes the three labels. *)
Theorem system_rows_show_own_reading caps s h :
  let s' := tick caps s h in
  bar (row_cpu s') = shown (or_zero (cpu_percent h)) /\
  bar (row_ram s') = shown (or_zero (virtual_memory_percent h)) /\
  bar (row_disk s') = shown (or_zero (disk_usage_percent h)) /\
  (forall e, cpu_percent h = inl e -> bar (row_cpu s') = 0) /\
  (forall e, virtual_memory_percent h = inl e -> bar (row_ram s') = 0) /\
  (forall e, disk_usage_percent h = inl e -> bar (row_disk s') = 0) /\
  label (row_cpu s') = label (row_cpu s) /\
  label (row_ram s') = label (row_ram s) /\
  label (row_disk s') = label (row_disk s).
Proof.
  cbv zeta. destruct (tick_system_rows caps s h) as [Hc [Hr Hd]].
  rewrite Hc, Hr, Hd, !update_value_shown. cbn [bar label].
  repeat split; intros e ->; reflexivity.
Qed.

(** ** [enable_layered] *)

Lemma layered_bits n :
  Z.testbit (Z.lor ws_ex_layered ws_ex_toolwindow) n = (n =? 19) || (n =? 7).
Proof.
  destruct (Z.ltb_spec n 0) as [Hn|Hn].
  - rewrite Z.testbit_neg_r by lia.
    destruct (Z.eqb_spec n 19), (Z.eqb_spec n 7); try lia; reflexivity.
  - destruct (Z.ltb_spec n 20) as [Hs|Hb].
    + assert (H : forall m, (m < 20)%nat ->
                Z.testbit (Z.lor ws_ex_layered ws_ex_toolwindow) (Z.of_nat m) =
                (Z.of_nat m =? 19) || (Z.of_nat m =? 7)).
      { intros m Hm. do 20 (destruct m as [|m]; [reflexivity|]). lia. }
      rewrite <- (Z2Nat.id n) by lia. apply H. lia.
    + rewrite (Z.bits_above_log2 (Z.lor ws_ex_layered ws_ex_toolwindow) n);
        [|vm_compute; discriminate
         |change (Z.log2 (Z.lor ws_ex_layered ws_ex_toolwindow)) with 19; lia].
      destruct (Z.eqb_spec n 19), (Z.eqb_spec n 7); try lia; reflexivity.
Qed.

(** Setting bits of a number that fits [k+1] signed bits gives a number
    that fits them. *)
Lemma lor_ldiff a b : Z.lor a b = a + Z.ldiff b a.
Proof.
  rewrite Z.add_nocarry_lxor.
  - apply Z.bits_inj'. intros n Hn.
    rewrite Z.lor_spec, Z.lxor_spec, Z.ldiff_spec.
    destruct (Z.testbit a n), (Z.testbit b n); reflexivity.
  - apply Z.bits_inj'. intros n Hn.
    rewrite Z.land_spec, Z.ldiff_spec, Z.bits_0.
    destruct (Z.testbit a n), (Z.testbit b n); reflexivity.
Qed.

Lemma lor_range a b k :
  0 <= k -> - 2 ^ k <= a < 2 ^ k -> 0 <= b < 2 ^ k -> - 2 ^ k <= Z.lor a b < 2 ^ k.
Proof.
  intros Hk Ha Hb. split.
  - rewrite lor_ldiff.
    assert (0 <= Z.ldiff b a) by (apply Z.ldiff_nonneg; left; lia). lia.
  - destruct (Z.neg_nonneg_cases a) as [Hneg|Hpos].
    + assert (Hl : Z.lor a b < 0) by (apply Z.lor_neg; now left).
      assert (0 < 2 ^ k) by (apply Z.pow_pos_nonneg; lia). lia.
    + assert (H0 : 0 <= Z.lor a b) by (apply Z.lor_nonneg; split; lia).
      destruct (Z.eq_dec (Z.lor a b) 0) as [E|E]; [rewrite E; lia|].
      assert (Hk0 : 0 < k).
      { destruct (Z.eq_dec k 0) as [->|]; [|lia]. exfalso. apply E.
        change (2 ^ 0) with 1 in *. assert (a = 0) by lia. assert (b = 0) by lia.
        subst. reflexivity. }
      apply Z.log2_lt_pow2; [lia|].
      rewrite Z.log2_lor by lia.
      apply Z.max_lub_lt.
      * destruct (Z.eq_dec a 0) as [->|Ea]; [cbn; lia|]. apply Z.log2_lt_pow2; lia.
      * destruct (Z.eq_dec b 0) as [->|Eb]; [cbn; lia|]. apply Z.log2_lt_pow2; lia.
Qed.

(** X15.  Off Windows [enable_layered] makes no call.  On Windows it
    writes back the window's extended style with the bits WS_EX_LAYERED
    (bit 19) and WS_EX_TOOLWINDOW (bit 7) set and every other bit as it was
    read; a style that fits a 32-bit signed integer stays one; and enabling
    a window that is already layered writes the style it has. *)
Theorem enable_layered_sets_two_bits (GetWindowLongW : Z -> Z -> Z) (hwnd : Z) :
  enable_layered false GetWindowLongW hwnd = None /\
  exists style,
    enable_layered true GetWindowLongW hwnd = Some (hwnd, -20, style) /\
    (forall n, 0 <= n ->
       Z.testbit style n = Z.testbit (GetWindowLongW hwnd (-20)) n || (n =? 19) || (n =? 7)) /\
    (- 2 ^ 31 <= GetWindowLongW hwnd (-20) < 2 ^ 31 -> - 2 ^ 31 <= style < 2 ^ 31) /\
    enable_layered true (window_with_style style) hwnd = Some (hwnd, -20, style).
Proof.
  split; [reflexivity|].
  unfold enable_layered, gwl_exstyle. cbn [negb].
  set (old := GetWindowLongW hwnd (-20)).
  exists (Z.lor old (Z.lor ws_ex_layered ws_ex_toolwindow)).
  split; [reflexivity|]. split; [|split].
  - intros n Hn. rewrite Z.lor_spec, layered_bits. now rewrite orb_assoc.
  - intros Hr. apply lor_range; [lia | exact Hr | vm_compute; split; congruence].
  - unfold window_with_style. now rewrite <- Z.lor_assoc, Z.lor_diag.
Qed.

(** ** Dragging *)

Lemma wrap32_small z : - 2 ^ 31 <= z < 2 ^ 31 -> wrap32 z = z.
Proof. intros H. unfold wrap32. rewrite Z.mod_small; lia. Qed.

Lemma moves_while_dragging off moves : forall self,
  _drag_pos self = Some off -> _dragging self = true -> QPoint_bool off = true ->
  Forall (fun e => buttons_has_left e = true) moves ->
  let s' := fold_left (fun s e => mouseMoveEvent e s) moves self in
  _drag_pos s' = Some off /\ _dragging s' = true /\
  drag_handle_cursor s' = drag_handle_cursor self /\
  frame_topLeft s' = match rev moves with
                     | last :: _ => QPoint_sub (globalPos last) off
                     | [] => frame_topLeft self
                     end.
Proof.
  induction moves as [|e moves IH] using rev_ind; intros self Hp Hd Hb Hall; cbv zeta.
  - cbn. now repeat split.
  - rewrite fold_left_app, rev_app_distr. cbn [fold_left rev app].
    apply Forall_app in Hall. destruct Hall as [Hall He].
    apply Forall_inv in He.
    destruct (IH self Hp Hd Hb Hall) as [Hp' [Hd' [Hc' _]]].
    set (s1 := fold_left (fun s e => mouseMoveEvent e s) moves self) in *.
    unfold mouseMoveEvent. rewrite Hp', Hb, He, Hd'. cbn. now repeat split.
Qed.

(** X16.  A press of the left button on the drag handle followed by moves
    with the left button held drags the window rigidly: after each move the
    window's top-left corner is displaced from where it was at the press by
    exactly the cursor's displacement since the press, so the point grabbed
    stays under the cursor; the handle shows the closed hand meanwhile.
    (Points on a screen; the press is not on the window's very corner.) *)
Theorem drag_follows_cursor self press moves last :
  button_is_left press = true -> pos_in_handle press = true ->
  on_screen (frame_topLeft self) -> on_screen (globalPos press) ->
  globalPos press <> frame_topLeft self ->
  Forall (fun e => buttons_has_left e = true) (moves ++ [last]) ->
  on_screen (globalPos last) ->
  let s' := fold_left mouse (map Move (moves ++ [last])) (mouse self (Press press)) in
  px (frame_topLeft s') =
    px (frame_topLeft self) + (px (globalPos last) - px (globalPos press)) /\
  py (frame_topLeft s') =
    py (frame_topLeft self) + (py (globalPos last) - py (globalPos press)) /\
  _dragging s' = true /\ drag_handle_cursor s' = ClosedHandCursor.
Proof.
  intros Hl Hh [Hx0 Hy0] [Hxg Hyg] Hne Hall [Hxl Hyl]. cbv zeta.
  assert (E : forall evs s, fold_left mouse (map Move evs) s =
                            fold_left (fun s e => mouseMoveEvent e s) evs s).
  { induction evs as [|e evs IH]; intros s; [reflexivity|]. cbn. apply IH. }
  rewrite E. cbn [mouse]. unfold mousePressEvent. rewrite Hl, Hh.
  set (off := QPoint_sub (globalPos press) (frame_topLeft self)).
  assert (Hoff : px off = px (globalPos press) - px (frame_topLeft self) /\
                 py off = py (globalPos press) - py (frame_topLeft self)).
  { unfold off, QPoint_sub. cbn [px py]. rewrite !wrap32_small by lia. now split. }
  destruct Hoff as [Hox Hoy].
  assert (Hb : QPoint_bool off = true).
  { unfold QPoint_bool. rewrite Hox, Hoy.
    destruct (Z.eqb_spec (px (globalPos press) - px (frame_topLeft self)) 0) as [Ex|Ex];
      [|reflexivity].
    destruct (Z.eqb_spec (py (globalPos press) - py (frame_topLeft self)) 0) as [Ey|Ey];
      [|reflexivity].
    exfalso. apply Hne. destruct (globalPos press) as [gx gy], (frame_topLeft self) as [fx fy].
    cbn [px py] in Ex, Ey. f_equal; lia. }
  destruct (moves_while_dragging off (moves ++ [last])
              (mkDrag (Some off) true (frame_topLeft self) ClosedHandCursor)
              eq_refl eq_refl Hb Hall) as [_ [Hd [Hc Hf]]].
  rewrite rev_app_distr in Hf. cbn [rev app] in Hf.
  rewrite Hf, Hd, Hc. unfold QPoint_sub. cbn [px py drag_handle_cursor].
  rewrite Hox, Hoy, !wrap32_small by lia. repeat split; lia.
Qed.

Lemma drag_follows_cursor_witness :
  let press := mkMouseEvent true true true (mkQPoint 30 28) in
  let last := mkMouseEvent false true false (mkQPoint 400 300) in
  globalPos press <> frame_topLeft Drag_init /\
  on_screen (globalPos press) /\ on_screen (globalPos last) /\
  px (frame_topLeft (fold_left mouse [Move last] (mouse Drag_init (Press press)))) = 390 /\
  py (frame_topLeft (fold_left mouse [Move last] (mouse Drag_init (Press press)))) = 292.
Proof.
  cbv zeta.
  set (press := mkMouseEvent true true true (mkQPoint 30 28)).
  set (last := mkMouseEvent false true false (mkQPoint 400 300)).
  assert (Hne : globalPos press <> frame_topLeft Drag_init) by discriminate.
  assert (H0 : on_screen (frame_topLeft Drag_init)) by (split; cbn; lia).
  assert (Hp : on_screen (globalPos press)) by (split; cbn; lia).
  assert (Hl : on_screen (globalPos last)) by (split; cbn; lia).
  assert (Hall : Forall (fun e => buttons_has_left e = true) ([] ++ [last]))
    by (constructor; [reflexivity | constructor]).
  split; [exact Hne|]. split; [exact Hp|]. split; [exact Hl|].
  pose proof (drag_follows_cursor Drag_init press [] last eq_refl eq_refl H0 Hp Hne Hall Hl)
    as [Hx [Hy _]].
  split; [exact Hx | exact Hy].
Defined.

Lemma mouse_not_dragging ev self :
  grabs ev = false -> _dragging self = false ->
  _dragging (mouse self ev) = false /\ frame_topLeft (mouse self ev) = frame_topLeft self.
Proof.
  intros Hg Hd. destruct ev as [e|e|]; cbn in *.
  - unfold mousePressEvent. destruct (button_is_left e); [|now split].
    cbn in Hg. rewrite Hg. now split.
  - unfold mouseMoveEvent. destruct (_drag_pos self); [|now split].
    rewrite Hd, andb_false_r. now split.
  - now split.
Qed.

(** X17.  The window moves only while it is dragged: as long as no press
    of the left button on the drag handle has occurred -- from start-up,
    after a release, after a left press elsewhere -- no sequence of mouse
    events moves the window.  A release ends a drag and gives the handle its
    open hand back. *)
Theorem window_moves_only_when_grabbed evs :
  (forall self,
     _dragging self = false -> forallb (fun ev => negb (grabs ev)) evs = true ->
     frame_topLeft (fold_left mouse evs self) = frame_topLeft self) /\
  (forallb (fun ev => negb (grabs ev)) evs = true ->
   frame_topLeft (fold_left mouse evs Drag_init) = mkQPoint 20 20) /\
  (forall self,
     _dragging (mouse self Release) = false /\ _drag_pos (mouse self Release) = None /\
     (_dragging self = true -> drag_handle_cursor (mouse self Release) = OpenHandCursor)) /\
  (forall self event,
     button_is_left event = true -> pos_in_handle event = false ->
     _dragging (mouse self (Press event)) = false).
Proof.
  assert (H : forall self,
            _dragging self = false -> forallb (fun ev => negb (grabs ev)) evs = true ->
            frame_topLeft (fold_left mouse evs self) = frame_topLeft self).
  { induction evs as [|ev evs IH]; intros self Hd Hall; [reflexivity|].
    cbn [forallb] in Hall. apply andb_prop in Hall. destruct Hall as [Hg Hall].
    apply negb_true_iff in Hg.
    destruct (mouse_not_dragging ev self Hg Hd) as [Hd' Hf].
    cbn [fold_left]. rewrite (IH _ Hd' Hall). exact Hf. }
  split; [exact H|]. split; [intros Hall; now apply (H Drag_init)|]. split.
  - intros self. cbn. repeat split. now intros ->.
  - intros self event Hl Hh. cbn. unfold mousePressEvent. now rewrite Hl, Hh.
Qed.

(** ** The Info page: GPU lines *)

Lemma lines_for_nvml decode fmt h ih idxs : forall ls,
  fst (lines_for idxs (fun i =>
         lines_bind (lines_call (info_nvml_line decode fmt h ih i)) (fun line =>
           append_line line)) ls) =
  (ls ++ lines_until_failure decode fmt h ih idxs)%list.
Proof.
  induction idxs as [|i rest IH]; intros ls; cbn [lines_for lines_until_failure].
  - cbn. now rewrite app_nil_r.
  - unfold lines_bind at 1. unfold lines_bind at 1, lines_call, append_line.
    destruct (info_nvml_line decode fmt h ih i) as [e|line]; cbn [fst].
    + now rewrite app_nil_r.
    + rewrite IH, <- app_assoc. reflexivity.
Qed.

Lemma lines_for_append {X} (f : X -> string) xs : forall ls,
  lines_for xs (fun x => append_line (f x)) ls = ((ls ++ map f xs)%list, inr tt).
Proof.
  induction xs as [|x xs IH]; intros ls; cbn [lines_for map].
  - unfold lines_ret. now rewrite app_nil_r.
  - unfold lines_bind, append_line. rewrite IH, <- app_assoc. reflexivity.
Qed.

(** The lines gathered by the GPU section. *)
Lemma info_gpu_section_lines decode fmt strf caps h ih :
  fst (info_gpu_section decode fmt strf caps h ih []) =
  if NVML caps then
    match nvmlDeviceGetCount h with
    | inr c => lines_until_failure decode fmt h ih (seq 0 c)
    | inl _ => []
    end
  else if GPUtil_available caps then
    match getGPUs h with
    | inr gpus => map (info_gputil_line strf ih) gpus
    | inl _ => []
    end
  else [].
Proof.
  unfold info_gpu_section. destruct (NVML caps).
  - unfold lines_try_pass, lines_bind at 1, lines_call at 1.
    destruct (nvmlDeviceGetCount h) as [e|c]; [reflexivity|].
    pose proof (lines_for_nvml decode fmt h ih (seq 0 c) []) as H. cbn [app] in H.
    destruct (lines_for _ _ []) as [ls r]. exact H.
  - destruct (GPUtil_available caps); [|reflexivity].
    unfold lines_try_pass, lines_bind, lines_call.
    destruct (getGPUs h) as [e|gpus]; [reflexivity|].
    now rewrite lines_for_append.
Qed.

Lemma lines_until_failure_gputil decode fmt g h ih idxs :
  lines_until_failure decode fmt (with_gputil g h) ih idxs =
  lines_until_failure decode fmt h ih idxs.
Proof. induction idxs as [|i rest IH]; [reflexivity|]. cbn. now rewrite IH. Qed.

(** X18.  With NVML initialised the Info page never consults GPUtil: its
    GPU lines are the same whatever GPUtil would list.  So when NVML fails
    to count the devices, or counts none, the page reads "No dedicated GPUs
    detected" -- also on a machine where GPUtil lists devices, which the
    live pane then shows as rows. *)
Theorem info_page_never_falls_back decode fmt strf caps h ih :
  NVML caps = true ->
  (forall g, info_gpu_lines decode fmt strf caps (with_gputil g h) ih =
             info_gpu_lines decode fmt strf caps h ih) /\
  (nvmlDeviceGetCount h = inr 0%nat \/ (exists e, nvmlDeviceGetCount h = inl e) ->
   info_gpu_lines decode fmt strf caps h ih = ["No dedicated GPUs detected"] /\
   forall gpus,
     GPUtil_available caps = true -> getGPUs h = inr gpus -> gpus <> [] ->
     gpu_names_of (Overlay_init decode caps h) = map gpu_name gpus).
Proof.
  intros HN. split.
  - intros g. unfold info_gpu_lines. rewrite !info_gpu_section_lines, HN.
    change (nvmlDeviceGetCount (with_gputil g h)) with (nvmlDeviceGetCount h).
    destruct (nvmlDeviceGetCount h) as [e|c]; [reflexivity|].
    now rewrite lines_until_failure_gputil.
  - intros Hc. split.
    + unfold info_gpu_lines. rewrite info_gpu_section_lines, HN.
      destruct Hc as [Hc|[e Hc]]; rewrite Hc; reflexivity.
    + intros gpus HG Hg Hne.
      destruct (Overlay_init_rows decode caps h) as [Hr _]. cbv zeta in Hr.
      assert (Hnone : native_found decode caps h = ([], 0%nat)).
      { apply native_found_nothing. right.
        destruct Hc as [Hc|[e Hc]]; [now right|]. left. exists e.
        unfold native_names. now rewrite Hc. }
      rewrite Hnone in Hr. unfold fallback_found, fallback_consulted in Hr.
      cbn [fst] in Hr. rewrite HG, Hg in Hr. cbn [fst snd app] in Hr.
      destruct gpus as [|g gs]; [now elim Hne|]. cbn [List.length Nat.eqb] in Hr.
      unfold gpu_names_of. rewrite Hr. apply named_rows_names.
Qed.

Lemma info_page_never_falls_back_witness :
  let caps := mkCaps true true in
  let h := with_gputil (inr [mkGPU "Radeon RX" (S754_zero false)]) quiet_host in
  let ih := mkInfoHost (fun _ => inl Py.BackendError) (fun _ => S754_zero false) in
  NVML caps = true /\
  info_gpu_lines (fun _ => "") (fun _ => "") (fun _ => "") caps h ih =
    ["No dedicated GPUs detected"] /\
  gpu_names_of (Overlay_init (fun _ => "") caps h) = ["Radeon RX"].
Proof.
  cbv zeta. split; [reflexivity|].
  destruct (info_page_never_falls_back (fun _ => "") (fun _ => "") (fun _ => "")
              (mkCaps true true)
              (with_gputil (inr [mkGPU "Radeon RX" (S754_zero false)]) quiet_host)
              (mkInfoHost (fun _ => inl Py.BackendError) (fun _ => S754_zero false))
              eq_refl) as [_ H].
  destruct H as [Hlines Hrows]; [right; now exists Py.BackendError|].
  split; [exact Hlines|].
  apply (Hrows [mkGPU "Radeon RX" (S754_zero false)]); [reflexivity | reflexivity | discriminate].
Defined.

Lemma lines_until_failure_prefix decode fmt h ih pre rest :
  (forall i, In i pre -> exists line, info_nvml_line decode fmt h ih i = inr line) ->
  (match rest with
   | [] => True
   | k :: _ => exists e, info_nvml_line decode fmt h ih k = inl e
   end) ->
  Forall2 (fun i line => info_nvml_line decode fmt h ih i = inr line) pre
          (lines_until_failure decode fmt h ih (pre ++ rest)).
Proof.
  intros Hpre Hrest. induction pre as [|i pre IH]; cbn [app lines_until_failure].
  - destruct rest as [|k rest]; [constructor|]. cbn [lines_until_failure].
    destruct Hrest as [e He]. rewrite He. constructor.
  - destruct (Hpre i (or_introl eq_refl)) as [line Hl]. rewrite Hl.
    constructor; [exact Hl|]. apply IH. intros j Hj. apply Hpre. now right.
Qed.

(** X19.  With NVML initialised and counting [c] devices, the Info page
    lists the devices in order up to the first one for which a query (the
    handle, the name, the memory) fails, one line "name — x.y GB" each; the
    lines gathered before the failure are kept, and the page reads "No
    dedicated GPUs detected" only when there is none. *)
Theorem info_page_lists_devices_before_failure decode fmt strf caps h ih c k :
  NVML caps = true -> nvmlDeviceGetCount h = inr c -> (k <= c)%nat ->
  (forall i, (i < k)%nat -> exists line, info_nvml_line decode fmt h ih i = inr line) ->
  ((k < c)%nat -> exists e, info_nvml_line decode fmt h ih k = inl e) ->
  (k = 0%nat -> info_gpu_lines decode fmt strf caps h ih = ["No dedicated GPUs detected"]) /\
  ((0 < k)%nat ->
   Forall2 (fun i line => info_nvml_line decode fmt h ih i = inr line) (seq 0 k)
           (info_gpu_lines decode fmt strf caps h ih)).
Proof.
  intros HN Hc Hk Hok Hfail.
  assert (Hsplit : seq 0 c = (seq 0 k ++ seq k (c - k))%list)
    by (rewrite <- seq_app; f_equal; lia).
  assert (H : Forall2 (fun i line => info_nvml_line decode fmt h ih i = inr line) (seq 0 k)
                (lines_until_failure decode fmt h ih (seq 0 c))).
  { rewrite Hsplit. apply lines_until_failure_prefix.
    - intros i Hi. apply in_seq in Hi. apply Hok. lia.
    - destruct (c - k)%nat as [|m] eqn:E; cbn [seq]; [exact I|]. apply Hfail. lia. }
  unfold info_gpu_lines. rewrite info_gpu_section_lines, HN, Hc. split.
  - intros ->. cbn [seq] in H. inversion H. reflexivity.
  - intros Hpos. destruct (lines_until_failure decode fmt h ih (seq 0 c)) as [|l ls];
      [|exact H].
    destruct k as [|k']; [lia|]. cbn [seq] in H. inversion H.
Qed.

Lemma info_page_lists_devices_before_failure_witness :
  let caps := mkCaps true false in
  let h := two_gpus (fun _ => inr 0) in
  let ih := mkInfoHost (fun hd => if Nat.eqb hd 0 then inr 8589934592
                                  else inl Py.BackendError)
                       (fun _ => S754_zero false) in
  nvmlDeviceGetCount h = inr 2%nat /\
  info_nvml_line (fun _ => "") (fun _ => "8.0") h ih 1 = inl Py.BackendError /\
  Forall2 (fun i line => info_nvml_line (fun _ => "") (fun _ => "8.0") h ih i = inr line)
          [0%nat] (info_gpu_lines (fun _ => "") (fun _ => "8.0") (fun _ => "") caps h ih).
Proof.
  cbv zeta. split; [reflexivity|]. split; [reflexivity|].
  refine (proj2 (info_page_lists_devices_before_failure (fun _ => "") (fun _ => "8.0")
                   (fun _ => "") (mkCaps true false) (two_gpus (fun _ => inr 0))
                   (mkInfoHost (fun hd => if Nat.eqb hd 0 then inr 8589934592
                                          else inl Py.BackendError)
                               (fun _ => S754_zero false))
                   2%nat 1%nat eq_refl eq_refl _ _ _) _); try lia.
  - intros [|i] Hi; [|lia]. eexists. reflexivity.
  - intros _. now exists Py.BackendError.
Defined.
